(** * Stage orchestration of the coastal-calibration workflow

    A shallow embedding of the batch-scheduler controller
    ([utils/slurm.py]), of the external-process helpers of the stage base
    class ([stages/base.py]) and of the stage planning, partitioning and
    dependency-preparation rules of the runner, with the properties that the
    specification states about them; and of the submission of a job, the
    environment of the container, the container stages of the rasterized
    model ([stages/sfincs_build.py], [stages/sfincs_run.py]) and the
    station files, mesh file and comparison figures of the finite-element
    model ([stages/schism.py]), with properties that the code shows.

    Conventions of the embedding.
    - A Python [str] is a [string]; the text handled here (scheduler output,
      stage names, paths) is ASCII, and the built-ins below are the ASCII
      fragment of the Python ones.
    - A Python [int] is a [Z]; [None] is [None] of an [option].
    - Code that talks to the outside (sub-processes, the clock, the log) is
      written against an explicit oracle and returns, next to its result,
      the trace of the events it performed.
    - A raised exception is the [Raised] outcome; a [while True] loop takes a
      bound on its number of iterations and is [Pending] when it needs more. *)

From Stdlib Require Import Ascii String Qcanon.
From stdpp Require Import base option list strings pretty numbers gmap.

Local Open Scope Z_scope.

(* ===================================================================== *)
(** * Python built-ins on ASCII text *)
(* ===================================================================== *)

Module Py.

(** [str.isspace] on one ASCII character: TAB, LF, VT, FF, CR, the four
    separators FS, GS, RS, US, and the space. *)
Definition isspace (c : ascii) : bool :=
  let n := Ascii.N_of_ascii c in
  ((9 <=? n)%N && (n <=? 13)%N) || ((28 <=? n)%N && (n <=? 32)%N).

Fixpoint lstrip (s : string) : string :=
  match s with
  | EmptyString => EmptyString
  | String c r => if isspace c then lstrip r else s
  end.

Fixpoint rstrip (s : string) : string :=
  match s with
  | EmptyString => EmptyString
  | String c r =>
      match rstrip r with
      | EmptyString => if isspace c then EmptyString else String c EmptyString
      | r' => String c r'
      end
  end.

(** [s.strip()] *)
Definition strip (s : string) : string := rstrip (lstrip s).

Definition upper_char (c : ascii) : ascii :=
  let n := Ascii.N_of_ascii c in
  if (97 <=? n)%N && (n <=? 122)%N then Ascii.ascii_of_N (n - 32) else c.

(** [s.upper()] *)
Fixpoint upper (s : string) : string :=
  match s with
  | EmptyString => EmptyString
  | String c r => String (upper_char c) (upper r)
  end.

(** [s.startswith(p)] *)
Definition startswith (s p : string) : bool := String.prefix p s.

(** [sub in s] *)
Fixpoint contains (sub s : string) : bool :=
  String.prefix sub s ||
  match s with
  | EmptyString => false
  | String _ r => contains sub r
  end.

(** [s.split(sep)] for a separator of one character: never empty. *)
Fixpoint split (sep : ascii) (s : string) : list string :=
  match s with
  | EmptyString => [EmptyString]
  | String c r =>
      if Ascii.eqb c sep then EmptyString :: split sep r
      else match split sep r with
           | h :: t => String c h :: t
           | [] => [String c EmptyString]
           end
  end.

(** Truth value of a [str]: non-empty. *)
Definition truthy (s : string) : bool :=
  match s with EmptyString => false | _ => true end.

(** [s[-n:]] for a positive [n]: the last [n] characters, or all of [s]. *)
Fixpoint last_chars (n : nat) (s : string) : string :=
  match s with
  | EmptyString => EmptyString
  | String _ r => if (String.length s <=? n)%nat then s else last_chars n r
  end.

Definition is_digit (c : ascii) : bool :=
  let n := Ascii.N_of_ascii c in (48 <=? n)%N && (n <=? 57)%N.

Definition digit_value (c : ascii) : Z := Z.of_N (Ascii.N_of_ascii c) - 48.

(** The digits of an integer literal: decimal digits, single underscores
    allowed between two digits. [prev] tells that the previous character
    was a digit. *)
Fixpoint int_digits (s : string) (acc : Z) (prev : bool) : option Z :=
  match s with
  | EmptyString => if prev then Some acc else None
  | String c r =>
      if is_digit c then int_digits r (10 * acc + digit_value c) true
      else if Ascii.eqb c "_"%char && prev then int_digits r acc false
      else None
  end.

(** The white space that [int] skips around a literal: TAB, LF, VT, FF, CR
    and the space, not the four separators. *)
Definition int_space (c : ascii) : bool :=
  let n := Ascii.N_of_ascii c in
  ((9 <=? n)%N && (n <=? 13)%N) || (n =? 32)%N.

Fixpoint int_lskip (s : string) : string :=
  match s with
  | EmptyString => EmptyString
  | String c r => if int_space c then int_lskip r else s
  end.

Fixpoint int_rskip (s : string) : string :=
  match s with
  | EmptyString => EmptyString
  | String c r =>
      match int_rskip r with
      | EmptyString => if int_space c then EmptyString else String c EmptyString
      | r' => String c r'
      end
  end.

(** [int(s)]: [None] stands for [ValueError]. The limit that Python puts on
    the number of digits of a literal is not modelled. *)
Definition int (s : string) : option Z :=
  match int_rskip (int_lskip s) with
  | String "+"%char r => int_digits r 0 false
  | String "-"%char r => Z.opp <$> int_digits r 0 false
  | t => int_digits t 0 false
  end.

(** [str(x)] inside an f-string, for an optional text. *)
Definition fmt_opt (o : option string) : string :=
  match o with Some s => s | None => "None" end.

(** [s[len(prefix):]] when [s.startswith(prefix)]. *)
Fixpoint after_prefix (prefix s : string) : option string :=
  match prefix, s with
  | EmptyString, _ => Some s
  | String a p, String b r => if Ascii.eqb a b then after_prefix p r else None
  | String _ _, EmptyString => None
  end.

(** Every character of [s] passes the test [p]. *)
Fixpoint all_chars (p : ascii → bool) (s : string) : bool :=
  match s with
  | EmptyString => true
  | String c r => p c && all_chars p r
  end.

(** [str.isalnum] on one ASCII character: a digit or a letter. *)
Definition isalnum_char (c : ascii) : bool :=
  let n := Ascii.N_of_ascii c in
  is_digit c || ((65 <=? n)%N && (n <=? 90)%N)
  || ((97 <=? n)%N && (n <=? 122)%N).

(** [s.isalnum()]: at least one character, and only letters and digits. *)
Definition isalnum (s : string) : bool := truthy s && all_chars isalnum_char s.

(** [s.replace(old, new)] for an [old] of one character. *)
Fixpoint replace (old : ascii) (new s : string) : string :=
  match s with
  | EmptyString => EmptyString
  | String c r =>
      if Ascii.eqb c old then new +:+ replace old new r
      else String c (replace old new r)
  end.

Definition newline : string := String "010" EmptyString.

(** A line boundary of [str.splitlines] among the ASCII characters: LF, VT,
    FF, CR, FS, GS, RS. *)
Definition is_linebreak (c : ascii) : bool :=
  let n := Ascii.N_of_ascii c in
  ((10 <=? n)%N && (n <=? 13)%N) || ((28 <=? n)%N && (n <=? 30)%N).

(** [s.splitlines()]: the lines of [s] without their line boundaries, CR LF
    counting as one boundary; a final boundary opens no further line. *)
Fixpoint splitlines (s : string) : list string :=
  match s with
  | EmptyString => []
  | String c r =>
      if is_linebreak c then
        EmptyString ::
          match r with
          | String c' r' =>
              if Ascii.eqb c "013" && Ascii.eqb c' "010" then splitlines r'
              else splitlines r
          | EmptyString => []
          end
      else
        match splitlines r with
        | line :: lines => String c line :: lines
        | [] => [String c EmptyString]
        end
  end.

(** [dir / name] of [pathlib], for a relative [name] and a directory other
    than the root and the current one, for which [pathlib] writes [/name]
    and [name]. *)
Definition joinpath (dir name : string) : string := dir +:+ "/" +:+ name.

(** [math.ceil(n / d)] for a natural number [n] and a positive [d]; the
    rounding of the floating-point quotient is not modelled. *)
Definition ceil_div (n d : nat) : nat :=
  if (n mod d =? 0)%nat then (n / d)%nat else S (n / d).

(** [l[start:stop]] for indices that are not negative. *)
Definition slice {A : Type} (l : list A) (start stop : nat) : list A :=
  take (stop - start) (drop start l).

(** [k] zeros in front of [s]. *)
Fixpoint zeros (k : nat) (s : string) : string :=
  match k with
  | O => s
  | S k' => String "0" (zeros k' s)
  end.

(** [f"{n:03d}"] for a natural number: its decimal digits, with zeros in
    front up to a width of three. *)
Definition format_03d (n : nat) : string :=
  let s := pretty n in zeros (3 - String.length s) s.

(** [f.readline()] on what is left of a text file: the line with its
    newline, and what is left after it; the empty text at the end of the
    file. The text is the one that the file object gives, its line ends
    being newlines. *)
Fixpoint readline (f : string) : string * string :=
  match f with
  | EmptyString => (EmptyString, EmptyString)
  | String c r =>
      if Ascii.eqb c "010" then (String c EmptyString, r)
      else let '(line, rest) := readline r in (String c line, rest)
  end.

(** [s.split()]: the runs of characters that are not white space. *)
Fixpoint split_whitespace (s : string) : list string :=
  match s with
  | EmptyString => []
  | String c r =>
      if isspace c then split_whitespace r
      else
        match r with
        | EmptyString => [String c EmptyString]
        | String c' _ =>
            if isspace c' then String c EmptyString :: split_whitespace r
            else match split_whitespace r with
                 | w :: ws => String c w :: ws
                 | [] => [String c EmptyString]
                 end
        end
  end.

End Py.

(* ===================================================================== *)
(** * Outcomes, exceptions and events *)
(* ===================================================================== *)

Inductive Exn : Type :=
| FileNotFoundError (program : string)
| CalledProcessError (returncode : Z)
| FileExistsError (path : string)
| RuntimeError (msg : string)
| ValueError (msg : string)
| PermissionError (program : string)
| UnicodeDecodeError (reason : string).

Inductive Outcome (A : Type) : Type :=
| Returned (a : A)
| Raised (e : Exn)
| Pending.
Arguments Returned {A} a.
Arguments Raised {A} e.
Arguments Pending {A}.

(** [subprocess.CompletedProcess]; [stderr] is [None] when the stream was
    not captured. *)
Record CompletedProcess : Type := mkCompleted {
  returncode : Z;
  stdout : string;
  stderr : option string
}.

(** What launching [argv] gives: the process ran to completion and its
    streams were read; the program was not found; or the launch raised
    another exception [e], such as the [PermissionError] of a program that
    may not be executed or, the streams being read as text, the
    [UnicodeDecodeError] of output that is not text. *)
Inductive Launch : Type :=
| Ran (cp : CompletedProcess)
| NotFound
| Broke (e : Exn).

(** The operating system as seen by one call: what each command line
    answers. *)
Definition Oracle : Type := list string → Launch.

Inductive Event : Type :=
| EvRun (argv : list string)
| EvLog (level msg : string)
| EvClock
| EvSleep (seconds : Z)
| EvWrite (path content : string).

Abbreviation Trace := (list Event).

(** A computation: its outcome and the events it performed, in order. *)
Definition M (A : Type) : Type := (Outcome A * Trace)%type.

#[global] Instance M_ret : MRet M := fun A (a : A) => (Returned a, []).

#[global] Instance M_bind : MBind M := fun A B (f : A → M B) (m : M A) =>
  match m with
  | (Returned a, tr) => let '(r, tr') := f a in (r, tr ++ tr')
  | (Raised e, tr) => (Raised e, tr)
  | (Pending, tr) => (Pending, tr)
  end.

Definition raise {A : Type} (e : Exn) : M A := (Raised e, []).

Definition emit (tr : Trace) : M unit := (Returned (), tr).

(** [try: m except <handled>: h] *)
Definition try_except {A : Type} (m : M A) (handled : Exn → bool)
    (h : Exn → M A) : M A :=
  match m with
  | (Raised e, tr) =>
      if handled e then let '(r, tr') := h e in (r, tr ++ tr') else m
  | _ => m
  end.

(** What a message leaves in the log: nothing without a monitor. *)
Definition logged (monitor : bool) (message level : string) : Trace :=
  if monitor then [EvLog level message] else [].

(** [self._log(message, level)] *)
Definition _log (monitor : bool) (message level : string) : M unit :=
  emit (logged monitor message level).

(** [subprocess.run(argv, check=False)], and [Popen(argv).communicate()]. *)
Definition subprocess_run (run : Oracle) (argv : list string)
    : M CompletedProcess :=
  match run argv with
  | Ran cp => (Returned cp, [EvRun argv])
  | NotFound => (Raised (FileNotFoundError (hd "" argv)), [EvRun argv])
  | Broke e => (Raised e, [EvRun argv])
  end.

(** [subprocess.run(argv, check=True)] *)
Definition subprocess_run_checked (run : Oracle) (argv : list string)
    : M CompletedProcess :=
  cp ← subprocess_run run argv;
  if returncode cp =? 0 then mret cp
  else raise (CalledProcessError (returncode cp)).

(** The clock as seen by one call of a waiting loop: its successive
    readings, in seconds. The rounding of floating-point arithmetic on the
    readings is not modelled. *)
Definition Clock : Type := nat → Qc.

(** The [i]-th call of [time.time()]. *)
Definition time_time (clock : Clock) (i : nat) : M Qc :=
  (Returned (clock i), [EvClock]).

(** [time.sleep(seconds)] *)
Definition time_sleep (seconds : Z) : M unit :=
  if seconds <? 0 then raise (ValueError "sleep length must be non-negative")
  else emit [EvSleep seconds].

(* ===================================================================== *)
(** * [utils/slurm.py] *)
(* ===================================================================== *)

Module SlurmManager.

Inductive JobState : Type :=
| PENDING | CONFIGURING | RUNNING | COMPLETING | COMPLETED
| FAILED | CANCELLED | TIMEOUT | NODE_FAIL | UNKNOWN.

#[global] Instance JobState_eq_dec : EqDecision JobState.
Proof. solve_decision. Defined.

(** The [.value] of a member. *)
Definition value (st : JobState) : string :=
  match st with
  | PENDING => "PENDING"
  | CONFIGURING => "CONFIGURING"
  | RUNNING => "RUNNING"
  | COMPLETING => "COMPLETING"
  | COMPLETED => "COMPLETED"
  | FAILED => "FAILED"
  | CANCELLED => "CANCELLED"
  | TIMEOUT => "TIMEOUT"
  | NODE_FAIL => "NODE_FAIL"
  | UNKNOWN => "UNKNOWN"
  end.

Definition members : list JobState :=
  [PENDING; CONFIGURING; RUNNING; COMPLETING; COMPLETED;
   FAILED; CANCELLED; TIMEOUT; NODE_FAIL; UNKNOWN].

(** [JobState(s)]: lookup of a member by value; [None] stands for
    [ValueError]. *)
Definition by_value (s : string) : option JobState :=
  List.find (fun st => String.eqb (value st) s) members.

Definition _parse_state (state_str : string) : JobState :=
  let state_str := Py.upper (Py.strip state_str) in
  if Py.startswith state_str "CANCELLED" then CANCELLED
  else match by_value state_str with
       | Some st => st
       | None => UNKNOWN
       end.

Record JobStatus : Type := mkJobStatus {
  job_id : string;
  state : JobState;
  name : string;
  node_list : string;
  exit_code : option Z;
  elapsed_time : string;
  reason : string
}.

(** [JobStatus(job_id=job_id, state=JobState.UNKNOWN)] *)
Definition unknown_status (jid : string) : JobStatus :=
  {| job_id := jid; state := UNKNOWN; name := ""; node_list := "";
     exit_code := None; elapsed_time := ""; reason := "" |}.

Definition terminal_states : list JobState :=
  [COMPLETED; FAILED; CANCELLED; TIMEOUT; NODE_FAIL].

Definition is_terminal (st : JobState) : bool :=
  bool_decide (st ∈ terminal_states).

(** The command of the pre-flight check. *)
Definition version_argv : list string := ["squeue"; "--version"].

Definition unavailable_msg : string :=
  "SLURM commands not available. Ensure you are on a cluster with SLURM.".

Definition _check_slurm_available (run : Oracle) : M unit :=
  try_except
    (subprocess_run_checked run version_argv ;; mret ())
    (fun e => match e with
              | CalledProcessError _ | FileNotFoundError _ => true
              | _ => false
              end)
    (fun _ => raise (RuntimeError unavailable_msg)).

(** The manager: of its attributes only the presence of a monitor matters
    to the methods below. *)
Record Manager : Type := mkManager { monitor : bool }.

Definition __init__ (run : Oracle) (with_monitor : bool) : M Manager :=
  _check_slurm_available run ;;
  mret {| monitor := with_monitor |}.

Definition sacct_argv (jid : string) : list string :=
  ["sacct"; "-j"; jid;
   "--format=JobID,JobName,State,NodeList,ExitCode,Elapsed,Reason";
   "--noheader"; "--parsable2"].

Definition squeue_argv (jid : string) : list string :=
  ["squeue"; "-j"; jid; "--format=%i|%j|%T|%N|%r"; "--noheader"].

(** [parts[i] if len(parts) > i else ""] *)
Definition field (parts : list string) (i : nat) : string :=
  match parts !! i with Some p => p | None => "" end.

(** [self._parse_state(parts[2]) if len(parts) > 2 else JobState.UNKNOWN] *)
Definition state_field (parts : list string) : JobState :=
  match parts !! 2%nat with Some p => _parse_state p | None => UNKNOWN end.

(** The exit code of an accounting line: the part of the fifth field before
    the colon, when that is an integer. *)
Definition exit_code_field (parts : list string) : option Z :=
  match parts !! 4%nat with
  | Some p => if Py.truthy p then Py.int (hd "" (Py.split ":" p)) else None
  | None => None
  end.

(** The [for line in ...] loop over the accounting lines: the status of the
    first line of the job itself or of one of its steps, the [.batch] and
    [.extern] steps skipped. *)
Fixpoint sacct_scan (jid : string) (lines : list string) : option JobStatus :=
  match lines with
  | [] => None
  | line :: rest =>
      let parts := Py.split "|" line in
      let p0 := hd "" parts in
      if String.eqb p0 jid || Py.startswith p0 (jid +:+ ".") then
        if Py.contains ".batch" p0 || Py.contains ".extern" p0 then
          sacct_scan jid rest
        else
          Some {| job_id := p0;
                  name := field parts 1;
                  state := state_field parts;
                  node_list := field parts 3;
                  exit_code := exit_code_field parts;
                  elapsed_time := field parts 5;
                  reason := field parts 6 |}
      else sacct_scan jid rest
  end.

(** [result.returncode == 0 and result.stdout.strip()]: the command
    succeeded and printed something. *)
Definition reports (result : CompletedProcess) : bool :=
  (returncode result =? 0) && Py.truthy (Py.strip (stdout result)).

(** The value of [sacct_status] after the accounting query. *)
Definition sacct_status (jid : string) (result : CompletedProcess)
    : option JobStatus :=
  if reports result then
    sacct_scan jid (Py.split "010" (Py.strip (stdout result)))
  else None.

(** The status built from the answer of the live queue. *)
Definition squeue_status (sq_result : CompletedProcess) : JobStatus :=
  let parts := Py.split "|" (Py.strip (stdout sq_result)) in
  {| job_id := hd "" parts;
     name := field parts 1;
     state := state_field parts;
     node_list := field parts 3;
     exit_code := None;
     elapsed_time := "";
     reason := field parts 4 |}.

(** [sacct_status and sacct_status.state in terminal_states] *)
Definition authoritative (sacct_status : option JobStatus) : bool :=
  match sacct_status with
  | Some st => is_terminal (state st)
  | None => false
  end.

Definition get_job_status (run : Oracle) (jid : string) : M JobStatus :=
  result ← subprocess_run run (sacct_argv jid);
  let sacct_status := sacct_status jid result in
  if authoritative sacct_status then
    mret (default (unknown_status jid) sacct_status)
  else
    sq_result ← subprocess_run run (squeue_argv jid);
    if reports sq_result then mret (squeue_status sq_result)
    else mret (default (unknown_status jid) sacct_status).

(** The scheduler and the clock as seen by one call of [wait_for_job]:
    what the commands answer during the [k]-th poll, and the readings of
    the clock. *)
Record World : Type := mkWorld {
  commands : nat → Oracle;
  clock : Clock
}.

(** [timeout and (time.time() - start_time) > timeout], the clock being read
    only when [timeout] is neither [None] nor [0]. *)
Definition timeout_expired (w : World) (timeout : option Z) (start_time : Qc)
    (k : nat) : M bool :=
  match timeout with
  | Some t =>
      if t =? 0 then mret false
      else
        now ← time_time (clock w) (S k);
        mret (bool_decide (Qc_of_Z t < now - start_time)%Qc)
  | None => mret false
  end.

(** The [while True] loop of [wait_for_job], from its [k]-th iteration on,
    for at most [fuel] iterations. *)
Fixpoint wait_loop (self : Manager) (w : World) (jid : string)
    (poll_interval : Z) (timeout : option Z) (start_time : Qc)
    (fuel k : nat) (last_state : option JobState) : M JobStatus :=
  match fuel with
  | O => (Pending, [])
  | S fuel' =>
      status ← get_job_status (commands w k) jid;
      let changed := bool_decide (Some (state status) ≠ last_state) in
      (if changed
       then _log (monitor self)
              ("Job " +:+ jid +:+ " state: " +:+ value (state status)) "info"
       else mret ()) ;;
      let last_state := if changed then Some (state status) else last_state in
      if is_terminal (state status) then mret status
      else
        expired ← timeout_expired w timeout start_time k;
        if (expired : bool) then
          _log (monitor self) ("Timeout waiting for job " +:+ jid) "warning" ;;
          mret status
        else
          time_sleep poll_interval ;;
          wait_loop self w jid poll_interval timeout start_time
            fuel' (S k) last_state
  end.

Definition wait_for_job (self : Manager) (w : World) (jid : string)
    (poll_interval : Z) (timeout : option Z) (fuel : nat) : M JobStatus :=
  _log (monitor self) ("Waiting for job " +:+ jid +:+ " to complete...") "info" ;;
  start_time ← time_time (clock w) 0;
  wait_loop self w jid poll_interval timeout start_time fuel 0 None.

(** The literal part of the pattern of [submit_job]. *)
Definition submitted : string := "Submitted batch job ".

(** The longest run of decimal digits at the start of [s]: what a greedy
    [\d*] matches there. *)
Fixpoint leading_digits (s : string) : string :=
  match s with
  | EmptyString => EmptyString
  | String c r =>
      if Py.is_digit c then String c (leading_digits r) else EmptyString
  end.

(** An attempt of [Submitted batch job (\d+)] at the start of [s]: its
    group, when the literal is there and at least one digit follows. *)
Definition match_here (s : string) : option string :=
  match Py.after_prefix submitted s with
  | Some r =>
      let d := leading_digits r in if Py.truthy d then Some d else None
  | None => None
  end.

(** [re.search(r"Submitted batch job (\d+)", s)]: the group of the leftmost
    match, [None] when there is no match. *)
Fixpoint job_id_match (s : string) : option string :=
  match match_here s with
  | Some d => Some d
  | None =>
      match s with
      | EmptyString => None
      | String _ r => job_id_match r
      end
  end.

(** [submit_job]; the streams of [sbatch] are captured, hence texts. *)
Definition submit_job (self : Manager) (run : Oracle) (script_path : string)
    : M string :=
  _log (monitor self) ("Submitting job: " +:+ script_path) "info" ;;
  result ← subprocess_run run ["sbatch"; script_path];
  if negb (returncode result =? 0) then
    let error_msg :=
      "Failed to submit job: " +:+ default "" (stderr result) in
    _log (monitor self) error_msg "error" ;;
    raise (RuntimeError error_msg)
  else
    match job_id_match (stdout result) with
    | None =>
        raise (RuntimeError
                 ("Could not parse job ID from: " +:+ stdout result))
    | Some job_id =>
        _log (monitor self) ("Job submitted with ID: " +:+ job_id) "info" ;;
        mret job_id
    end.

End SlurmManager.

(* ===================================================================== *)
(** * [stages/base.py]: external processes of a stage *)
(* ===================================================================== *)

Module WorkflowStage.

(** Truth value of [result.stderr], which is [None] when not captured. *)
Definition stderr_truthy (o : option string) : bool :=
  match o with Some s => Py.truthy s | None => false end.

(** [result.stderr[-2000:]] *)
Definition stderr_tail (o : option string) : string :=
  match o with Some s => Py.last_chars 2000 s | None => "" end.

(** [run_shell_script], its environment and working directory given. With
    [capture_output=False] the streams of the result are [None]. *)
Definition run_shell_script (monitor : bool) (run : Oracle)
    (script_path : string) (capture_output : bool) : M CompletedProcess :=
  _log monitor ("Running script: " +:+ script_path) "info" ;;
  cp ← subprocess_run run ["bash"; script_path];
  let result :=
    if capture_output then cp
    else {| returncode := returncode cp; stdout := ""; stderr := None |} in
  if negb (returncode result =? 0) then
    _log monitor
      ("Script failed with return code " +:+ pretty (returncode result))
      "error" ;;
    (if stderr_truthy (stderr result)
     then _log monitor ("STDERR: " +:+ stderr_tail (stderr result)) "error"
     else mret ()) ;;
    raise (RuntimeError ("Script " +:+ script_path +:+ " failed: "
                         +:+ Py.fmt_opt (stderr result)))
  else mret result.

(** The command line of [run_singularity_command]: the container command,
    wrapped in [mpiexec] when [use_mpi]. *)
Definition sing_cmd (command : list string) (sif_path : string)
    (bindings : list string) (pwd : string) : list string :=
  ["singularity"; "exec"; "-B"; String.concat "," bindings;
   "--pwd"; pwd; sif_path] ++ command.

Definition mpi_cmd (mpi_tasks : Z) (oversubscribe : bool) : list string :=
  ["mpiexec"; "-n"; pretty mpi_tasks]
  ++ (if oversubscribe then ["--oversubscribe"] else []).

(** [run_singularity_command], its environment, bindings and working
    directory given. The standard output of the child is discarded and its
    standard error captured: [stderr or ""]. *)
Definition run_singularity_command (monitor : bool) (run : Oracle)
    (command : list string) (sif_path : string) (bindings : list string)
    (pwd : string) (use_mpi : bool) (mpi_tasks : option Z)
    (oversubscribe : bool) : M CompletedProcess :=
  cmd ← (if use_mpi then
           match mpi_tasks with
           | None =>
               raise (ValueError "mpi_tasks must be specified when use_mpi=True")
           | Some n =>
               mret (mpi_cmd n oversubscribe
                     ++ sing_cmd command sif_path bindings pwd)
           end
         else mret (sing_cmd command sif_path bindings pwd));
  _log monitor
    ("Running Singularity command: "
     +:+ String.concat " " (take 3 command) +:+ "...") "info" ;;
  cp ← subprocess_run run cmd;
  let result :=
    {| returncode := returncode cp; stdout := "";
       stderr := Some (default "" (stderr cp)) |} in
  if negb (returncode result =? 0) then
    let err := default "" (stderr result) in
    _log monitor
      ("Singularity command failed: " +:+ Py.last_chars 2000 err) "error" ;;
    raise (RuntimeError ("Singularity command failed: " +:+ err))
  else mret result.

(** The variables that Singularity does not let a caller override. *)
Definition singularity_protected : list string :=
  ["HOME"; "USER"; "SHELL"; "TERM"; "PATH"; "LD_LIBRARY_PATH"].

(** One iteration of the loop over [env.items()] in
    [run_singularity_command]. *)
Definition export_item (key value : string)
    (singularity_env : gmap string string) : gmap string string :=
  if bool_decide (key ∈ singularity_protected) then singularity_env
  else if negb (Py.isalnum (Py.replace "_" "" key)) then singularity_env
  else <["SINGULARITYENV_" +:+ key := value]> singularity_env.

(** The environment that [run_singularity_command] gives to the container
    process: a copy of [env] to which the loop over the items of [env] adds
    the prefixed variables. *)
Definition singularity_env (env : gmap string string) : gmap string string :=
  map_fold export_item env env.

End WorkflowStage.

(* ===================================================================== *)
(** * [stages/sfincs_build.py]: the container run of the rasterized model *)
(* ===================================================================== *)

Module SfincsStageBase.

(** [run_singularity_command] of the SFINCS stages, the model root given:
    both streams of the child are written to [sfincs_log.txt] in the model
    root, the standard output first. A launch that raises is taken to have
    written nothing. *)
Definition run_singularity_command (monitor : bool) (run : Oracle)
    (sif_path model_root : string) : M CompletedProcess :=
  let cmd := ["singularity"; "run"; "-B" +:+ model_root +:+ ":/data"; sif_path] in
  _log monitor ("Running: " +:+ String.concat " " cmd) "info" ;;
  let log_path := model_root +:+ "/sfincs_log.txt" in
  proc ← subprocess_run run cmd;
  emit [EvWrite log_path (stdout proc +:+ default "" (stderr proc))] ;;
  if returncode proc =? 127 then
    raise (RuntimeError
             "singularity not found. Make sure it is installed and on PATH.")
  else if negb (returncode proc =? 0) then
    raise (RuntimeError ("SFINCS run failed with return code "
                         +:+ pretty (returncode proc)))
  else
    mret {| returncode := returncode proc; stdout := ""; stderr := Some "" |}.

Definition SFINCS_DOCKER_IMAGE : string := "deltares/sfincs-cpu".

(** What the container stages read of the SFINCS configuration:
    [container.sif_path], [container.docker_tag] and [paths.model_root]. *)
Record SfincsConfig : Type := mkSfincsConfig {
  container_sif_path : option string;
  container_docker_tag : string;
  paths_model_root : string
}.

Definition _resolve_sif_path (config : SfincsConfig) : string :=
  match container_sif_path config with
  | Some p => p
  | None => Py.joinpath (paths_model_root config)
              ("sfincs-cpu_" +:+ container_docker_tag config +:+ ".sif")
  end.

(** [pull_singularity_image]; [exists_] tells which paths exist. The
    creation of the directory of the image is taken to succeed and leaves
    no event. The streams of the pull are captured, hence texts. *)
Definition pull_singularity_image (config : SfincsConfig) (monitor : bool)
    (run : Oracle) (exists_ : string → bool) (sif_path : option string)
    : M string :=
  let sif_path := default (_resolve_sif_path config) sif_path in
  if exists_ sif_path then
    _log monitor ("SIF already exists: " +:+ sif_path) "info" ;;
    mret sif_path
  else
    let docker_tag := container_docker_tag config in
    let docker_uri :=
      "docker://" +:+ SFINCS_DOCKER_IMAGE +:+ ":" +:+ docker_tag in
    let cmd := ["singularity"; "pull"; sif_path; docker_uri] in
    _log monitor
      ("Pulling Singularity image: " +:+ docker_uri +:+ " -> " +:+ sif_path)
      "info" ;;
    result ← subprocess_run run cmd;
    if negb (returncode result =? 0) then
      let err := default "" (stderr result) in
      _log monitor ("singularity pull failed: " +:+ Py.last_chars 2000 err)
        "error" ;;
      raise (RuntimeError ("singularity pull failed: " +:+ err))
    else mret sif_path.

End SfincsStageBase.

(* ===================================================================== *)
(** * [stages/sfincs_run.py] *)
(* ===================================================================== *)

Module SfincsRunStage.
Import SfincsStageBase.

Section Run.

(** The values that a stage context holds, and the texts among them. *)
Variable Any : Type.
Variable str : string → Any.

(** [SfincsRunStage.run]: the image is pulled, the model run in it, and the
    context updated. The updates of the progress display leave no event. *)
Definition run (config : SfincsConfig) (monitor : bool) (run : Oracle)
    (exists_ : string → bool) (context : gmap string Any)
    : M (gmap string Any) :=
  sif_path ← pull_singularity_image config monitor run exists_ None;
  run_singularity_command monitor run sif_path (paths_model_root config) ;;
  _log monitor "SFINCS run completed" "info" ;;
  mret (<["run_status" := str "completed"]> context).

End Run.

End SfincsRunStage.

(* ===================================================================== *)
(** * [stages/schism.py]: station files, mesh file and comparison figures *)
(* ===================================================================== *)

Module Schism.

(** The text files of the working directory, which exists: the content
    that [read_text] gives for each path. *)
Abbreviation Files := (gmap string string).

Definition _write_station_names (files : Files) (base_dir : string)
    (station_ids : list string) : Files * string :=
  let path := Py.joinpath base_dir "station_noaa_ids.txt" in
  (<[path := String.concat Py.newline station_ids +:+ Py.newline]> files,
   path).

(** [None] stands for the [FileNotFoundError] of [read_text]. *)
Definition _read_station_noaa_ids (files : Files) (base_dir : string)
    : option (list string) :=
  let path := Py.joinpath base_dir "station_noaa_ids.txt" in
  text ← files !! path;
  Some (Py.strip <$> filter (fun line => Is_true (Py.truthy (Py.strip line)))
                       (Py.splitlines text)).

Section StationIn.

(** The floating-point numbers and their [str], which are not modelled. *)
Variable float : Type.
Variable float_str : float → string.

(** [f"{i} {lon} {lat} 0.0"] *)
Definition station_line (i : nat) (lon lat : float) : string :=
  pretty i +:+ " " +:+ float_str lon +:+ " " +:+ float_str lat +:+ " 0.0".

Definition _write_station_in (files : Files) (base_dir : string)
    (lons lats : list float) : Files * string :=
  let n := length lons in
  let lines :=
    ["1 0 0 0 0 0 0 0 0"; pretty n]
    ++ imap (fun k '(lon, lat) => station_line (k + 1) lon lat)
         (zip lons lats) in
  let path := Py.joinpath base_dir "station.in" in
  (<[path := String.concat Py.newline lines +:+ Py.newline]> files, path).

End StationIn.

(** [_read_hgrid_header], on the text of the mesh file: the numbers of
    elements and of nodes. [None] stands for the [IndexError] of a missing
    number and for the [ValueError] of a text that is no integer. *)
Definition _read_hgrid_header (hgrid : string) : option (Z * Z) :=
  let '(_, f) := Py.readline hgrid in
  let '(line, _) := Py.readline f in
  let parts := Py.split_whitespace line in
  n_elements ← parts !! 0%nat ≫= Py.int;
  n_nodes ← parts !! 1%nat ≫= Py.int;
  Some (n_elements, n_nodes).

(** [for _ in range(n): f.readline()] *)
Fixpoint skip (n : nat) (f : string) : string :=
  match n with
  | O => f
  | S n' => skip n' (Py.readline f).2
  end.

(** [int(line.split("!")[0].split("=")[0].strip())] *)
Definition count (line : string) : option Z :=
  Py.int (Py.strip (hd "" (Py.split "=" (hd "" (Py.split "!" line))))).

(** [[int(f.readline().split()[0]) for _ in range(n)]], with what is left
    of the file. *)
Fixpoint nodes (n : nat) (f : string) : option (list Z * string) :=
  match n with
  | O => Some ([], f)
  | S n' =>
      let '(line, f) := Py.readline f in
      v ← Py.split_whitespace line !! 0%nat ≫= Py.int;
      '(vs, f) ← nodes n' f;
      Some (v :: vs, f)
  end.

(** The loop over the open boundaries. *)
Fixpoint boundaries (n : nat) (f : string) : option (list (list Z)) :=
  match n with
  | O => Some []
  | S n' =>
      let '(bnd_line, f) := Py.readline f in
      n_bnd_nodes ← count bnd_line;
      '(boundary, f) ← nodes (Z.to_nat n_bnd_nodes) f;
      open_boundaries ← boundaries n' f;
      Some (boundary :: open_boundaries)
  end.

(** [_read_open_boundary_nodes], on the text of the mesh file: the nodes of
    each open boundary. [None] stands for the [ValueError] of a text that
    is no integer and for the [IndexError] of a blank line. *)
Definition _read_open_boundary_nodes (hgrid : string) (n_nodes n_elements : Z)
    : option (list (list Z)) :=
  let f := skip 2 hgrid in
  let f := skip (Z.to_nat n_nodes) f in
  let f := skip (Z.to_nat n_elements) f in
  let '(line, f) := Py.readline f in
  n_open_bnds ← count line;
  let f := (Py.readline f).2 in
  boundaries (Z.to_nat n_open_bnds) f.

Module SchismPlotStage.

Definition _STATIONS_PER_FIGURE : nat := 4.

(** One of the four axes of a figure, in use: its place in the 2x2 layout,
    the station drawn on it and the column of that station in the simulated
    elevations. What is drawn on the axes depends on the data and is not
    modelled. *)
Record Panel : Type := mkPanel {
  axis : nat;
  sid : string;
  col_idx : nat
}.

(** A saved figure: its panels, the axes removed as unused, and its file. *)
Record Figure : Type := mkFigure {
  panels : list Panel;
  removed_axes : list nat;
  fig_path : string
}.

(** [sim_elevation[:, col_idx]] in an array of [n_columns] columns: [None]
    stands for the [IndexError] of a column that is not there. *)
Definition column (n_columns : nat) (p : Panel) : option Panel :=
  if (col_idx p <? n_columns)%nat then Some p else None.

(** The body of the loop over the figures in [_plot_figures]. *)
Definition figure (n_columns : nat) (station_ids : list string)
    (figs_dir : string) (fig_idx : nat) : option Figure :=
  let n_stations := length station_ids in
  let start := (fig_idx * _STATIONS_PER_FIGURE)%nat in
  let stop := Nat.min (start + _STATIONS_PER_FIGURE) n_stations in
  let batch_ids := Py.slice station_ids start stop in
  let batch_size := length batch_ids in
  ps ← mapM (column n_columns)
         (imap (fun i sid => mkPanel i sid (start + i)) batch_ids);
  Some {| panels := ps;
          removed_axes := seq batch_size (_STATIONS_PER_FIGURE - batch_size);
          fig_path :=
            Py.joinpath figs_dir
              ("stations_comparison_" +:+ Py.format_03d (fig_idx + 1)
               +:+ ".png") |}.

(** [_plot_figures], for simulated elevations of [n_columns] columns: the
    figures saved, in order. The directory of the figures is taken to be
    there. [None] stands for the [IndexError] of a missing column; the
    figures saved before it are then not told. *)
Definition _plot_figures (n_columns : nat) (station_ids : list string)
    (figs_dir : string) : option (list Figure) :=
  let n_stations := length station_ids in
  let n_figures := Py.ceil_div n_stations _STATIONS_PER_FIGURE in
  mapM (figure n_columns station_ids figs_dir) (seq 0 n_figures).

(** The step of [run] that reconciles the columns of [staout_1] with the
    station ids: it warns of a mismatch and gives the number of columns and
    the ids that [run] then hands to [_plot_figures]. *)
Definition reconcile (monitor : bool) (n_columns : nat)
    (station_ids : list string) : M (nat * list string) :=
  if bool_decide (n_columns ≠ length station_ids) then
    _log monitor
      ("Station count mismatch: staout_1 has " +:+ pretty n_columns
       +:+ " columns but " +:+ pretty (length station_ids)
       +:+ " station IDs") "warning" ;;
    let n := Nat.min n_columns (length station_ids) in
    mret (Nat.min n n_columns, take n station_ids)
  else mret (n_columns, station_ids).

End SchismPlotStage.

End Schism.

(* ===================================================================== *)
(** * The runner: planning, partitioning, dependency preparation *)
(* ===================================================================== *)

Module StagePlanner.

Definition download : string := "download".

(** Modelled from the spec: the runner module is not among the sources.
    Position of the first occurrence of a name in a stage order. *)
Fixpoint index (s : string) (l : list string) : option nat :=
  match l with
  | [] => None
  | x :: r => if String.eqb x s then Some 0%nat else S <$> index s r
  end.

(** Modelled from the spec: the runner module is not among the sources.
    The "unknown stage" error of section 4.1, naming the offending value;
    the tests of the runner expect a [ValueError] matching "Unknown
    stage". *)
Definition unknown_stage (s : string) : Exn :=
  ValueError ("Unknown stage: " +:+ s).

(** Modelled from the spec: the runner module is not among the sources.
    Section 4.1, the bounds: the stages from [start_from] to [stop_after],
    both inclusive; a bound that is not given is the matching end of the
    order, and one that is not a name of the order is an error,
    [start_from] being looked at first. *)
Definition bounded (stage_order : list string)
    (start_from stop_after : option string) : Outcome (list string) :=
  let first :=
    match start_from with
    | None => Returned 0%nat
    | Some s =>
        match index s stage_order with
        | Some i => Returned i
        | None => Raised (unknown_stage s)
        end
    end in
  let past :=
    match stop_after with
    | None => Returned (length stage_order)
    | Some s =>
        match index s stage_order with
        | Some j => Returned (S j)
        | None => Raised (unknown_stage s)
        end
    end in
  match first, past with
  | Raised e, _ => Raised e
  | Returned _, Raised e => Raised e
  | Returned i, Returned j => Returned (take (j - i) (drop i stage_order))
  | _, _ => Pending
  end.

(** Modelled from the spec: the runner module is not among the sources.
    Section 4.1, the download stage: it stays when the feature is enabled
    or when it was itself given as a bound. *)
Definition keeps_download (start_from stop_after : option string)
    (is_download_enabled : bool) : bool :=
  is_download_enabled
  || bool_decide (start_from = Some download)
  || bool_decide (stop_after = Some download).

(** Modelled from the spec: the runner module is not among the sources
    (only its tests are, which call this [_get_stages_to_run]). Section 4.1:
    a bound that is given must be a name of [stage_order], otherwise the
    plan fails with an "unknown stage" error naming it; the result begins at
    [start_from] and ends at [stop_after], both inclusive, and keeps the
    order; the stage named "download" is excluded whenever the download
    feature is disabled, unless it was itself given as a bound. *)
Definition plan (stage_order : list string) (start_from stop_after : option string)
    (is_download_enabled : bool) : Outcome (list string) :=
  match bounded stage_order start_from stop_after with
  | Returned selected =>
      if keeps_download start_from stop_after is_download_enabled
      then Returned selected
      else Returned (filter (fun s => s ≠ download) selected)
  | Raised e => Raised e
  | Pending => Pending
  end.

End StagePlanner.

Module SubmissionPartitioner.

Record Groups : Type := mkGroups {
  pre_job : list string;
  job : list string;
  post_job : list string
}.

Section Partition.

Variable is_containerized : string → bool.

(** Modelled from the spec: the runner module is not among the sources.
    One step of the scan of section 4.2. While the scan runs, [post_job]
    holds the non-containerized stages met since the last containerized
    one: they are promoted to [pre_job] when another containerized stage
    follows. *)
Definition scan (g : Groups) (s : string) : Groups :=
  if is_containerized s then
    {| pre_job := pre_job g ++ post_job g;
       job := job g ++ [s];
       post_job := [] |}
  else
    match job g with
    | [] => {| pre_job := pre_job g ++ [s]; job := []; post_job := post_job g |}
    | _ => {| pre_job := pre_job g; job := job g; post_job := post_job g ++ [s] |}
    end.

(** While the scan runs, stages wait in [post_job] only after a
    containerized stage. *)
Definition ordered (g : Groups) : Prop := job g = [] → post_job g = [].

(** Modelled from the spec: the runner module is not among the sources
    (only its tests are, which call this [_split_stages_for_submit]).
    Section 4.2: one scan of [stages] from left to right that maintains
    three lists; the containerized stages form the job group; a
    non-containerized stage goes to [pre_job] when it comes before the first
    containerized stage or lies between two containerized stages (it is
    promoted), and to [post_job] when it comes after the last one; without
    any containerized stage every stage is in [pre_job]. *)
Definition partition (stages : list string) : Groups :=
  foldl scan {| pre_job := []; job := []; post_job := [] |} stages.

End Partition.

End SubmissionPartitioner.

Module DependencyPreparer.

(** What a path names: a regular file with its content, or a symbolic link
    with its target. *)
Inductive Node : Type :=
| RegularFile (content : string)
| Symlink (target : string).

(** The file system: the paths that exist. *)
Abbreviation FS := (gmap string Node).

(** Modelled from the spec: the runner module is not among the sources.
    "The file exists": the path names something. *)
Definition path_exists (fs : FS) (path : string) : bool :=
  bool_decide (is_Some (fs !! path)).

(** Modelled from the spec: the runner module is not among the sources.
    Creation of a symbolic link, which fails when the path of the link
    exists. *)
Definition symlink_to (fs : FS) (link target : string) : Outcome FS :=
  if path_exists fs link then Raised (FileExistsError link)
  else Returned (<[link := Symlink target]> fs).

(** Modelled from the spec: the runner module is not among the sources.
    One promoted-stage dependency rule of section 4.3: the stage, the input
    file it needs in the working directory, and where the canonical copy of
    it lives. *)
Record Rule : Type := mkRule {
  stage : string;
  required : string;
  source : string
}.

(** [work_dir / file] *)
Definition in_dir (work_dir file : string) : string :=
  work_dir +:+ "/" +:+ file.

(** Modelled from the spec: the runner module is not among the sources.
    The one rule of the table (section 9), as the tests of the runner show
    it: [schism_obs] reads the mesh [hgrid.gr3], whose canonical copy is
    under [parm_nwm/coastal/<domain>]. *)
Definition schism_rules (parm_nwm coastal_domain : string) : list Rule :=
  [ {| stage := "schism_obs";
       required := "hgrid.gr3";
       source := in_dir (in_dir (in_dir parm_nwm "coastal") coastal_domain)
                   "hgrid.gr3" |} ].

Section Prepare.

Variable table : list Rule.
Variable work_dir : string.

(** Modelled from the spec: the runner module is not among the sources.
    Section 4.3, one rule: nothing is done when the required file exists in
    the working directory, nor when its source does not exist; otherwise
    the link is created. *)
Definition apply_rule (fs : FS) (r : Rule) : Outcome FS :=
  let dst := in_dir work_dir (required r) in
  if path_exists fs dst then Returned fs
  else if path_exists fs (source r) then symlink_to fs dst (source r)
  else Returned fs.

(** A rule has nothing to do: its file is there, or its source is not. *)
Definition settled (fs : FS) (r : Rule) : Prop :=
  path_exists fs (in_dir work_dir (required r)) ∨ ¬ path_exists fs (source r).

(** Modelled from the spec: the runner module is not among the sources.
    The rules applied one after the other, an error ending the run. *)
Fixpoint apply_rules (rules : list Rule) (fs : FS) : Outcome FS :=
  match rules with
  | [] => Returned fs
  | r :: rest =>
      match apply_rule fs r with
      | Returned fs' => apply_rules rest fs'
      | other => other
      end
  end.

(** Modelled from the spec: the runner module is not among the sources.
    The rules that the table has for a stage. *)
Definition rules_of (stage_name : string) : list Rule :=
  List.filter (fun r => String.eqb (stage r) stage_name) table.

(** Modelled from the spec: the runner module is not among the sources
    (only its tests are, which call this [_prepare_promoted_stage_deps]).
    Section 4.3: for each rule of the stage, when the required file does not
    exist in the working directory and its canonical source exists, a
    symbolic link to the source is created in the working directory; an
    existing file is left alone, and a missing source is skipped. *)
Definition prepare (stage_name : string) (fs : FS) : Outcome FS :=
  apply_rules (rules_of stage_name) fs.

End Prepare.

End DependencyPreparer.

(* ===================================================================== *)
(** * Vocabulary of the properties, and concrete scenarios *)
(* ===================================================================== *)

#[global] Instance Event_eq_dec : EqDecision Event.
Proof. solve_decision. Defined.

(** The intervals slept for, in order. *)
Definition sleeps (tr : Trace) : list Z :=
  omap (fun e => match e with EvSleep z => Some z | _ => None end) tr.

(** How many times the accounting query of a job was run. *)
Definition polls (jid : string) (tr : Trace) : nat :=
  length (filter (fun e => e = EvRun (SlurmManager.sacct_argv jid)) tr).

(** A trace without sleep and without accounting query. *)
Definition quiet (jid : string) (tr : Trace) : Prop :=
  sleeps tr = [] ∧ polls jid tr = 0%nat.

(** The timeout check of iteration [k] of [wait_for_job] fires: a timeout
    other than 0 is set and the clock read in that iteration is more than
    the timeout past the first reading. *)
Definition expired_at (w : SlurmManager.World) (timeout : option Z) (k : nat)
    : Prop :=
  ∃ t, timeout = Some t ∧ t ≠ 0
       ∧ (Qc_of_Z t < SlurmManager.clock w (S k) - SlurmManager.clock w 0%nat)%Qc.

(** [r] is a run of consecutive elements of [l]. *)
Definition contiguous (r l : list string) : Prop := ∃ k1 k2, l = k1 ++ r ++ k2.

(** [start_from] does not come after [stop_after] in the order. *)
Definition bounds_in_order (stage_order : list string)
    (start_from stop_after : option string) : Prop :=
  ∀ s t i j,
    start_from = Some s → stop_after = Some t →
    StagePlanner.index s stage_order = Some i →
    StagePlanner.index t stage_order = Some j →
    (i ≤ j)%nat.

(** The command lines launched, in order. *)
Definition launches (tr : Trace) : list (list string) :=
  omap (fun e => match e with EvRun argv => Some argv | _ => None end) tr.

(** The command ran and exited with status 0. *)
Definition succeeds (run : Oracle) (argv : list string) : Prop :=
  ∃ cp, run argv = Ran cp ∧ returncode cp = 0.

(** The text has no character [sep]. *)
Definition lacks (sep : ascii) (s : string) : Prop :=
  Py.all_chars (fun c => negb (Ascii.eqb c sep)) s = true.

(** The text is on one line. *)
Definition no_linebreak (s : string) : Prop :=
  Py.all_chars (fun c => negb (Py.is_linebreak c)) s = true.

(** A station id as the companion file can hold it: not blank, without
    surrounding white space, on one line. *)
Definition plain_id (id : string) : Prop :=
  id ≠ "" ∧ Py.strip id = id ∧ no_linebreak id.

(** The variable is one that [run_singularity_command] hands on to the
    container: not protected, and named with letters, digits and
    underscores, not with underscores alone. *)
Definition exported (key : string) : bool :=
  negb (bool_decide (key ∈ WorkflowStage.singularity_protected))
  && Py.isalnum (Py.replace "_" "" key).

(** The commands of the SFINCS run stage: the pull of the image and the run
    of the model in it. *)
Definition pull_cmd (config : SfincsStageBase.SfincsConfig) (sif : string)
    : list string :=
  ["singularity"; "pull"; sif;
   "docker://" +:+ SfincsStageBase.SFINCS_DOCKER_IMAGE +:+ ":"
   +:+ SfincsStageBase.container_docker_tag config].

Definition run_cmd (config : SfincsStageBase.SfincsConfig) (sif : string)
    : list string :=
  ["singularity"; "run";
   "-B" +:+ SfincsStageBase.paths_model_root config +:+ ":/data"; sif].

(** The panels of figure [fig_idx]: up to four stations from station
    [4 fig_idx] on, each with the column of its index. *)
Definition batch (station_ids : list string) (fig_idx : nat)
    : list Schism.SchismPlotStage.Panel :=
  imap (fun i sid => Schism.SchismPlotStage.mkPanel i sid (fig_idx * 4 + i))
    (take 4 (drop (fig_idx * 4) station_ids)).

(** The file of figure [fig_idx]. *)
Definition file_of (figs_dir : string) (fig_idx : nat) : string :=
  Py.joinpath figs_dir
    ("stations_comparison_" +:+ Py.format_03d (fig_idx + 1) +:+ ".png").

(** Figure [fig_idx] as it is saved when every station has its column. *)
Definition saved (station_ids : list string) (figs_dir : string)
    (fig_idx : nat) : Schism.SchismPlotStage.Figure :=
  {| Schism.SchismPlotStage.panels := batch station_ids fig_idx;
     Schism.SchismPlotStage.removed_axes :=
       seq (length (batch station_ids fig_idx))
         (4 - length (batch station_ids fig_idx));
     Schism.SchismPlotStage.fig_path := file_of figs_dir fig_idx |}.

(** The states that the log reports for a job, in order: the texts logged
    at level info after the words "Job <id> state: ". *)
Definition state_logs (jid : string) (tr : Trace) : list string :=
  omap (fun e =>
          match e with
          | EvLog level msg =>
              if String.eqb level "info"
              then Py.after_prefix ("Job " +:+ jid +:+ " state: ") msg
              else None
          | _ => None
          end) tr.

(** The states of a sequence of polls that differ from the state of the
    poll before, [last] being the state before the first poll. *)
Fixpoint changes (last : option SlurmManager.JobState)
    (states : list SlurmManager.JobState) : list SlurmManager.JobState :=
  match states with
  | [] => []
  | st :: rest =>
      if bool_decide (Some st ≠ last) then st :: changes (Some st) rest
      else changes last rest
  end.

(** The text of the lines, each ended by a newline. *)
Definition unlines (ls : list string) : string :=
  foldr (fun l acc => l +:+ Py.newline +:+ acc) "" ls.

(** A line that gives a number of a mesh file: the number, and a comment
    after an equals sign. *)
Definition count_line (n : nat) (comment : string) : string :=
  pretty n +:+ " = " +:+ comment.

(** The lines of an open boundary: the line of its number of nodes, with
    its comment, and a line for each node. *)
Definition boundary_lines (b : list Z * string) : list string :=
  count_line (length b.1) b.2 :: (pretty <$> b.1).

(** A small mesh: two nodes, one element, and two open boundaries, of two
    nodes and of one. *)
Definition small_mesh : string :=
  unlines
    ["mesh"; "1 2"; "1 0.0 0.0 1.0"; "2 1.0 0.0 1.0"; "1 3 1 2 2";
     "2 = Number of open boundaries";
     "3 = Total number of open boundary nodes";
     "2 = Number of nodes for open boundary 1"; "1"; "2";
     "1 = Number of nodes for open boundary 2"; "2"]
  +:+ "0 = Number of land boundaries".

Module Scenario.
Import SlurmManager.

Definition newline : string := String "010" EmptyString.

(** A command that ran and printed [out] with exit status [rc]. *)
Definition answered (rc : Z) (out : string) : Launch :=
  Ran {| returncode := rc; stdout := out; stderr := Some "" |}.

(** The accounting source already has job 123 as completed while the live
    queue still lists it as running. *)
Definition racing : Oracle := fun argv =>
  if bool_decide (argv = sacct_argv "123") then
    answered 0 ("123|job|COMPLETED|n1|0:0|00:01:00|None" +:+ newline
                +:+ "123.batch|batch|COMPLETED|n1|0:0|00:01:00|" +:+ newline)
  else if bool_decide (argv = squeue_argv "123") then
    answered 0 ("123|job|RUNNING|n1|None" +:+ newline)
  else answered 0 "slurm 23.02".

Definition completed_123 : JobStatus :=
  {| job_id := "123"; state := COMPLETED; name := "job"; node_list := "n1";
     exit_code := Some 0; elapsed_time := "00:01:00"; reason := "None" |}.

(** The job is running: both sources say so. *)
Definition running : Oracle := fun argv =>
  if bool_decide (argv = sacct_argv "123") then
    answered 0 ("123|job|RUNNING|n1|0:0|00:00:30|None" +:+ newline)
  else if bool_decide (argv = squeue_argv "123") then
    answered 0 ("123|job|RUNNING|n1|None" +:+ newline)
  else answered 0 "slurm 23.02".

Definition running_123 : JobStatus :=
  {| job_id := "123"; state := RUNNING; name := "job"; node_list := "n1";
     exit_code := None; elapsed_time := ""; reason := "None" |}.

(** The scheduler daemon does not answer: the commands start and fail. *)
Definition failing : Oracle := fun argv =>
  if bool_decide (argv = version_argv) then answered 0 "slurm 23.02"
  else Ran {| returncode := 1; stdout := "";
              stderr := Some "slurm_load_jobs error: Unable to contact slurm controller" |}.

(** [squeue] is installed and [sacct] is not. *)
Definition sacct_missing : Oracle := fun argv =>
  match argv with
  | "sacct" :: _ => NotFound
  | _ => answered 0 "slurm 23.02"
  end.

(** [squeue] is there but may not be executed. *)
Definition denied : Oracle := fun argv =>
  match argv with
  | "squeue" :: _ => Broke (PermissionError "squeue")
  | _ => answered 0 ""
  end.

(** A world in which the job runs for two polls and is then completed, the
    clock advancing thirty seconds between readings. *)
Definition two_polls_then_done : World :=
  {| commands := fun k => if (k <? 2)%nat then running else racing;
     clock := fun i => Qc_of_Z (30 * Z.of_nat i) |}.

(** An error stream of 2001 characters: a first line marker and 2000 more
    characters. *)
Definition long_stderr : string :=
  String "E" (string_of_list_ascii (replicate 2000 "x"%char)).

(** A script, and a container command, that fail with that error stream. *)
Definition crashing : Oracle := fun _ =>
  Ran {| returncode := 1; stdout := ""; stderr := Some long_stderr |}.

(** The pipeline of the finite-element model, and which of its stages run
    in the container. *)
Definition schism_order : list string :=
  ["download"; "pre_forcing"; "nwm_forcing"; "post_forcing"; "update_params";
   "schism_obs"; "boundary_conditions"; "pre_schism"; "schism_run";
   "post_schism"; "schism_plot"].

Definition schism_containerized (s : string) : bool :=
  negb (bool_decide (s ∈ ["download"; "schism_obs"; "schism_plot"])).

(** The stages to run when the download is disabled. *)
Definition scenario_a : list string := tail schism_order.

(** The pipeline of the rasterized model: only its run stage is
    containerized. *)
Definition sfincs_order : list string :=
  ["download"; "sfincs_symlinks"; "sfincs_data_catalog"; "sfincs_init";
   "sfincs_timing"; "sfincs_forcing"; "sfincs_obs"; "sfincs_discharge";
   "sfincs_precip"; "sfincs_wind"; "sfincs_pressure"; "sfincs_write";
   "sfincs_run"; "sfincs_plot"].

Definition sfincs_containerized (s : string) : bool :=
  bool_decide (s = "sfincs_run").

(** A file system with the mesh in its canonical place only, and one with
    a mesh already in the working directory. *)
Definition mesh_at_source : gmap string DependencyPreparer.Node :=
  {[ "/parm/coastal/atlgulf/hgrid.gr3"
     := DependencyPreparer.RegularFile "mesh" ]}.

Definition mesh_in_work_dir : gmap string DependencyPreparer.Node :=
  {[ "/work/hgrid.gr3" := DependencyPreparer.RegularFile "existing hgrid" ]}.

(** A world in which the job runs for ever. *)
Definition never_done : World :=
  {| commands := fun _ => running;
     clock := fun i => Qc_of_Z (30 * Z.of_nat i) |}.


(** [sbatch] accepts the job and prints, after a note, the line with the
    number of the job. *)
Definition submitting : Oracle := fun _ =>
  answered 0 ("sbatch: note" +:+ newline
              +:+ "Submitted batch job 4711 on cluster c1" +:+ newline).

(** The accounting lines of job 123 while it runs its first step: the batch
    step, a job whose number begins alike, and the step. *)
Definition accounting_of_a_step : list string :=
  ["123.batch|batch|RUNNING|n1|0:0|00:01|";
   "1234|other|RUNNING||0:0||";
   "123.0|step|FAILED|n1|1:0|00:02|"].

Definition step_123 : JobStatus :=
  {| job_id := "123.0"; state := FAILED; name := "step"; node_list := "n1";
     exit_code := Some 1; elapsed_time := "00:02"; reason := "" |}.

(** An environment of the host: a variable of the workflow, a protected
    one, a shell function, and a variable that is already prefixed. *)
Definition host_env : gmap string string :=
  {[ "COASTAL_DOMAIN" := "hawaii"; "PATH" := "/usr/bin";
     "BASH_FUNC_ml%%" := "() { :; }";
     "SINGULARITYENV_PATH" := "/opt/bin" ]}.

(** A companion file written by hand: padded ids and a blank line. *)
Definition padded_ids : gmap string string :=
  {[ "/work/station_noaa_ids.txt"
     := "  8518750 " +:+ newline +:+ newline +:+ "8516945" +:+ newline ]}.

(** Five stations, and the two figures that show them. *)
Definition five_stations : list string :=
  ["8518750"; "8516945"; "8510560"; "8531680"; "8534720"].

Definition two_figures : list Schism.SchismPlotStage.Figure :=
  [ Schism.SchismPlotStage.mkFigure
      [ Schism.SchismPlotStage.mkPanel 0 "8518750" 0;
        Schism.SchismPlotStage.mkPanel 1 "8516945" 1;
        Schism.SchismPlotStage.mkPanel 2 "8510560" 2;
        Schism.SchismPlotStage.mkPanel 3 "8531680" 3 ]
      [] "/work/figs/stations_comparison_001.png";
    Schism.SchismPlotStage.mkFigure
      [ Schism.SchismPlotStage.mkPanel 0 "8534720" 4 ]
      [1; 2; 3]%nat "/work/figs/stations_comparison_002.png" ].

(** The registry refuses the pull of the image. *)
Definition failing_pull : Oracle := fun _ =>
  Ran {| returncode := 255; stdout := "";
         stderr := Some "FATAL: unable to pull image" |}.

Definition sfincs_config : SfincsStageBase.SfincsConfig :=
  {| SfincsStageBase.container_sif_path := None;
     SfincsStageBase.container_docker_tag := "latest";
     SfincsStageBase.paths_model_root := "/model" |}.

(** Two coordinates as they are printed, a longitude and a latitude. *)
Definition coordinate (west : bool) : string :=
  if west then "-157.8" else "21.3".

End Scenario.

(* ===================================================================== *)
(** * Properties of the scheduler controller *)
(* ===================================================================== *)

Module SlurmFacts.
Import SlurmManager.

(** The enum lookup finds a member exactly by its value. *)
Lemma by_value_Some (s : string) (st : JobState) :
  by_value s = Some st → s = value st.
Proof.
  unfold by_value. intros H.
  apply List.find_some in H as [_ H].
  apply String.eqb_eq in H. by symmetry.
Qed.

Lemma by_value_value (st : JobState) : by_value (value st) = Some st.
Proof. by destruct st. Qed.

Lemma by_value_None (s : string) :
  (∀ st, s ≠ value st) → by_value s = None.
Proof.
  intros H. destruct (by_value s) as [st|] eqn:E; [|done].
  apply by_value_Some in E. by destruct (H st).
Qed.

Lemma cancelled_prefix_of_value (st : JobState) :
  Py.startswith (value st) "CANCELLED" = true → st = CANCELLED.
Proof. by destruct st. Qed.

(** C10, as the code has it. State parsing is total and decided by the
    stripped, upper-cased text [n] of its argument: when [n] begins with
    CANCELLED (as in "CANCELLED by 1001") the state is Cancelled; when [n] is
    the name of a state it is that state; every other text gives Unknown;
    and the name of each state parses to that state. No case raises: the
    failed enum lookup is the [None] that the function turns into Unknown. *)
Theorem parse_state_total (s : string) :
  let n := Py.upper (Py.strip s) in
  (Py.startswith n "CANCELLED" = true → _parse_state s = CANCELLED)
  ∧ (∀ st, n = value st → _parse_state s = st)
  ∧ (Py.startswith n "CANCELLED" = false → (∀ st, n ≠ value st) →
     _parse_state s = UNKNOWN)
  ∧ (∀ st, _parse_state (value st) = st).
Proof.
  cbv zeta. unfold _parse_state. repeat split.
  - by intros ->.
  - intros st ->.
    destruct (Py.startswith (value st) "CANCELLED") eqn:E.
    + by apply cancelled_prefix_of_value in E.
    + by rewrite by_value_value.
  - intros -> H. by rewrite (by_value_None _ H).
  - by intros [].
Qed.

(** A suffixed cancellation, in lower case and padded, is Cancelled. *)
Lemma parse_state_total_witness :
  _parse_state "  cancelled by 1001 " = CANCELLED
  ∧ _parse_state "running" = RUNNING
  ∧ _parse_state "OUT_OF_MEMORY" = UNKNOWN.
Proof.
  pose proof (parse_state_total "  cancelled by 1001 ") as (H1 & _).
  pose proof (parse_state_total "running") as (_ & H2 & _).
  pose proof (parse_state_total "OUT_OF_MEMORY") as (_ & _ & H3 & _).
  split; [apply H1; reflexivity|].
  split; [apply (H2 RUNNING); reflexivity|].
  apply H3; [reflexivity|]. intros st. by destruct st.
Defined.

(** C10, as stated, fails on a state name in lower case: it is not equal to
    the name of any state, nor does it begin with CANCELLED once stripped
    and upper-cased, and it is parsed to Running, not to Unknown. *)
Lemma lower_case_name_is_parsed :
  (∀ st, "running" ≠ value st)
  ∧ Py.startswith (Py.upper (Py.strip "running")) "CANCELLED" = false
  ∧ _parse_state "running" = RUNNING
  ∧ _parse_state "running" ≠ UNKNOWN.
Proof.
  split; [by intros []|]. split; [reflexivity|]. split; [reflexivity|].
  discriminate.
Qed.

(** ** One poll *)

Lemma sacct_is_not_squeue (jid : string) : sacct_argv jid ≠ squeue_argv jid.
Proof. discriminate. Qed.

(** The poll, case by case on what the two commands answer. *)
Lemma get_job_status_sacct_missing (run : Oracle) (jid : string) :
  run (sacct_argv jid) = NotFound →
  get_job_status run jid
  = (Raised (FileNotFoundError "sacct"), [EvRun (sacct_argv jid)]).
Proof.
  intros H. unfold get_job_status, subprocess_run. rewrite H. reflexivity.
Qed.

Lemma get_job_status_sacct_broke (run : Oracle) (jid : string) (e : Exn) :
  run (sacct_argv jid) = Broke e →
  get_job_status run jid = (Raised e, [EvRun (sacct_argv jid)]).
Proof.
  intros H. unfold get_job_status, subprocess_run. rewrite H. reflexivity.
Qed.

Lemma get_job_status_authoritative (run : Oracle) (jid : string)
    (r : CompletedProcess) :
  run (sacct_argv jid) = Ran r →
  authoritative (sacct_status jid r) = true →
  get_job_status run jid
  = (Returned (default (unknown_status jid) (sacct_status jid r)),
     [EvRun (sacct_argv jid)]).
Proof.
  intros H Ha. unfold get_job_status, subprocess_run. rewrite H.
  cbn [mbind M_bind]. rewrite Ha. reflexivity.
Qed.

Lemma get_job_status_squeue_missing (run : Oracle) (jid : string)
    (r : CompletedProcess) :
  run (sacct_argv jid) = Ran r →
  authoritative (sacct_status jid r) = false →
  run (squeue_argv jid) = NotFound →
  get_job_status run jid
  = (Raised (FileNotFoundError "squeue"),
     [EvRun (sacct_argv jid); EvRun (squeue_argv jid)]).
Proof.
  intros H Ha Hq. unfold get_job_status, subprocess_run. rewrite H.
  cbn [mbind M_bind]. rewrite Ha, Hq. reflexivity.
Qed.

Lemma get_job_status_squeue_broke (run : Oracle) (jid : string)
    (r : CompletedProcess) (e : Exn) :
  run (sacct_argv jid) = Ran r →
  authoritative (sacct_status jid r) = false →
  run (squeue_argv jid) = Broke e →
  get_job_status run jid
  = (Raised e, [EvRun (sacct_argv jid); EvRun (squeue_argv jid)]).
Proof.
  intros H Ha Hq. unfold get_job_status, subprocess_run. rewrite H.
  cbn [mbind M_bind]. rewrite Ha, Hq. reflexivity.
Qed.

Lemma get_job_status_live (run : Oracle) (jid : string)
    (r q : CompletedProcess) :
  run (sacct_argv jid) = Ran r →
  authoritative (sacct_status jid r) = false →
  run (squeue_argv jid) = Ran q →
  get_job_status run jid
  = (Returned (if reports q then squeue_status q
               else default (unknown_status jid) (sacct_status jid r)),
     [EvRun (sacct_argv jid); EvRun (squeue_argv jid)]).
Proof.
  intros H Ha Hq. unfold get_job_status, subprocess_run.
  rewrite H. cbn [mbind M_bind]. rewrite Ha, Hq. cbn [mbind M_bind].
  by destruct (reports q).
Qed.

Lemma authoritative_terminal (o : option JobStatus) :
  authoritative o = true ↔ ∃ st, o = Some st ∧ state st ∈ terminal_states.
Proof.
  unfold authoritative, is_terminal. destruct o as [st|].
  - rewrite bool_decide_eq_true. split.
    + intros H. by exists st.
    + by intros (st' & [= <-] & H).
  - split; [done|]. by intros (st & ? & _).
Qed.

Lemma authoritative_false (o : option JobStatus) :
  authoritative o = false ↔
  o = None ∨ ∃ st, o = Some st ∧ state st ∉ terminal_states.
Proof.
  unfold authoritative, is_terminal. destruct o as [st|].
  - rewrite bool_decide_eq_false. split.
    + intros H. right. by exists st.
    + by intros [|(st' & [= <-] & H)].
  - split; [by left|done].
Qed.

(** C3. When the accounting query of a poll yields a status whose state is
    terminal, [get_job_status] returns that status after running the
    accounting command only, whatever the oracle would answer to any other
    command; and the live-queue command is run only in polls whose
    accounting query ran and yielded no status or a non-terminal one. *)
Theorem accounting_terminal_is_authoritative (run : Oracle) (jid : string) :
  (∀ r st,
     run (sacct_argv jid) = Ran r →
     sacct_status jid r = Some st →
     state st ∈ terminal_states →
     get_job_status run jid = (Returned st, [EvRun (sacct_argv jid)]))
  ∧ (EvRun (squeue_argv jid) ∈ (get_job_status run jid).2 →
     ∃ r, run (sacct_argv jid) = Ran r
          ∧ (sacct_status jid r = None
             ∨ ∃ st, sacct_status jid r = Some st
                     ∧ state st ∉ terminal_states)).
Proof.
  split.
  - intros r st Hr Hs Ht.
    rewrite (get_job_status_authoritative run jid r Hr).
    + by rewrite Hs.
    + apply authoritative_terminal. eauto.
  - destruct (run (sacct_argv jid)) as [r| |e] eqn:Hr.
    + destruct (authoritative (sacct_status jid r)) eqn:Ha.
      * rewrite (get_job_status_authoritative run jid r Hr Ha). cbn.
        intros Hin. apply list_elem_of_singleton in Hin.
        injection Hin as Hin. by destruct (sacct_is_not_squeue jid).
      * intros _. exists r. split; [done|]. by apply authoritative_false.
    + rewrite (get_job_status_sacct_missing run jid Hr). cbn.
      intros Hin. apply list_elem_of_singleton in Hin.
      injection Hin as Hin. by destruct (sacct_is_not_squeue jid).
    + rewrite (get_job_status_sacct_broke run jid e Hr). cbn.
      intros Hin. apply list_elem_of_singleton in Hin.
      injection Hin as Hin. by destruct (sacct_is_not_squeue jid).
Qed.

(** Two oracles that answer the accounting query alike, with a terminal
    state, give the same poll, whatever they answer to the live-queue
    query. *)
Lemma terminal_poll_ignores_live_queue (run run' : Oracle) (jid : string)
    (r : CompletedProcess) :
  run (sacct_argv jid) = Ran r → run' (sacct_argv jid) = Ran r →
  authoritative (sacct_status jid r) = true →
  get_job_status run jid = get_job_status run' jid.
Proof.
  intros H H' Ha.
  by rewrite (get_job_status_authoritative run jid r H Ha),
    (get_job_status_authoritative run' jid r H' Ha).
Qed.

(** The accounting source has the job as completed while the live queue
    still lists it as running: the completed status is returned and the
    queue is not asked. *)
Lemma accounting_terminal_is_authoritative_witness :
  get_job_status Scenario.racing "123"
  = (Returned Scenario.completed_123, [EvRun (sacct_argv "123")]).
Proof.
  refine (proj1 (accounting_terminal_is_authoritative Scenario.racing "123")
            (mkCompleted 0 _ (Some "")) Scenario.completed_123 _ _ _).
  - reflexivity.
  - vm_compute. reflexivity.
  - vm_compute. set_solver.
Defined.

(** ** Availability of the scheduler commands *)

Lemma init_available (run : Oracle) (m : bool) (cp : CompletedProcess) :
  run version_argv = Ran cp → returncode cp = 0 →
  __init__ run m = (Returned {| monitor := m |}, [EvRun version_argv]).
Proof.
  intros H H0.
  unfold __init__, _check_slurm_available, subprocess_run_checked,
    subprocess_run.
  rewrite H. cbn [mbind M_bind]. rewrite H0. reflexivity.
Qed.

Lemma init_unavailable (run : Oracle) (m : bool) :
  (run version_argv = NotFound
   ∨ ∃ cp, run version_argv = Ran cp ∧ returncode cp ≠ 0) →
  __init__ run m
  = (Raised (RuntimeError unavailable_msg), [EvRun version_argv]).
Proof.
  unfold __init__, _check_slurm_available, subprocess_run_checked,
    subprocess_run.
  intros [->|(cp & -> & H)]; cbn [mbind M_bind]; [reflexivity|].
  by destruct (Z.eqb_spec (returncode cp) 0).
Qed.

(** An exception of the launch itself goes through the handler of the
    pre-flight check, which tells by its class. *)
Lemma init_broke (run : Oracle) (m : bool) (e : Exn) :
  run version_argv = Broke e →
  __init__ run m
  = (Raised (match e with
             | CalledProcessError _ | FileNotFoundError _ =>
                 RuntimeError unavailable_msg
             | _ => e
             end), [EvRun version_argv]).
Proof.
  intros H.
  unfold __init__, _check_slurm_available, subprocess_run_checked,
    subprocess_run.
  rewrite H. by destruct e.
Qed.

Lemma init_trace (run : Oracle) (m : bool) :
  (__init__ run m).2 = [EvRun version_argv].
Proof.
  destruct (run version_argv) as [cp| |e] eqn:E.
  - destruct (Z.eq_dec (returncode cp) 0) as [H|H].
    + by rewrite (init_available run m cp E H).
    + rewrite (init_unavailable run m); [done|]. right. by exists cp.
  - rewrite (init_unavailable run m); [done|]. by left.
  - by rewrite (init_broke run m e E).
Qed.

(** A poll raises nothing of its own: what it raises, the launch of one of
    its two commands raised. *)
Lemma get_job_status_raises (run : Oracle) (jid : string) (e : Exn) :
  (get_job_status run jid).1 = Raised e →
  (run (sacct_argv jid) = NotFound ∧ e = FileNotFoundError "sacct")
  ∨ run (sacct_argv jid) = Broke e
  ∨ ∃ r, run (sacct_argv jid) = Ran r
         ∧ authoritative (sacct_status jid r) = false
         ∧ ((run (squeue_argv jid) = NotFound
             ∧ e = FileNotFoundError "squeue")
            ∨ run (squeue_argv jid) = Broke e).
Proof.
  destruct (run (sacct_argv jid)) as [r| |e'] eqn:Hr.
  - destruct (authoritative (sacct_status jid r)) eqn:Ha.
    + by rewrite (get_job_status_authoritative run jid r Hr Ha).
    + destruct (run (squeue_argv jid)) as [q| |e'] eqn:Hq.
      * by rewrite (get_job_status_live run jid r q Hr Ha Hq).
      * rewrite (get_job_status_squeue_missing run jid r Hr Ha Hq).
        intros [= <-]. right. right. exists r. by eauto.
      * rewrite (get_job_status_squeue_broke run jid r e' Hr Ha Hq).
        intros [= <-]. right. right. exists r. by eauto.
  - rewrite (get_job_status_sacct_missing run jid Hr). intros [= <-]. by left.
  - rewrite (get_job_status_sacct_broke run jid e' Hr). intros [= <-].
    right. by left.
Qed.

Lemma get_job_status_returns (run : Oracle) (jid : string)
    (r q : CompletedProcess) :
  run (sacct_argv jid) = Ran r → run (squeue_argv jid) = Ran q →
  ∃ st, (get_job_status run jid).1 = Returned st.
Proof.
  intros Hr Hq. destruct (authoritative (sacct_status jid r)) eqn:Ha.
  - rewrite (get_job_status_authoritative run jid r Hr Ha). eauto.
  - rewrite (get_job_status_live run jid r q Hr Ha Hq). eauto.
Qed.

Lemma sacct_status_failed (jid : string) (r : CompletedProcess) :
  returncode r ≠ 0 → sacct_status jid r = None.
Proof.
  intros H. unfold sacct_status, reports.
  by destruct (Z.eqb_spec (returncode r) 0).
Qed.

Lemma reports_failed (q : CompletedProcess) :
  returncode q ≠ 0 → reports q = false.
Proof. intros H. unfold reports. by destruct (Z.eqb_spec (returncode q) 0). Qed.

(** C7, as the code has it. The "SLURM commands not available" error is
    raised by the pre-flight check only, which [__init__] runs exactly once:
    it is raised when [squeue --version] is not found or exits with a
    non-zero status, and any other exception of that launch, such as a
    [PermissionError], leaves [__init__] as it is. During a poll, when the
    launches of the two scheduler commands return, [get_job_status] returns
    a status whatever they exit with or print: when the live queue does not
    report the job, the status is the non-terminal accounting status of this
    poll if there is one and the Unknown status of the job otherwise, the
    latter in particular when both commands fail. A poll catches nothing and
    raises nothing of its own: what it raises is what the launch of the
    accounting command raised, or what the launch of the live-queue command
    raised after an accounting query without terminal state; a command that
    is not found gives its [FileNotFoundError]. *)
Theorem unavailability_is_hard_at_init_only (run : Oracle) (jid : string) :
  (∀ m, (__init__ run m).2 = [EvRun version_argv])
  ∧ (∀ m, (∃ cp, run version_argv = Ran cp ∧ returncode cp = 0) →
          (__init__ run m).1 = Returned {| monitor := m |})
  ∧ (∀ m, (run version_argv = NotFound
           ∨ ∃ cp, run version_argv = Ran cp ∧ returncode cp ≠ 0) →
          (__init__ run m).1 = Raised (RuntimeError unavailable_msg))
  ∧ (∀ m e, run version_argv = Broke e →
            (∀ program, e ≠ FileNotFoundError program) →
            (∀ rc, e ≠ CalledProcessError rc) →
            (__init__ run m).1 = Raised e)
  ∧ (∀ r q, run (sacct_argv jid) = Ran r → run (squeue_argv jid) = Ran q →
            ∃ st, (get_job_status run jid).1 = Returned st)
  ∧ (∀ r q, run (sacct_argv jid) = Ran r → run (squeue_argv jid) = Ran q →
            authoritative (sacct_status jid r) = false →
            reports q = false →
            (get_job_status run jid).1
            = Returned (default (unknown_status jid) (sacct_status jid r)))
  ∧ (∀ r q, run (sacct_argv jid) = Ran r → run (squeue_argv jid) = Ran q →
            returncode r ≠ 0 → returncode q ≠ 0 →
            (get_job_status run jid).1 = Returned (unknown_status jid))
  ∧ (∀ e, (get_job_status run jid).1 = Raised e →
          (run (sacct_argv jid) = NotFound ∧ e = FileNotFoundError "sacct")
          ∨ run (sacct_argv jid) = Broke e
          ∨ ∃ r, run (sacct_argv jid) = Ran r
                 ∧ authoritative (sacct_status jid r) = false
                 ∧ ((run (squeue_argv jid) = NotFound
                     ∧ e = FileNotFoundError "squeue")
                    ∨ run (squeue_argv jid) = Broke e))
  ∧ (run (sacct_argv jid) = NotFound →
     (get_job_status run jid).1 = Raised (FileNotFoundError "sacct"))
  ∧ (∀ e, run (sacct_argv jid) = Broke e →
          (get_job_status run jid).1 = Raised e)
  ∧ (∀ r, run (sacct_argv jid) = Ran r →
          authoritative (sacct_status jid r) = false →
          (run (squeue_argv jid) = NotFound →
           (get_job_status run jid).1 = Raised (FileNotFoundError "squeue"))
          ∧ (∀ e, run (squeue_argv jid) = Broke e →
                  (get_job_status run jid).1 = Raised e)).
Proof.
  split; [apply init_trace|].
  split; [intros m (cp & H & H0); by rewrite (init_available run m cp H H0)|].
  split; [intros m H; by rewrite (init_unavailable run m H)|].
  split.
  { intros m e H Hf Hc. rewrite (init_broke run m e H).
    destruct e as [p|rc|p|msg|msg|p|msg]; try done;
      [by destruct (Hf p)|by destruct (Hc rc)]. }
  split; [apply get_job_status_returns|].
  split.
  { intros r q Hr Hq Ha Hrep.
    rewrite (get_job_status_live run jid r q Hr Ha Hq). by rewrite Hrep. }
  split.
  { intros r q Hr Hq H1 H2.
    assert (Ha : authoritative (sacct_status jid r) = false)
      by (by rewrite sacct_status_failed).
    rewrite (get_job_status_live run jid r q Hr Ha Hq).
    by rewrite (reports_failed q H2), sacct_status_failed. }
  split; [apply get_job_status_raises|].
  split; [intros H; by rewrite (get_job_status_sacct_missing run jid H)|].
  split; [intros e H; by rewrite (get_job_status_sacct_broke run jid e H)|].
  intros r Hr Ha. split.
  - intros Hq. by rewrite (get_job_status_squeue_missing run jid r Hr Ha Hq).
  - intros e Hq. by rewrite (get_job_status_squeue_broke run jid r e Hr Ha Hq).
Qed.

(** The scheduler daemon does not answer but the commands are installed:
    the manager is built, and a poll gives the Unknown status. Where
    [squeue] may not be executed, the pre-flight check lets the
    [PermissionError] through. *)
Lemma unavailability_is_hard_at_init_only_witness :
  (__init__ Scenario.failing true).1 = Returned {| monitor := true |}
  ∧ (get_job_status Scenario.failing "123").1
    = Returned (unknown_status "123")
  ∧ (__init__ Scenario.denied true).1 = Raised (PermissionError "squeue").
Proof.
  pose proof (unavailability_is_hard_at_init_only Scenario.failing "123")
    as (_ & Hinit & _ & _ & _ & _ & Hpoll & _).
  pose proof (unavailability_is_hard_at_init_only Scenario.denied "123")
    as (_ & _ & _ & Hbroke & _).
  split; [|split].
  - apply Hinit. eexists. split; reflexivity.
  - eapply Hpoll; [reflexivity | reflexivity | done | done].
  - apply Hbroke; [reflexivity | done | done].
Defined.

(** C7, as stated, fails: with [squeue] installed and [sacct] not, the
    pre-flight check passes and the poll raises. *)
Lemma poll_raises_when_command_missing :
  (__init__ Scenario.sacct_missing true).1 = Returned {| monitor := true |}
  ∧ (get_job_status Scenario.sacct_missing "123").1
    = Raised (FileNotFoundError "sacct").
Proof. split; reflexivity. Qed.

(** ** Waiting for a job *)

Lemma bind_Returned {A B : Type} (m : M A) (f : A → M B) (a : A) (tr : Trace) :
  m = (Returned a, tr) → m ≫= f = ((f a).1, tr ++ (f a).2).
Proof. intros ->. cbn. by destruct (f a). Qed.

Lemma sleeps_app (t1 t2 : Trace) : sleeps (t1 ++ t2) = sleeps t1 ++ sleeps t2.
Proof. apply omap_app. Qed.

Lemma polls_app (jid : string) (t1 t2 : Trace) :
  polls jid (t1 ++ t2) = (polls jid t1 + polls jid t2)%nat.
Proof. unfold polls. by rewrite filter_app, length_app. Qed.

Lemma log_quiet (jid : string) (m : bool) (msg level : string) :
  ∃ tr, _log m msg level = (Returned (), tr) ∧ quiet jid tr.
Proof.
  unfold _log, emit. destruct m; eexists; (split; [reflexivity|]); by split.
Qed.

Lemma get_job_status_trace (run : Oracle) (jid : string) :
  sleeps (get_job_status run jid).2 = []
  ∧ polls jid (get_job_status run jid).2 = 1%nat.
Proof.
  assert (Hs : polls jid [EvRun (sacct_argv jid)] = 1%nat).
  { unfold polls. by rewrite filter_cons_True. }
  assert (Hq : polls jid [EvRun (sacct_argv jid); EvRun (squeue_argv jid)]
               = 1%nat).
  { unfold polls. rewrite filter_cons_True by done.
    rewrite filter_cons_False; [done|].
    intros [= H]. }
  destruct (run (sacct_argv jid)) as [r| |e] eqn:Hr.
  - destruct (authoritative (sacct_status jid r)) eqn:Ha.
    + by rewrite (get_job_status_authoritative run jid r Hr Ha).
    + destruct (run (squeue_argv jid)) as [q| |e] eqn:Hq'.
      * by rewrite (get_job_status_live run jid r q Hr Ha Hq').
      * by rewrite (get_job_status_squeue_missing run jid r Hr Ha Hq').
      * by rewrite (get_job_status_squeue_broke run jid r e Hr Ha Hq').
  - by rewrite (get_job_status_sacct_missing run jid Hr).
  - by rewrite (get_job_status_sacct_broke run jid e Hr).
Qed.

Lemma timeout_expired_spec (w : World) (jid : string) (timeout : option Z)
    (k : nat) :
  ∃ b tr, timeout_expired w timeout (clock w 0%nat) k = (Returned b, tr)
          ∧ (b = true ↔ expired_at w timeout k) ∧ quiet jid tr.
Proof.
  unfold timeout_expired, expired_at. destruct timeout as [t|].
  - destruct (Z.eqb_spec t 0) as [->|Ht].
    + exists false, []. split; [done|]. split; [|done].
      split; [done|]. by intros (t & [= <-] & Ht & _).
    + eexists _, [EvClock]. split; [reflexivity|]. split; [|done].
      rewrite bool_decide_eq_true. split.
      * intros H. by exists t.
      * by intros (t' & [= <-] & _ & H).
  - exists false, []. split; [done|]. split; [|done].
    split; [done|]. by intros (t & [=] & _).
Qed.

Lemma quiet_nil (jid : string) : quiet jid [].
Proof. by split. Qed.

Lemma quiet_app (jid : string) (t1 t2 : Trace) :
  quiet jid t1 → quiet jid t2 → quiet jid (t1 ++ t2).
Proof.
  intros [H1 H1'] [H2 H2']. split.
  - by rewrite sleeps_app, H1, H2.
  - by rewrite polls_app, H1', H2'.
Qed.

Lemma polls_sleep (jid : string) (z : Z) : polls jid [EvSleep z] = 0%nat.
Proof. unfold polls. by rewrite filter_cons_False. Qed.

Lemma log_if_quiet (jid : string) (b m : bool) (msg level : string) :
  ∃ tr, (if b then _log m msg level else mret ()) = (Returned (), tr)
        ∧ quiet jid tr.
Proof.
  destruct b.
  - apply log_quiet.
  - exists []. split; [done|]. apply quiet_nil.
Qed.

Section Iteration.

Variables (self : Manager) (w : World) (jid : string) (poll_interval : Z)
  (timeout : option Z).
Variables (fuel k : nat) (last : option JobState).
Variables (status : JobStatus) (tr : Trace).
Hypothesis poll : get_job_status (commands w k) jid = (Returned status, tr).

Let loop := wait_loop self w jid poll_interval timeout (clock w 0%nat).

Lemma wait_loop_terminal :
  is_terminal (state status) = true →
  ∃ tr', loop (S fuel) k last = (Returned status, tr ++ tr') ∧ quiet jid tr'.
Proof.
  intros Ht. subst loop. cbn [wait_loop].
  rewrite (bind_Returned _ _ _ _ poll). cbv beta.
  destruct (log_if_quiet jid (bool_decide (Some (state status) ≠ last))
              (monitor self)
              ("Job " +:+ jid +:+ " state: " +:+ value (state status)) "info")
    as (tl & El & Hl).
  rewrite (bind_Returned _ _ _ _ El). cbv beta. rewrite Ht.
  exists (tl ++ []). split; [done|]. by rewrite app_nil_r.
Qed.

Lemma wait_loop_expired :
  is_terminal (state status) = false →
  expired_at w timeout k →
  ∃ tr', loop (S fuel) k last = (Returned status, tr ++ tr') ∧ quiet jid tr'.
Proof.
  intros Ht Hx. subst loop. cbn [wait_loop].
  rewrite (bind_Returned _ _ _ _ poll). cbv beta.
  destruct (log_if_quiet jid (bool_decide (Some (state status) ≠ last))
              (monitor self)
              ("Job " +:+ jid +:+ " state: " +:+ value (state status)) "info")
    as (tl & El & Hl).
  rewrite (bind_Returned _ _ _ _ El). cbv beta. rewrite Ht.
  destruct (timeout_expired_spec w jid timeout k) as (b & tx & Ex & Hb & Hq).
  rewrite (bind_Returned _ _ _ _ Ex). cbv beta.
  apply Hb in Hx as ->.
  destruct (log_quiet jid (monitor self) ("Timeout waiting for job " +:+ jid)
              "warning") as (tw & Ew & Hw).
  rewrite (bind_Returned _ _ _ _ Ew). cbn [fst snd mret M_ret].
  exists (tl ++ tx ++ tw ++ []). split; [done|].
  rewrite app_nil_r. auto using quiet_app.
Qed.

Lemma wait_loop_continue :
  is_terminal (state status) = false →
  ¬ expired_at w timeout k →
  0 ≤ poll_interval →
  ∃ tr' last',
    quiet jid tr'
    ∧ loop (S fuel) k last
      = ((loop fuel (S k) last').1,
         tr ++ tr' ++ [EvSleep poll_interval] ++ (loop fuel (S k) last').2).
Proof.
  intros Ht Hx Hpi. subst loop. cbn [wait_loop].
  rewrite (bind_Returned _ _ _ _ poll). cbv beta.
  destruct (log_if_quiet jid (bool_decide (Some (state status) ≠ last))
              (monitor self)
              ("Job " +:+ jid +:+ " state: " +:+ value (state status)) "info")
    as (tl & El & Hl).
  rewrite (bind_Returned _ _ _ _ El). cbv beta. rewrite Ht.
  destruct (timeout_expired_spec w jid timeout k) as (b & tx & Ex & Hb & Hq).
  rewrite (bind_Returned _ _ _ _ Ex). cbv beta.
  destruct b; [by destruct Hx; apply Hb|].
  assert (Es : time_sleep poll_interval = (Returned (), [EvSleep poll_interval])).
  { unfold time_sleep. by destruct (Z.ltb_spec poll_interval 0); [lia|]. }
  rewrite (bind_Returned _ _ _ _ Es). cbn [fst snd].
  eexists (tl ++ tx), _. split; [by apply quiet_app|].
  by rewrite <- !app_assoc.
Qed.

Lemma wait_loop_negative_interval :
  is_terminal (state status) = false →
  ¬ expired_at w timeout k →
  poll_interval < 0 →
  (loop (S fuel) k last).1
  = Raised (ValueError "sleep length must be non-negative").
Proof.
  intros Ht Hx Hpi. subst loop. cbn [wait_loop].
  rewrite (bind_Returned _ _ _ _ poll). cbv beta.
  destruct (log_if_quiet jid (bool_decide (Some (state status) ≠ last))
              (monitor self)
              ("Job " +:+ jid +:+ " state: " +:+ value (state status)) "info")
    as (tl & El & Hl).
  rewrite (bind_Returned _ _ _ _ El). cbv beta. rewrite Ht.
  destruct (timeout_expired_spec w jid timeout k) as (b & tx & Ex & Hb & Hq).
  rewrite (bind_Returned _ _ _ _ Ex). cbv beta.
  destruct b; [by destruct Hx; apply Hb|].
  unfold time_sleep. destruct (Z.ltb_spec poll_interval 0); [|lia].
  reflexivity.
Qed.

End Iteration.

Lemma wait_loop_spec (self : Manager) (w : World) (jid : string) (pi : Z)
    (timeout : option Z) (statuses : nat → JobStatus) (n : nat) :
  ∀ (k fuel : nat) (last : option JobState),
    (∀ i, (i ≤ n)%nat →
          (get_job_status (commands w (k + i)) jid).1
          = Returned (statuses (k + i)%nat)) →
    (∀ i, (i < n)%nat →
          is_terminal (state (statuses (k + i)%nat)) = false
          ∧ ¬ expired_at w timeout (k + i)) →
    (0 ≤ pi ∨ n = 0%nat) →
    (is_terminal (state (statuses (k + n)%nat)) = true
     ∨ expired_at w timeout (k + n)) →
    (n < fuel)%nat →
    let r := wait_loop self w jid pi timeout (clock w 0%nat) fuel k last in
    r.1 = Returned (statuses (k + n)%nat)
    ∧ sleeps r.2 = replicate n pi
    ∧ polls jid r.2 = S n.
Proof.
  induction n as [|n IH]; intros k fuel last Hpoll Hrun Hpi Hend Hfuel r;
    (destruct fuel as [|fuel]; [lia|]); subst r;
    pose proof (get_job_status_trace (commands w k) jid) as [Hs Hp];
    pose proof (Hpoll 0%nat ltac:(lia)) as H0; rewrite Nat.add_0_r in H0;
    destruct (get_job_status (commands w k) jid) as [o tr] eqn:E;
    cbn [fst snd] in H0, Hs, Hp; subst o.
  - rewrite Nat.add_0_r in *.
    assert (∃ tr', wait_loop self w jid pi timeout (clock w 0%nat) (S fuel) k last
                   = (Returned (statuses k), tr ++ tr') ∧ quiet jid tr')
      as (tr' & -> & Hq1 & Hq2).
    { destruct (is_terminal (state (statuses k))) eqn:Ht.
      - by apply wait_loop_terminal.
      - destruct Hend as [|Hx]; [done|]. by apply wait_loop_expired. }
    cbn [fst snd]. rewrite sleeps_app, polls_app, Hs, Hp, Hq1, Hq2. done.
  - destruct (Hrun 0%nat ltac:(lia)) as [Ht Hx]. rewrite Nat.add_0_r in Ht, Hx.
    destruct Hpi as [Hpi|]; [|done].
    destruct (wait_loop_continue self w jid pi timeout fuel k last
                (statuses k) tr E Ht Hx Hpi) as (tr' & last' & [Hq1 Hq2] & ->).
    cbn [fst snd].
    destruct (IH (S k) fuel last') as (IH1 & IH2 & IH3).
    + intros i Hi. replace (S k + i)%nat with (k + S i)%nat by lia.
      apply Hpoll. lia.
    + intros i Hi. replace (S k + i)%nat with (k + S i)%nat by lia.
      apply Hrun. lia.
    + by left.
    + by replace (S k + n)%nat with (k + S n)%nat by lia.
    + lia.
    + replace (S k + n)%nat with (k + S n)%nat in IH1 by lia.
      split; [done|].
      rewrite !sleeps_app, !polls_app, polls_sleep, Hs, Hp, Hq1, Hq2, IH2, IH3.
      split; [done|]. lia.
Qed.

(** C6, as the code has it. Let the first [n] polls return non-terminal
    statuses with no timeout check firing, and let poll [n] return a
    terminal status, or a non-terminal one with the timeout check of that
    iteration firing. Then [wait_for_job], given more than [n] iterations,
    returns the status of poll [n] and raises nothing: it has polled [n+1]
    times and slept [n] times, each time for [poll_interval]. The timeout
    check of an iteration fires when a timeout other than [0] is set and the
    clock read after the poll is more than the timeout past the start: it
    never fires for [None] or [0]. The interval is not negative when the
    loop sleeps at all. *)
Theorem wait_returns_terminal_or_soft_timeout (self : Manager) (w : World)
    (jid : string) (poll_interval : Z) (timeout : option Z)
    (statuses : nat → JobStatus) (n fuel : nat) :
  (∀ k, (k ≤ n)%nat →
        (get_job_status (commands w k) jid).1 = Returned (statuses k)) →
  (∀ k, (k < n)%nat →
        is_terminal (state (statuses k)) = false ∧ ¬ expired_at w timeout k) →
  (0 ≤ poll_interval ∨ n = 0%nat) →
  (is_terminal (state (statuses n)) = true ∨ expired_at w timeout n) →
  (n < fuel)%nat →
  let r := wait_for_job self w jid poll_interval timeout fuel in
  r.1 = Returned (statuses n)
  ∧ sleeps r.2 = replicate n poll_interval
  ∧ polls jid r.2 = S n.
Proof.
  intros Hpoll Hrun Hpi Hend Hfuel r. subst r. unfold wait_for_job.
  destruct (log_quiet jid (monitor self)
              ("Waiting for job " +:+ jid +:+ " to complete...") "info")
    as (tl & El & Hl1 & Hl2).
  rewrite (bind_Returned _ _ _ _ El). cbv beta.
  rewrite (bind_Returned _ _ (clock w 0%nat) [EvClock] eq_refl). cbv beta.
  destruct (wait_loop_spec self w jid poll_interval timeout statuses n
              0%nat fuel None) as (H1 & H2 & H3); try done.
  cbn [fst snd]. split; [done|].
  rewrite !sleeps_app, !polls_app, Hl1, Hl2, H2, H3. by split.
Qed.

(** The job runs for two polls and is then completed: without timeout the
    completed status is returned after two sleeps; with a timeout of 45
    seconds the running status of the second poll is returned, the clock
    then standing at 60 seconds. *)
Lemma wait_returns_terminal_or_soft_timeout_witness :
  (wait_for_job {| monitor := true |} Scenario.two_polls_then_done "123"
     30 None 5).1 = Returned Scenario.completed_123
  ∧ (wait_for_job {| monitor := true |} Scenario.two_polls_then_done "123"
       30 (Some 45) 5).1 = Returned Scenario.running_123.
Proof.
  split.
  - refine (proj1 (wait_returns_terminal_or_soft_timeout
              {| monitor := true |} Scenario.two_polls_then_done "123" 30 None
              (fun k => if (k <? 2)%nat then Scenario.running_123
                        else Scenario.completed_123)
              2 5 _ _ _ _ _)).
    + intros [|[|[|k]]] Hk; [reflexivity | reflexivity | reflexivity | lia].
    + intros [|[|k]] Hk; [| | lia];
        (split; [reflexivity | intros (t & Ht & _); discriminate Ht]).
    + left. lia.
    + left. reflexivity.
    + lia.
  - refine (proj1 (wait_returns_terminal_or_soft_timeout
              {| monitor := true |} Scenario.two_polls_then_done "123" 30
              (Some 45) (fun _ => Scenario.running_123) 1 5 _ _ _ _ _)).
    + intros [|[|k]] Hk; [reflexivity | reflexivity | lia].
    + intros [|k] Hk; [|lia].
      split; [reflexivity|]. intros (t & [= <-] & _ & H).
      vm_compute in H. discriminate H.
    + left. lia.
    + right. exists 45. split; [reflexivity|]. split; [lia|].
      vm_compute. reflexivity.
    + lia.
Defined.

Lemma never_done_pending (timeout : option Z) (fuel k : nat)
    (last : option JobState) :
  (∀ i, ¬ expired_at Scenario.never_done timeout i) →
  (wait_loop {| monitor := false |} Scenario.never_done "123" 30 timeout
     (clock Scenario.never_done 0%nat) fuel k last).1 = Pending.
Proof.
  intros Hx. revert k last. induction fuel as [|fuel IH]; intros k last.
  - reflexivity.
  - destruct (wait_loop_continue {| monitor := false |} Scenario.never_done
                "123" 30 timeout fuel k last Scenario.running_123
                [EvRun (sacct_argv "123"); EvRun (squeue_argv "123")])
      as (tr' & last' & _ & ->); [reflexivity | reflexivity | apply Hx | lia |].
    apply IH.
Qed.

(** C6, as stated, fails on a timeout of [0]: with a job that keeps
    running, the clock is past the timeout at the first check, and yet
    [wait_for_job] returns within no number of iterations. It also fails on
    a negative poll interval, for which the first sleep raises. *)
Lemma zero_timeout_never_fires :
  (Qc_of_Z 0 < clock Scenario.never_done 1%nat
               - clock Scenario.never_done 0%nat)%Qc
  ∧ (¬ ∃ fuel st,
         (wait_for_job {| monitor := false |} Scenario.never_done "123"
            30 (Some 0) fuel).1 = Returned st)
  ∧ (wait_for_job {| monitor := false |} Scenario.never_done "123"
       (-1) None 1).1
    = Raised (ValueError "sleep length must be non-negative").
Proof.
  split; [by vm_compute|]. split; [|reflexivity].
  intros (fuel & st & H). unfold wait_for_job in H.
  rewrite (bind_Returned _ _ () [] eq_refl) in H. cbv beta in H.
  rewrite (bind_Returned _ _ (clock Scenario.never_done 0%nat) [EvClock]
             eq_refl) in H. cbv beta in H. cbn [fst] in H.
  rewrite never_done_pending in H; [done|].
  intros i (t & [= <-] & Ht & _). done.
Qed.

End SlurmFacts.

(* ===================================================================== *)
(** * Properties of the external processes of a stage *)
(* ===================================================================== *)

Module StageFacts.
Import WorkflowStage.

(** The tail of at most [n] characters is short and ends the text. *)
Lemma last_chars_length (n : nat) (s : string) :
  (String.length (Py.last_chars n s) ≤ n)%nat.
Proof.
  induction s as [|c s IH]; cbn [Py.last_chars]; [cbn; lia|].
  destruct (Nat.leb_spec (String.length (String c s)) n); [done|apply IH].
Qed.

Lemma last_chars_exact_length (n : nat) (s : string) :
  String.length (Py.last_chars n s) = Nat.min n (String.length s).
Proof.
  induction s as [|c s IH]; cbn [Py.last_chars]; [cbn; lia|].
  destruct (Nat.leb_spec (String.length (String c s)) n) as [H|H]; [lia|].
  rewrite IH. cbn [String.length] in *. lia.
Qed.

Lemma last_chars_suffix (n : nat) (s : string) :
  ∃ p, s = p +:+ Py.last_chars n s.
Proof.
  induction s as [|c s (p & IH)]; cbn [Py.last_chars]; [by exists ""|].
  destruct (String.length (String c s) <=? n)%nat.
  - by exists "".
  - exists (String c p).
    change (String c s = String c (p +:+ Py.last_chars n s)). by f_equal.
Qed.

Lemma last_chars_short (n : nat) (s : string) :
  (String.length s ≤ n)%nat → Py.last_chars n s = s.
Proof.
  destruct s as [|c s]; [done|]. cbn [Py.last_chars]. intros H.
  by destruct (Nat.leb_spec (String.length (String c s)) n); [|lia].
Qed.

Lemma run_shell_script_failure (monitor : bool) (run : Oracle)
    (script_path : string) (capture_output : bool) (cp : CompletedProcess) :
  run ["bash"; script_path] = Ran cp →
  returncode cp ≠ 0 →
  let err := if capture_output then stderr cp else None in
  run_shell_script monitor run script_path capture_output
  = (Raised (RuntimeError ("Script " +:+ script_path +:+ " failed: "
                           +:+ Py.fmt_opt err)),
     logged monitor ("Running script: " +:+ script_path) "info"
     ++ [EvRun ["bash"; script_path]]
     ++ logged monitor
          ("Script failed with return code " +:+ pretty (returncode cp))
          "error"
     ++ (if stderr_truthy err
         then logged monitor ("STDERR: " +:+ stderr_tail err) "error"
         else [])).
Proof.
  intros Hrun Hrc err. subst err.
  unfold run_shell_script, subprocess_run, _log, emit, raise. rewrite Hrun.
  cbn [mbind M_bind].
  assert (Hneq : negb (returncode cp =? 0) = true)
    by (by destruct (Z.eqb_spec (returncode cp) 0)).
  destruct capture_output; cbn [returncode stderr]; rewrite Hneq.
  - destruct (stderr_truthy (stderr cp)); cbn [mbind M_bind mret M_ret];
      by rewrite ?app_nil_r.
  - cbn [stderr_truthy mbind M_bind mret M_ret]. by rewrite ?app_nil_r.
Qed.

Lemma run_singularity_command_failure (monitor : bool) (run : Oracle)
    (command : list string) (sif_path : string) (bindings : list string)
    (pwd : string) (use_mpi : bool) (mpi_tasks : option Z) (n : Z)
    (oversubscribe : bool) (cp : CompletedProcess) :
  (use_mpi = true → mpi_tasks = Some n) →
  let cmd := (if use_mpi then mpi_cmd n oversubscribe else [])
             ++ sing_cmd command sif_path bindings pwd in
  run cmd = Ran cp →
  returncode cp ≠ 0 →
  let err := default "" (stderr cp) in
  run_singularity_command monitor run command sif_path bindings pwd
    use_mpi mpi_tasks oversubscribe
  = (Raised (RuntimeError ("Singularity command failed: " +:+ err)),
     logged monitor
       ("Running Singularity command: "
        +:+ String.concat " " (take 3 command) +:+ "...") "info"
     ++ [EvRun cmd]
     ++ logged monitor
          ("Singularity command failed: " +:+ Py.last_chars 2000 err) "error").
Proof.
  intros Hmpi cmd Hrun Hrc err. subst cmd err.
  assert (Hneq : negb (returncode cp =? 0) = true)
    by (by destruct (Z.eqb_spec (returncode cp) 0)).
  unfold run_singularity_command, subprocess_run, _log, emit, raise.
  destruct use_mpi.
  - rewrite (Hmpi eq_refl). cbn [mbind M_bind mret M_ret].
    rewrite Hrun. cbn [mbind M_bind returncode stderr]. rewrite Hneq.
    cbn [mbind M_bind default]. by rewrite ?app_nil_r.
  - cbn [mbind M_bind mret M_ret app] in *.
    rewrite Hrun. cbn [mbind M_bind returncode stderr]. rewrite Hneq.
    cbn [mbind M_bind default]. by rewrite ?app_nil_r.
Qed.

Lemma sfincs_run_failure (monitor : bool) (run : Oracle)
    (sif_path model_root : string) (cp : CompletedProcess) :
  let cmd := ["singularity"; "run"; "-B" +:+ model_root +:+ ":/data"; sif_path] in
  run cmd = Ran cp →
  returncode cp ≠ 0 →
  SfincsStageBase.run_singularity_command monitor run sif_path model_root
  = (Raised (RuntimeError
               (if returncode cp =? 127
                then "singularity not found. Make sure it is installed and on PATH."
                else "SFINCS run failed with return code "
                     +:+ pretty (returncode cp))),
     logged monitor ("Running: " +:+ String.concat " " cmd) "info"
     ++ [EvRun cmd;
         EvWrite (model_root +:+ "/sfincs_log.txt")
           (stdout cp +:+ default "" (stderr cp))]).
Proof.
  intros cmd Hrun Hrc. subst cmd.
  assert (Hneq : negb (returncode cp =? 0) = true)
    by (by destruct (Z.eqb_spec (returncode cp) 0)).
  unfold SfincsStageBase.run_singularity_command, subprocess_run, _log, emit,
    raise.
  cbn [mbind M_bind]. rewrite Hrun. cbn [mbind M_bind].
  destruct (returncode cp =? 127); [|rewrite Hneq];
    cbn [mbind M_bind]; by rewrite ?app_nil_r.
Qed.

(** C9, as the code has it. When the shell script of [run_shell_script] or
    the container command of [run_singularity_command] exits with a
    non-zero status, the call raises a [RuntimeError] whose message carries
    the captured standard error in full; what is truncated to the last 2000
    characters of the stream is the copy written to the log: the end of the
    stream, 2000 characters long or the whole stream when that is shorter.
    The container run of the SFINCS stages raises a [RuntimeError] that
    carries no stream: its message gives the exit status, or for the status
    127 says that singularity was not found, and both streams of the run
    have been written to [sfincs_log.txt] in the model root, the standard
    output first. *)
Theorem nonzero_exit_raises_with_full_stderr (monitor : bool) (run : Oracle)
    (cp : CompletedProcess) :
  returncode cp ≠ 0 →
  (∀ (script_path : string) (capture_output : bool),
     run ["bash"; script_path] = Ran cp →
     let err := if capture_output then stderr cp else None in
     run_shell_script monitor run script_path capture_output
     = (Raised (RuntimeError ("Script " +:+ script_path +:+ " failed: "
                              +:+ Py.fmt_opt err)),
        logged monitor ("Running script: " +:+ script_path) "info"
        ++ [EvRun ["bash"; script_path]]
        ++ logged monitor
             ("Script failed with return code " +:+ pretty (returncode cp))
             "error"
        ++ (if stderr_truthy err
            then logged monitor ("STDERR: " +:+ stderr_tail err) "error"
            else [])))
  ∧ (∀ (command : list string) (sif_path : string) (bindings : list string)
        (pwd : string) (use_mpi : bool) (mpi_tasks : option Z) (n : Z)
        (oversubscribe : bool),
       (use_mpi = true → mpi_tasks = Some n) →
       let cmd := (if use_mpi then mpi_cmd n oversubscribe else [])
                  ++ sing_cmd command sif_path bindings pwd in
       run cmd = Ran cp →
       let err := default "" (stderr cp) in
       run_singularity_command monitor run command sif_path bindings pwd
         use_mpi mpi_tasks oversubscribe
       = (Raised (RuntimeError ("Singularity command failed: " +:+ err)),
          logged monitor
            ("Running Singularity command: "
             +:+ String.concat " " (take 3 command) +:+ "...") "info"
          ++ [EvRun cmd]
          ++ logged monitor
               ("Singularity command failed: " +:+ Py.last_chars 2000 err)
               "error"))
  ∧ (∀ sif_path model_root : string,
       let cmd :=
         ["singularity"; "run"; "-B" +:+ model_root +:+ ":/data"; sif_path] in
       run cmd = Ran cp →
       SfincsStageBase.run_singularity_command monitor run sif_path model_root
       = (Raised (RuntimeError
                    (if returncode cp =? 127
                     then "singularity not found. Make sure it is installed and on PATH."
                     else "SFINCS run failed with return code "
                          +:+ pretty (returncode cp))),
          logged monitor ("Running: " +:+ String.concat " " cmd) "info"
          ++ [EvRun cmd;
              EvWrite (model_root +:+ "/sfincs_log.txt")
                (stdout cp +:+ default "" (stderr cp))]))
  ∧ (∀ s, String.length (Py.last_chars 2000 s)
          = Nat.min 2000 (String.length s)
          ∧ ∃ p, s = p +:+ Py.last_chars 2000 s).
Proof.
  intros Hrc. repeat split.
  - intros script_path capture_output Hrun.
    by apply run_shell_script_failure.
  - intros command sif_path bindings pwd use_mpi mpi_tasks n oversubscribe
      Hmpi cmd Hrun.
    by apply run_singularity_command_failure.
  - intros sif_path model_root cmd Hrun.
    by apply sfincs_run_failure.
  - apply last_chars_exact_length.
  - apply last_chars_suffix.
Qed.

(** A script fails with an error stream of 2001 characters: the error
    raised carries all of them, the log the last 2000. The run of the
    rasterized model fails alike: the error has the exit status, the log
    file the stream. *)
Lemma nonzero_exit_raises_with_full_stderr_witness :
  run_shell_script true Scenario.crashing "run.sh" true
  = (Raised (RuntimeError ("Script run.sh failed: " +:+ Scenario.long_stderr)),
     [EvLog "info" "Running script: run.sh";
      EvRun ["bash"; "run.sh"];
      EvLog "error" "Script failed with return code 1";
      EvLog "error" ("STDERR: " +:+ Py.last_chars 2000 Scenario.long_stderr)])
  ∧ SfincsStageBase.run_singularity_command true Scenario.crashing
      "img.sif" "/model"
    = (Raised (RuntimeError "SFINCS run failed with return code 1"),
       [EvLog "info" "Running: singularity run -B/model:/data img.sif";
        EvRun ["singularity"; "run"; "-B/model:/data"; "img.sif"];
        EvWrite "/model/sfincs_log.txt" Scenario.long_stderr]).
Proof.
  assert (Hrc : (1 : Z) ≠ 0) by discriminate.
  pose proof (nonzero_exit_raises_with_full_stderr true Scenario.crashing
                {| returncode := 1; stdout := "";
                   stderr := Some Scenario.long_stderr |} Hrc)
    as (Hscript & _ & Hsfincs & _).
  split.
  - exact (Hscript "run.sh" true eq_refl).
  - exact (Hsfincs "img.sif" "/model" eq_refl).
Defined.

(** C9, as stated, fails: the error that a failed script or container
    command raises carries the 2001 characters of the stream, which its
    last 2000 characters are not. *)
Lemma raised_error_is_not_truncated :
  (run_shell_script true Scenario.crashing "run.sh" true).1
  = Raised (RuntimeError ("Script run.sh failed: " +:+ Scenario.long_stderr))
  ∧ (run_singularity_command true Scenario.crashing ["run.sh"] "img.sif" []
       "/work" false None false).1
    = Raised (RuntimeError ("Singularity command failed: "
                            +:+ Scenario.long_stderr))
  ∧ String.length Scenario.long_stderr = 2001%nat
  ∧ Py.last_chars 2000 Scenario.long_stderr ≠ Scenario.long_stderr.
Proof.
  split; [by vm_compute|]. split; [by vm_compute|]. split; [by vm_compute|].
  intros H. apply (f_equal String.length) in H. vm_compute in H.
  discriminate H.
Qed.

End StageFacts.

(* ===================================================================== *)
(** * Properties of the stage planner *)
(* ===================================================================== *)

Module PlannerFacts.
Import StagePlanner.

Lemma index_lookup (s : string) (l : list string) (i : nat) :
  index s l = Some i → l !! i = Some s.
Proof.
  revert i. induction l as [|x l IH]; intros i; cbn [index]; [done|].
  destruct (String.eqb_spec x s) as [->|Hne].
  - by intros [= <-].
  - destruct (index s l) as [k|]; [|done]. intros [= <-]. by apply IH.
Qed.

Lemma index_None (s : string) (l : list string) :
  index s l = None ↔ s ∉ l.
Proof.
  induction l as [|x l IH]; cbn [index].
  - split; [intros _; apply not_elem_of_nil|done].
  - rewrite not_elem_of_cons. destruct (String.eqb_spec x s) as [->|Hne].
    + split; [done|]. by intros [? _].
    + destruct (index s l) as [k|].
      * split; [done|]. intros [_ H]. by apply IH in H.
      * split; [|done]. intros _. split; [done|]. by apply IH.
Qed.

Lemma index_is_Some (s : string) (l : list string) :
  s ∈ l → ∃ i, index s l = Some i.
Proof.
  intros H. destruct (index s l) as [i|] eqn:E; [by exists i|].
  by apply index_None in E.
Qed.

Lemma range_contiguous (l : list string) (i n : nat) :
  contiguous (take n (drop i l)) l.
Proof.
  exists (take i l), (drop n (drop i l)). by rewrite !take_drop.
Qed.

Lemma range_sublist (l : list string) (i n : nat) :
  take n (drop i l) `sublist_of` l.
Proof. etrans; [apply sublist_take|apply sublist_drop]. Qed.

Lemma head_range (l : list string) (i j : nat) (s : string) :
  (i < j)%nat → l !! i = Some s → head (take (j - i) (drop i l)) = Some s.
Proof.
  intros Hij Hs. rewrite head_lookup, lookup_take_lt by lia.
  by rewrite lookup_drop, Nat.add_0_r.
Qed.

Lemma last_range (l : list string) (i j : nat) (t : string) :
  (i ≤ j)%nat → l !! j = Some t →
  last (take (S j - i) (drop i l)) = Some t.
Proof.
  intros Hij Ht. apply lookup_lt_Some in Ht as Hlen.
  rewrite last_lookup, length_take, length_drop.
  rewrite Nat.min_l by lia.
  replace (pred (S j - i)) with (j - i)%nat by lia.
  rewrite lookup_take_lt by lia. rewrite lookup_drop.
  by replace (i + (j - i))%nat with j by lia.
Qed.

Lemma head_filter (P : string → Prop) `{!∀ x, Decision (P x)}
    (l : list string) (s : string) :
  head l = Some s → P s → head (filter P l) = Some s.
Proof.
  destruct l as [|x l]; [done|]. intros [= ->] Hs.
  by rewrite filter_cons_True.
Qed.

Lemma last_filter (P : string → Prop) `{!∀ x, Decision (P x)}
    (l : list string) (t : string) :
  last l = Some t → P t → last (filter P l) = Some t.
Proof.
  intros (l' & ->)%last_Some Ht.
  rewrite filter_app, (filter_cons_True _ _ _ Ht), filter_nil.
  apply last_snoc.
Qed.

Lemma filter_absent (x : string) (l : list string) :
  x ∉ l → filter (fun s => s ≠ x) l = l.
Proof.
  induction l as [|y l IH]; [done|].
  rewrite not_elem_of_cons. intros [Hne Hl].
  rewrite filter_cons_True by done. by rewrite IH.
Qed.

(** The bounded range, when both bounds are names of the order. *)
Lemma bounded_returns (stage_order : list string)
    (start_from stop_after : option string) :
  (∀ s, start_from = Some s → s ∈ stage_order) →
  (∀ t, stop_after = Some t → t ∈ stage_order) →
  ∃ i j,
    bounded stage_order start_from stop_after
    = Returned (take (j - i) (drop i stage_order))
    ∧ match start_from with
      | Some s => index s stage_order = Some i
      | None => i = 0%nat
      end
    ∧ match stop_after with
      | Some t => ∃ k, index t stage_order = Some k ∧ j = S k
      | None => j = length stage_order
      end.
Proof.
  intros Hs Ht. unfold bounded.
  destruct start_from as [s|], stop_after as [t|].
  - destruct (index_is_Some s stage_order (Hs s eq_refl)) as [i Ei].
    destruct (index_is_Some t stage_order (Ht t eq_refl)) as [k Ek].
    rewrite Ei, Ek. exists i, (S k). eauto.
  - destruct (index_is_Some s stage_order (Hs s eq_refl)) as [i Ei].
    rewrite Ei. by exists i, (length stage_order).
  - destruct (index_is_Some t stage_order (Ht t eq_refl)) as [k Ek].
    rewrite Ek. exists 0%nat, (S k). eauto.
  - by exists 0%nat, (length stage_order).
Qed.

Lemma bounded_unknown_start (stage_order : list string) (s : string)
    (stop_after : option string) :
  s ∉ stage_order →
  bounded stage_order (Some s) stop_after = Raised (unknown_stage s).
Proof.
  intros H. apply index_None in H. unfold bounded. rewrite H.
  by repeat case_match.
Qed.

Lemma bounded_unknown_stop (stage_order : list string)
    (start_from : option string) (t : string) :
  (∀ s, start_from = Some s → s ∈ stage_order) →
  t ∉ stage_order →
  bounded stage_order start_from (Some t) = Raised (unknown_stage t).
Proof.
  intros Hs H. apply index_None in H. unfold bounded. rewrite H.
  destruct start_from as [s|]; [|done].
  by destruct (index_is_Some s stage_order (Hs s eq_refl)) as [i ->].
Qed.

(** Dropping the download stage from a range of an order that it heads
    leaves a run of the order. *)
Lemma filter_range_contiguous (rest : list string) (i n : nat) :
  download ∉ rest →
  contiguous (filter (fun s => s ≠ download)
                (take n (drop i (download :: rest))))
    (download :: rest).
Proof.
  intros Hrest.
  assert (Hin : ∀ k m, download ∉ take m (drop k rest)).
  { intros k m Hd. apply Hrest.
    eapply elem_of_sublist; [exact Hd|apply range_sublist]. }
  destruct i as [|i]; [destruct n as [|n]|].
  - exists [], (download :: rest). done.
  - cbn [drop take]. rewrite filter_cons_False by (intros H; by apply H).
    rewrite <- (drop_0 rest) at 1. rewrite filter_absent by apply Hin.
    exists [download], (drop n rest). cbn [app].
    by rewrite drop_0, take_drop.
  - cbn [drop]. rewrite filter_absent by apply Hin.
    destruct (range_contiguous rest i n) as (k1 & k2 & E).
    exists (download :: k1), k2. cbn [app]. by rewrite <- E.
Qed.

(** C4, as the specified planner has it. A bound that is given and is not a
    name of the order makes the plan fail with the "Unknown stage" error
    that names it, [start_from] being looked at first. Otherwise the plan
    returns stages of the order in the order of the input. The result is a
    run of consecutive stages of the order whenever the download stage is
    kept, or is not in the order, or is the first stage of an order
    without repeated names; and when [start_from] does not come after
    [stop_after], the result begins at [start_from] and ends at
    [stop_after]. *)
Theorem plan_is_bounded_range (stage_order : list string)
    (start_from stop_after : option string) (enabled : bool) :
  (∀ s, start_from = Some s → s ∉ stage_order →
        plan stage_order start_from stop_after enabled
        = Raised (ValueError ("Unknown stage: " +:+ s)))
  ∧ (∀ t, stop_after = Some t → t ∉ stage_order →
          (∀ s, start_from = Some s → s ∈ stage_order) →
          plan stage_order start_from stop_after enabled
          = Raised (ValueError ("Unknown stage: " +:+ t)))
  ∧ ((∀ s, start_from = Some s → s ∈ stage_order) →
     (∀ t, stop_after = Some t → t ∈ stage_order) →
     ∃ r, plan stage_order start_from stop_after enabled = Returned r
          ∧ r `sublist_of` stage_order
          ∧ (keeps_download start_from stop_after enabled = true
             ∨ download ∉ stage_order
             ∨ (NoDup stage_order ∧ head stage_order = Some download) →
             contiguous r stage_order)
          ∧ (bounds_in_order stage_order start_from stop_after →
             (∀ s, start_from = Some s → head r = Some s)
             ∧ (∀ t, stop_after = Some t → last r = Some t))).
Proof.
  split; [|split].
  - intros s -> Hs. unfold plan. by rewrite bounded_unknown_start.
  - intros t -> Ht Hs. unfold plan. by rewrite bounded_unknown_stop.
  - intros Hs Ht.
    destruct (bounded_returns stage_order start_from stop_after Hs Ht)
      as (i & j & Eb & Hi & Hj).
    unfold plan. rewrite Eb.
    set (sel := take (j - i) (drop i stage_order)).
    assert (Hhead : bounds_in_order stage_order start_from stop_after →
                    ∀ s, start_from = Some s → head sel = Some s).
    { intros Hord s ->. apply index_lookup in Hi as Hl.
      apply lookup_lt_Some in Hl as Hlen. apply head_range; [|done].
      destruct stop_after as [t|]; [|lia].
      destruct Hj as (k & Ek & ->).
      pose proof (Hord s t i k eq_refl eq_refl Hi Ek). lia. }
    assert (Hlast : bounds_in_order stage_order start_from stop_after →
                    ∀ t, stop_after = Some t → last sel = Some t).
    { intros Hord t ->. destruct Hj as (k & Ek & ->).
      apply index_lookup in Ek as Hl. apply last_range; [|done].
      destruct start_from as [s|]; [|lia].
      exact (Hord s t i k eq_refl eq_refl Hi Ek). }
    destruct (keeps_download start_from stop_after enabled) eqn:Ek.
    + exists sel. split; [done|]. split; [apply range_sublist|].
      split; [intros _; apply range_contiguous|]. intros Hord. by split; auto.
    + apply orb_false_iff in Ek as [Ek Hstop].
      apply orb_false_iff in Ek as [_ Hstart].
      apply bool_decide_eq_false in Hstart, Hstop.
      exists (filter (fun s => s ≠ download) sel).
      split; [done|].
      split; [etrans; [apply sublist_filter|apply range_sublist]|].
      split.
      * intros [?|[Habs|[Hnd Hhd]]]; [done| |].
        -- rewrite filter_absent; [apply range_contiguous|].
           intros Hd. apply Habs.
           eapply elem_of_sublist; [exact Hd|apply range_sublist].
        -- destruct stage_order as [|x rest]; [done|].
           injection Hhd as ->. apply NoDup_cons in Hnd as [Hrest _].
           by apply filter_range_contiguous.
      * intros Hord. split.
        -- intros s ->. apply head_filter; [by apply Hhead|].
           by intros ->.
        -- intros t ->. apply last_filter; [by apply Hlast|].
           by intros ->.
Qed.

(** C5. With the download disabled and [download] not given as a bound,
    the planned stages do not contain it, whatever the bounds; the other
    stages of the bounded range are all kept. With the download enabled, or
    with [download] given as a bound, the plan is the bounded range itself:
    [download] is in it exactly when it lies within the bounds. *)
Theorem download_follows_the_feature (stage_order : list string)
    (start_from stop_after : option string) :
  (∀ r, start_from ≠ Some download → stop_after ≠ Some download →
        plan stage_order start_from stop_after false = Returned r →
        (download ∉ r)
        ∧ ∃ sel, bounded stage_order start_from stop_after = Returned sel
                 ∧ ∀ s, s ≠ download → s ∈ r ↔ s ∈ sel)
  ∧ plan stage_order start_from stop_after true
    = bounded stage_order start_from stop_after
  ∧ (start_from = Some download ∨ stop_after = Some download →
     plan stage_order start_from stop_after false
     = bounded stage_order start_from stop_after).
Proof.
  unfold plan, keeps_download. split; [|split].
  - intros r Hstart Hstop.
    rewrite (bool_decide_eq_false_2 _ Hstart), (bool_decide_eq_false_2 _ Hstop).
    cbn [orb].
    destruct (bounded stage_order start_from stop_after) as [sel| |];
      [|done|done].
    intros [= <-]. split.
    + intros [H _]%list_elem_of_filter. by apply H.
    + exists sel. split; [done|]. intros s Hs.
      rewrite list_elem_of_filter. by split; [intros [_ ?]|].
  - cbn [orb]. by destruct (bounded stage_order start_from stop_after).
  - intros [->| ->].
    + rewrite bool_decide_eq_true_2 by done. cbn [orb].
      by destruct (bounded stage_order (Some download) stop_after).
    + rewrite (bool_decide_eq_true_2 (Some download = Some download)) by done.
      rewrite orb_true_r.
      by destruct (bounded stage_order start_from (Some download)).
Qed.

(** The cases that the tests of the runner check on the pipeline of the
    finite-element model, the download being disabled unless said. *)
Example plan_all :
  plan Scenario.schism_order None None false = Returned Scenario.scenario_a
  ∧ plan Scenario.schism_order None None true = Returned Scenario.schism_order.
Proof. split; reflexivity. Qed.

Example plan_start_from :
  plan Scenario.schism_order (Some "boundary_conditions") None false
  = Returned ["boundary_conditions"; "pre_schism"; "schism_run";
              "post_schism"; "schism_plot"].
Proof. reflexivity. Qed.

Example plan_stop_after :
  plan Scenario.schism_order None (Some "nwm_forcing") false
  = Returned ["pre_forcing"; "nwm_forcing"].
Proof. reflexivity. Qed.

Example plan_invalid_stage :
  plan Scenario.schism_order (Some "nonexistent") None false
  = Raised (ValueError "Unknown stage: nonexistent")
  ∧ plan Scenario.schism_order None (Some "nonexistent") false
    = Raised (ValueError "Unknown stage: nonexistent").
Proof. split; reflexivity. Qed.

Example plan_single_stage :
  plan Scenario.schism_order (Some "schism_plot") (Some "schism_plot") false
  = Returned ["schism_plot"].
Proof. reflexivity. Qed.

(** The pipeline of the finite-element model from [boundary_conditions] to
    [schism_run]. *)
Lemma plan_is_bounded_range_witness :
  ∃ r, plan Scenario.schism_order (Some "boundary_conditions")
         (Some "schism_run") false = Returned r
       ∧ contiguous r Scenario.schism_order
       ∧ head r = Some "boundary_conditions"
       ∧ last r = Some "schism_run".
Proof.
  destruct (plan_is_bounded_range Scenario.schism_order
              (Some "boundary_conditions") (Some "schism_run") false)
    as (_ & _ & H).
  destruct H as (r & Hr & _ & Hc & Hb).
  - intros s [= <-]. apply (bool_decide_unpack _). vm_compute. exact I.
  - intros t [= <-]. apply (bool_decide_unpack _). vm_compute. exact I.
  - exists r. split; [exact Hr|]. split.
    + apply Hc. right. right. split; [|reflexivity].
      apply (bool_decide_unpack _). vm_compute. exact I.
    + assert (Hord : bounds_in_order Scenario.schism_order
                       (Some "boundary_conditions") (Some "schism_run")).
      { intros s t i j [= <-] [= <-] Hi Hj. vm_compute in Hi, Hj.
        injection Hi as <-. injection Hj as <-. lia. }
      destruct (Hb Hord) as [Hh Hl]. split; [by apply Hh|by apply Hl].
Defined.

(** C4, as stated, fails in two ways. In an order that has the disabled
    download stage between two others, the plan drops it and what is left
    is not a run of consecutive stages of the order. And when [stop_after]
    comes before [start_from], here in the pipeline of the finite-element
    model, the plan is empty; no run of consecutive stages of that pipeline
    begins at the one and ends at the other. *)
Lemma plan_is_not_always_a_bounded_run :
  plan ["forcing"; "download"; "run"] None None false
  = Returned ["forcing"; "run"]
  ∧ ¬ contiguous ["forcing"; "run"] ["forcing"; "download"; "run"]
  ∧ plan Scenario.schism_order (Some "schism_run") (Some "pre_forcing") false
    = Returned []
  ∧ ¬ (∃ r, contiguous r Scenario.schism_order
            ∧ head r = Some "schism_run" ∧ last r = Some "pre_forcing").
Proof.
  split; [reflexivity|]. split; [|split; [reflexivity|]].
  - intros (k1 & k2 & E).
    repeat (destruct k1 as [|? k1]; simplify_eq/=).
  - intros (r & (k1 & k2 & E) & Hh & Hl).
    destruct r as [|x r]; [done|]. injection Hh as ->.
    unfold Scenario.schism_order in E.
    repeat (destruct k1 as [|? k1]; simplify_eq/=).
    repeat (destruct r as [|? r]; simplify_eq/=).
Qed.

(** The whole pipeline of the finite-element model with the download
    disabled: the download stage is left out. *)
Lemma download_follows_the_feature_witness :
  plan Scenario.schism_order None None false = Returned Scenario.scenario_a
  ∧ download ∉ Scenario.scenario_a.
Proof.
  split; [reflexivity|].
  refine (proj1 (proj1 (download_follows_the_feature Scenario.schism_order
                          None None) Scenario.scenario_a _ _ _)).
  - discriminate.
  - discriminate.
  - reflexivity.
Defined.

End PlannerFacts.

(* ===================================================================== *)
(** * Properties of the partition into execution groups *)
(* ===================================================================== *)

Module PartitionFacts.
Import SubmissionPartitioner.

Section Facts.

Variable is_containerized : string → bool.

Local Abbreviation scan := (scan is_containerized).
Local Abbreviation partition := (partition is_containerized).
Local Abbreviation C := (fun s : string => Is_true (is_containerized s)).
Local Abbreviation NC := (fun s : string => ¬ Is_true (is_containerized s)).

Lemma scan_containerized (g : Groups) (s : string) :
  is_containerized s →
  scan g s = {| pre_job := pre_job g ++ post_job g;
                job := job g ++ [s];
                post_job := [] |}.
Proof. unfold SubmissionPartitioner.scan. by destruct (is_containerized s). Qed.

Lemma scan_before (g : Groups) (s : string) :
  ¬ is_containerized s → job g = [] →
  scan g s = {| pre_job := pre_job g ++ [s]; job := []; post_job := post_job g |}.
Proof.
  unfold SubmissionPartitioner.scan. intros H ->.
  by destruct (is_containerized s).
Qed.

Lemma scan_after (g : Groups) (s : string) :
  ¬ is_containerized s → job g ≠ [] →
  scan g s = {| pre_job := pre_job g; job := job g;
                post_job := post_job g ++ [s] |}.
Proof.
  unfold SubmissionPartitioner.scan. intros H Hj.
  destruct (is_containerized s); [done|]. by destruct (job g).
Qed.

(** What the scan of [l] from [g] has gathered. *)
Lemma foldl_scan (l : list string) : ∀ g : Groups,
  ordered g →
  let r := foldl scan g l in
  job r = job g ++ filter C l
  ∧ pre_job r ++ post_job r = pre_job g ++ post_job g ++ filter NC l
  ∧ ordered r.
Proof.
  induction l as [|s l IH]; intros g Hg; cbn [foldl].
  - by rewrite !app_nil_r.
  - destruct (is_containerized s) eqn:Hs.
    + assert (Hs' : is_containerized s) by by apply Is_true_true_2.
      rewrite (scan_containerized g s Hs').
      destruct (IH {| pre_job := pre_job g ++ post_job g; job := job g ++ [s];
                      post_job := [] |}) as (H1 & H2 & H3).
      { intros H. by destruct (app_cons_not_nil _ _ _ (eq_sym H)). }
      cbn [pre_job job post_job] in *.
      rewrite filter_cons_True by done.
      rewrite filter_cons_False by (intros H; by apply H).
      rewrite H1, H2, app_nil_l.
      split; [by rewrite <- app_assoc|]. split; [by rewrite <- app_assoc|done].
    + assert (Hs' : ¬ is_containerized s) by by apply Is_true_false_2.
      rewrite filter_cons_False by done. rewrite filter_cons_True by done.
      destruct (decide (job g = [])) as [Hj|Hj].
      * rewrite (scan_before g s Hs' Hj). rewrite (Hg Hj).
        destruct (IH {| pre_job := pre_job g ++ [s]; job := [];
                        post_job := [] |}) as (H1 & H2 & H3); [done|].
        cbn [pre_job job post_job] in *.
        rewrite H1, H2, Hj. split; [done|]. split; [|done].
        by rewrite <- !app_assoc.
      * rewrite (scan_after g s Hs' Hj).
        destruct (IH {| pre_job := pre_job g; job := job g;
                        post_job := post_job g ++ [s] |}) as (H1 & H2 & H3).
        { intros H. by destruct Hj. }
        cbn [pre_job job post_job] in *.
        rewrite H1, H2. split; [done|]. split; [|done].
        by rewrite <- !app_assoc.
Qed.

Lemma partition_job (stages : list string) :
  job (partition stages) = filter C stages.
Proof.
  unfold SubmissionPartitioner.partition.
  by destruct (foldl_scan stages {| pre_job := []; job := []; post_job := [] |})
    as (-> & _ & _).
Qed.

Lemma partition_host (stages : list string) :
  pre_job (partition stages) ++ post_job (partition stages)
  = filter NC stages.
Proof.
  unfold SubmissionPartitioner.partition.
  by destruct (foldl_scan stages {| pre_job := []; job := []; post_job := [] |})
    as (_ & -> & _).
Qed.

(** [pre_job] only grows during the scan. *)
Lemma pre_job_grows (l : list string) : ∀ g : Groups,
  pre_job g `prefix_of` pre_job (foldl scan g l).
Proof.
  induction l as [|s l IH]; intros g; cbn [foldl]; [done|].
  etrans; [|apply IH].
  unfold SubmissionPartitioner.scan.
  destruct (is_containerized s); [by apply prefix_app_r|].
  destruct (job g); [by apply prefix_app_r|done].
Qed.

Lemma filter_all (P : string → Prop) `{!∀ x, Decision (P x)} (l : list string) :
  Forall P l → filter P l = l.
Proof.
  induction 1 as [|x l Hx _ IH]; [done|].
  by rewrite filter_cons_True, IH.
Qed.

Lemma filter_none (P : string → Prop) `{!∀ x, Decision (P x)} (l : list string) :
  Forall (fun x => ¬ P x) l → filter P l = [].
Proof.
  induction 1 as [|x l Hx _ IH]; [done|].
  by rewrite filter_cons_False.
Qed.

(** Before any containerized stage, the stages go to [pre_job]. *)
Lemma scan_host_only (l : list string) : ∀ g : Groups,
  job g = [] → post_job g = [] → Forall NC l →
  foldl scan g l = {| pre_job := pre_job g ++ l; job := []; post_job := [] |}.
Proof.
  induction l as [|s l IH]; intros g Hj Hp Hl; cbn [foldl].
  - rewrite app_nil_r. destruct g. cbn in *. by subst.
  - apply Forall_cons in Hl as [Hs Hl].
    rewrite (scan_before g s Hs Hj), IH; [|done|by cbn|done].
    cbn [pre_job]. by rewrite <- app_assoc.
Qed.

(** After the last containerized stage, the stages go to [post_job]. *)
Lemma scan_after_last (l : list string) : ∀ g : Groups,
  job g ≠ [] → Forall NC l →
  foldl scan g l = {| pre_job := pre_job g; job := job g;
                      post_job := post_job g ++ l |}.
Proof.
  induction l as [|s l IH]; intros g Hj Hl; cbn [foldl].
  - rewrite app_nil_r. by destruct g.
  - apply Forall_cons in Hl as [Hs Hl].
    rewrite (scan_after g s Hs Hj), IH; [|done|done].
    cbn [pre_job job post_job]. by rewrite <- app_assoc.
Qed.

(** The state of the scan right after a containerized stage. *)
Lemma scan_upto_containerized (l : list string) (c : string) :
  is_containerized c →
  foldl scan {| pre_job := []; job := []; post_job := [] |} (l ++ [c])
  = {| pre_job := filter NC l; job := filter C l ++ [c]; post_job := [] |}.
Proof.
  intros Hc. rewrite foldl_app. cbn [foldl].
  destruct (foldl_scan l {| pre_job := []; job := []; post_job := [] |})
    as (H1 & H2 & _); [done|].
  cbn [pre_job job post_job app] in H1, H2.
  by rewrite (scan_containerized _ c Hc), H1, H2.
Qed.

(** The partition, told from the last containerized stage. *)
Lemma partition_split (l t : list string) (c : string) :
  is_containerized c → Forall NC t →
  partition (l ++ c :: t)
  = {| pre_job := filter NC l; job := filter C l ++ [c]; post_job := t |}.
Proof.
  intros Hc Ht. unfold SubmissionPartitioner.partition.
  rewrite (cons_middle c l t), app_assoc, foldl_app.
  rewrite (scan_upto_containerized l c Hc).
  rewrite scan_after_last; [done| |done].
  cbn [job]. intros H. by destruct (app_cons_not_nil _ _ _ (eq_sym H)).
Qed.

Lemma partition_host_only (stages : list string) :
  Forall NC stages →
  partition stages = {| pre_job := stages; job := []; post_job := [] |}.
Proof. intros H. by apply (scan_host_only stages). Qed.

(** A non-containerized stage that a containerized stage follows is in
    [pre_job]. *)
Lemma promoted (l t : list string) (c x : string) :
  is_containerized c → x ∈ l → ¬ is_containerized x →
  x ∈ pre_job (partition (l ++ c :: t)).
Proof.
  intros Hc Hx Hnx. unfold SubmissionPartitioner.partition.
  rewrite (cons_middle c l t), app_assoc, foldl_app.
  rewrite (scan_upto_containerized l c Hc).
  eapply elem_of_prefix; [|apply pre_job_grows].
  cbn [pre_job]. by apply list_elem_of_filter.
Qed.

(** C1, as the specified scan has it. The three groups together hold
    exactly the stages of the input, each as often as the input has it, and
    each group keeps the order of the input, as do the non-containerized
    stages of [pre_job] and [post_job] together; when no name occurs twice
    in the input, no stage is in two groups or twice in one; every stage of
    the job group is containerized, so a non-empty job group has a
    containerized stage. The concatenation of the three groups is the input
    itself exactly when the input has no stage to promote: when it is a run
    of non-containerized stages, then a run of containerized stages, then a
    run of non-containerized stages. *)
Theorem partition_keeps_every_stage (stages : list string) :
  let g := partition stages in
  pre_job g ++ job g ++ post_job g ≡ₚ stages
  ∧ pre_job g `sublist_of` stages
  ∧ job g `sublist_of` stages
  ∧ post_job g `sublist_of` stages
  ∧ (pre_job g ++ post_job g) `sublist_of` stages
  ∧ (NoDup stages →
     (∀ s, s ∈ pre_job g → (s ∉ job g) ∧ (s ∉ post_job g))
     ∧ (∀ s, s ∈ job g → s ∉ post_job g)
     ∧ NoDup (pre_job g) ∧ NoDup (job g) ∧ NoDup (post_job g))
  ∧ (∀ s, s ∈ job g → is_containerized s)
  ∧ (job g ≠ [] → ∃ s, s ∈ job g ∧ is_containerized s)
  ∧ (pre_job g ++ job g ++ post_job g = stages ↔
     ∃ a b c, stages = a ++ b ++ c
              ∧ Forall NC a ∧ Forall C b ∧ Forall NC c).
Proof.
  intros g.
  pose proof (partition_job stages) as Hjob.
  pose proof (partition_host stages) as Hhost.
  fold g in Hjob, Hhost.
  assert (Hperm : pre_job g ++ job g ++ post_job g ≡ₚ stages).
  { rewrite (Permutation_app_comm (job g)), app_assoc, Hhost, Hjob.
    rewrite Permutation_app_comm. apply filter_app_complement. }
  assert (Hsub : (pre_job g ++ post_job g) `sublist_of` stages).
  { rewrite Hhost. apply sublist_filter. }
  assert (Hall : ∀ s, s ∈ job g → is_containerized s).
  { intros s. rewrite Hjob. by intros [? _]%list_elem_of_filter. }
  split; [done|].
  split; [by etrans; [apply sublist_inserts_r|apply Hsub]|].
  split; [rewrite Hjob; apply sublist_filter|].
  split; [by etrans; [apply sublist_inserts_l|apply Hsub]|].
  split; [done|].
  split.
  { intros Hnd. rewrite <- Hperm in Hnd.
    apply NoDup_app in Hnd as (Hpre & Hdis & Hnd).
    apply NoDup_app in Hnd as (Hj & Hdis' & Hpost).
    split; [|done].
    intros s Hs.
    split; intros Hin; apply (Hdis s Hs); apply elem_of_app; [by left|by right]. }
  split; [done|].
  split.
  { intros Hne. destruct (job g) as [|s js] eqn:E; [done|].
    exists s. split; [left|]. apply Hall. left. }
  split.
  - intros Heq. exists (pre_job g), (job g), (post_job g).
    split; [done|].
    assert (Hnc : Forall NC (pre_job g ++ post_job g)).
    { rewrite Hhost. apply Forall_forall.
      by intros s [? _]%list_elem_of_filter. }
    apply Forall_app in Hnc as [Hpre Hpost].
    split; [done|]. split; [|done]. by apply Forall_forall.
  - intros (a & b & c & -> & Ha & Hb & Hc). subst g.
    assert (Ha' : filter C a = []).
    { apply filter_none. eapply Forall_impl; [apply Ha|]. done. }
    destruct b as [|c0 b _] using rev_ind.
    + rewrite app_nil_l, partition_host_only by (by apply Forall_app).
      cbn [pre_job job post_job]. by rewrite app_nil_r.
    + apply Forall_app in Hb as [Hb Hc0]. apply Forall_cons in Hc0 as [Hc0 _].
      replace (a ++ (b ++ [c0]) ++ c) with ((a ++ b) ++ c0 :: c)
        by (by rewrite <- !app_assoc).
      rewrite partition_split; [|exact Hc0|exact Hc]. cbn [pre_job job post_job].
      rewrite !filter_app, Ha'.
      rewrite (filter_all NC a) by done.
      rewrite (filter_all C b) by done.
      rewrite (filter_none NC b).
      * by rewrite app_nil_r, app_nil_l, <- !app_assoc.
      * eapply Forall_impl; [apply Hb|]. intros s Hs Hn. by apply Hn.
Qed.

(** C2. A non-containerized stage that lies between two containerized
    stages is in [pre_job] and not in [job]; and when no stage of the input
    is containerized, [pre_job] is the input and the other two groups are
    empty. *)
Theorem sandwiched_stage_is_promoted (stages : list string) :
  (∀ (l1 l2 : list string) (c1 x c2 : string),
     stages = l1 ++ [c1; x; c2] ++ l2 →
     is_containerized c1 → ¬ is_containerized x → is_containerized c2 →
     x ∈ pre_job (partition stages) ∧ x ∉ job (partition stages))
  ∧ (Forall NC stages →
     partition stages = {| pre_job := stages; job := []; post_job := [] |}).
Proof.
  split; [|apply partition_host_only].
  intros l1 l2 c1 x c2 -> H1 Hx H2. split.
  - change (l1 ++ [c1; x; c2] ++ l2) with (l1 ++ [c1; x] ++ c2 :: l2).
    rewrite app_assoc. apply promoted; [done| |done].
    apply elem_of_app. right. right. left.
  - rewrite partition_job. by intros [? _]%list_elem_of_filter.
Qed.

End Facts.

(** The pipeline of the finite-element model without its download stage:
    every stage is kept, each group in the order of the pipeline. *)
Lemma partition_keeps_every_stage_witness :
  let g := SubmissionPartitioner.partition Scenario.schism_containerized
             Scenario.scenario_a in
  pre_job g ++ job g ++ post_job g ≡ₚ Scenario.scenario_a
  ∧ (∀ s, s ∈ pre_job g → (s ∉ job g) ∧ (s ∉ post_job g)).
Proof.
  pose proof (partition_keeps_every_stage Scenario.schism_containerized
                Scenario.scenario_a) as (H1 & _ & _ & _ & _ & H2 & _).
  split; [exact H1|]. apply H2.
  apply (bool_decide_unpack (NoDup Scenario.scenario_a)).
  vm_compute. exact I.
Defined.

(** C1, as stated, fails on the pipeline of the finite-element model:
    [schism_obs] is promoted before the stages that precede it in the
    pipeline, so the three groups put end to end are not in the order of
    the input. *)
Lemma promotion_reorders :
  SubmissionPartitioner.partition Scenario.schism_containerized
    Scenario.scenario_a
  = {| pre_job := ["schism_obs"];
       job := ["pre_forcing"; "nwm_forcing"; "post_forcing"; "update_params";
               "boundary_conditions"; "pre_schism"; "schism_run";
               "post_schism"];
       post_job := ["schism_plot"] |}
  ∧ (let g := SubmissionPartitioner.partition Scenario.schism_containerized
                Scenario.scenario_a in
     pre_job g ++ job g ++ post_job g ≠ Scenario.scenario_a).
Proof. split; [reflexivity|]. vm_compute. discriminate. Qed.

(** The cases that the tests of the runner check. The whole pipeline of the
    finite-element model with the download enabled: the download and the
    promoted [schism_obs] run before the job. *)
Example partition_full_pipeline :
  SubmissionPartitioner.partition Scenario.schism_containerized
    Scenario.schism_order
  = {| pre_job := ["download"; "schism_obs"];
       job := ["pre_forcing"; "nwm_forcing"; "post_forcing"; "update_params";
               "boundary_conditions"; "pre_schism"; "schism_run";
               "post_schism"];
       post_job := ["schism_plot"] |}.
Proof. reflexivity. Qed.

(** Stopping after [post_forcing]: nothing runs after the job. *)
Example partition_stop_after_forcing :
  SubmissionPartitioner.partition Scenario.schism_containerized
    ["pre_forcing"; "nwm_forcing"; "post_forcing"]
  = {| pre_job := []; job := ["pre_forcing"; "nwm_forcing"; "post_forcing"];
       post_job := [] |}.
Proof. reflexivity. Qed.

(** Only the plot is left to run: it runs before any job. *)
Example partition_no_container_stage :
  SubmissionPartitioner.partition Scenario.schism_containerized ["schism_plot"]
  = {| pre_job := ["schism_plot"]; job := []; post_job := [] |}.
Proof. reflexivity. Qed.

(** Starting from [schism_run]: nothing runs before the job. *)
Example partition_from_schism_run :
  StagePlanner.plan Scenario.schism_order (Some "schism_run") None false
  = Returned ["schism_run"; "post_schism"; "schism_plot"]
  ∧ SubmissionPartitioner.partition Scenario.schism_containerized
      ["schism_run"; "post_schism"; "schism_plot"]
    = {| pre_job := []; job := ["schism_run"; "post_schism"];
         post_job := ["schism_plot"] |}.
Proof. split; reflexivity. Qed.

(** The rasterized model with the download enabled: twelve stages before
    the job, the run in it, the plot after it. *)
Example partition_sfincs :
  let g := SubmissionPartitioner.partition Scenario.sfincs_containerized
             Scenario.sfincs_order in
  length (pre_job g) = 12%nat
  ∧ job g = ["sfincs_run"] ∧ post_job g = ["sfincs_plot"].
Proof. repeat split; reflexivity. Qed.

(** In the pipeline of the finite-element model, [schism_obs] lies between
    [update_params] and [boundary_conditions]. *)
Lemma sandwiched_stage_is_promoted_witness :
  let g := SubmissionPartitioner.partition Scenario.schism_containerized
             Scenario.scenario_a in
  "schism_obs" ∈ pre_job g ∧ "schism_obs" ∉ job g.
Proof.
  refine (proj1 (sandwiched_stage_is_promoted Scenario.schism_containerized
                   Scenario.scenario_a)
            ["pre_forcing"; "nwm_forcing"; "post_forcing"]
            ["pre_schism"; "schism_run"; "post_schism"; "schism_plot"]
            "update_params" "schism_obs" "boundary_conditions" _ _ _ _).
  - reflexivity.
  - exact I.
  - intros [].
  - exact I.
Defined.

End PartitionFacts.


(* ===================================================================== *)
(** * Properties of the dependency preparer *)
(* ===================================================================== *)

Module PreparerFacts.
Import DependencyPreparer.

Section Facts.

Variable table : list Rule.
Variable work_dir : string.

Local Abbreviation dst := (fun r : Rule => in_dir work_dir (required r)).
Local Abbreviation apply_rule := (apply_rule work_dir).
Local Abbreviation apply_rules := (apply_rules work_dir).
Local Abbreviation prepare := (prepare table work_dir).
Local Abbreviation settled := (settled work_dir).

Lemma path_exists_spec (fs : FS) (p : string) :
  path_exists fs p ↔ is_Some (fs !! p).
Proof. unfold path_exists. apply bool_decide_spec. Qed.

Lemma path_absent_spec (fs : FS) (p : string) :
  ¬ path_exists fs p ↔ fs !! p = None.
Proof. rewrite path_exists_spec. symmetry. apply eq_None_not_Some. Qed.

Lemma apply_rule_settled (fs : FS) (r : Rule) :
  settled fs r → apply_rule fs r = Returned fs.
Proof.
  unfold DependencyPreparer.apply_rule. intros [H|H].
  - by destruct (path_exists fs (dst r)).
  - destruct (path_exists fs (dst r)); [done|].
    by destruct (path_exists fs (source r)).
Qed.

Lemma apply_rule_links (fs : FS) (r : Rule) :
  ¬ settled fs r →
  apply_rule fs r = Returned (<[dst r := Symlink (source r)]> fs)
  ∧ fs !! dst r = None
  ∧ path_exists fs (source r).
Proof.
  unfold DependencyPreparer.settled. intros H.
  assert (Hd : ¬ path_exists fs (dst r)) by (intros ?; apply H; by left).
  assert (Hs : path_exists fs (source r)).
  { destruct (decide (path_exists fs (source r))) as [Hs|Hs]; [done|].
    destruct H. by right. }
  split; [|split; [by apply path_absent_spec|done]].
  unfold DependencyPreparer.apply_rule, symlink_to.
  apply Is_true_false_1 in Hd. apply Is_true_true_1 in Hs.
  by rewrite Hd, Hs.
Qed.

#[local] Instance settled_dec (fs : FS) (r : Rule) : Decision (settled fs r).
Proof. unfold DependencyPreparer.settled. apply _. Defined.

(** One rule: it never fails, and it only ever adds its own link. *)
Lemma apply_rule_returns (fs : FS) (r : Rule) :
  ∃ fs', apply_rule fs r = Returned fs'
         ∧ fs ⊆ fs'
         ∧ (∀ p, p ≠ dst r → fs' !! p = fs !! p)
         ∧ path_exists fs' (dst r) = path_exists fs (dst r) || path_exists fs (source r).
Proof.
  destruct (decide (settled fs r)) as [H|H].
  - exists fs. rewrite (apply_rule_settled fs r H).
    split; [done|]. split; [done|]. split; [done|].
    destruct H as [H|H].
    + apply Is_true_true_1 in H. by rewrite H.
    + apply Is_true_false_1 in H. by rewrite H, orb_false_r.
  - destruct (apply_rule_links fs r H) as (-> & Hnone & Hs).
    eexists. split; [done|]. split; [by apply insert_subseteq|].
    split; [intros p Hp; by rewrite lookup_insert_ne|].
    apply Is_true_true_1 in Hs. rewrite Hs, orb_true_r.
    apply Is_true_true_1, path_exists_spec. by rewrite lookup_insert_eq.
Qed.

(** A list of rules: it never fails, keeps what exists, and changes only
    the required files of its rules. *)
Lemma apply_rules_returns (rules : list Rule) : ∀ fs : FS,
  ∃ fs', apply_rules rules fs = Returned fs'
         ∧ fs ⊆ fs'
         ∧ (∀ p, (∀ r, r ∈ rules → p ≠ dst r) → fs' !! p = fs !! p).
Proof.
  induction rules as [|r rules IH]; intros fs; cbn [DependencyPreparer.apply_rules].
  - by exists fs.
  - destruct (apply_rule_returns fs r) as (fs1 & -> & Hsub1 & Hsame1 & _).
    destruct (IH fs1) as (fs' & -> & Hsub & Hsame).
    exists fs'. split; [done|]. split; [by etrans|].
    intros p Hp. rewrite Hsame, Hsame1; [done| |].
    + apply Hp. left.
    + intros r' Hr'. apply Hp. by right.
Qed.

Lemma apply_rules_settled (rules : list Rule) (fs : FS) :
  Forall (settled fs) rules → apply_rules rules fs = Returned fs.
Proof.
  induction 1 as [|r rules Hr _ IH]; cbn [DependencyPreparer.apply_rules]; [done|].
  by rewrite (apply_rule_settled fs r Hr).
Qed.

(** Where the sources are not required files of the working directory,
    every rule is settled once the rules have been applied. *)
Lemma apply_rules_settles (rules : list Rule) : ∀ fs fs' : FS,
  (∀ r r', r ∈ rules → r' ∈ rules → source r ≠ dst r') →
  apply_rules rules fs = Returned fs' →
  Forall (settled fs') rules.
Proof.
  induction rules as [|r rules IH]; intros fs fs' Hapart Hrun; [done|].
  cbn [DependencyPreparer.apply_rules] in Hrun.
  destruct (apply_rule_returns fs r) as (fs1 & E1 & Hsub1 & Hsame1 & Hdst1).
  rewrite E1 in Hrun.
  destruct (apply_rules_returns rules fs1) as (fs2 & E2 & Hsub2 & Hsame2).
  rewrite E2 in Hrun. injection Hrun as ->.
  apply Forall_cons. split.
  - destruct (decide (path_exists fs1 (dst r))) as [Hd|Hd].
    + left. apply path_exists_spec.
      apply path_exists_spec in Hd as [n Hn].
      exists n. by eapply lookup_weaken.
    + right. apply Is_true_false_1 in Hd. rewrite Hd in Hdst1.
      symmetry in Hdst1. apply orb_false_iff in Hdst1 as [_ Hsrc].
      apply path_absent_spec.
      rewrite Hsame2, Hsame1.
      * apply path_absent_spec. by apply Is_true_false_2.
      * apply Hapart; left.
      * intros r' Hr'. apply Hapart; [left|by right].
  - apply (IH fs1 fs'); [|done].
    intros r1 r2 H1 H2. apply Hapart; by right.
Qed.

(** One rule is settled once applied, wherever its source is. *)
Lemma apply_rule_settles (fs fs' : FS) (r : Rule) :
  apply_rule fs r = Returned fs' → settled fs' r.
Proof.
  destruct (decide (settled fs r)) as [H|H].
  - rewrite (apply_rule_settled fs r H). by intros [= <-].
  - destruct (apply_rule_links fs r H) as (-> & _ & _). intros [= <-].
    left. apply path_exists_spec. by rewrite lookup_insert_eq.
Qed.

(** C8. Preparing the dependencies of a stage never fails and never
    touches a path that exists: it leaves the file system as it is when the
    required files are already in the working directory, and also when
    their canonical sources are missing. Preparing again changes nothing
    more, for a stage with at most one rule (as in the runner, whose table
    has one rule) and for any set of rules whose sources are not
    themselves required files of the working directory. *)
Theorem prepare_is_idempotent (stage_name : string) (fs : FS) :
  ∃ fs',
    prepare stage_name fs = Returned fs'
    ∧ (∀ p, is_Some (fs !! p) → fs' !! p = fs !! p)
    ∧ ((∀ r, r ∈ rules_of table stage_name → path_exists fs (dst r)) →
       fs' = fs)
    ∧ ((∀ r, r ∈ rules_of table stage_name → ¬ path_exists fs (source r)) →
       fs' = fs)
    ∧ ((length (rules_of table stage_name) ≤ 1)%nat →
       prepare stage_name fs' = Returned fs')
    ∧ ((∀ r r', r ∈ rules_of table stage_name →
                r' ∈ rules_of table stage_name → source r ≠ dst r') →
       prepare stage_name fs' = Returned fs').
Proof.
  unfold DependencyPreparer.prepare.
  destruct (apply_rules_returns (rules_of table stage_name) fs)
    as (fs' & E & Hsub & _).
  exists fs'. split; [done|]. split; [|split; [|split; [|split]]].
  - intros p [n Hn]. rewrite Hn. by eapply lookup_weaken.
  - intros Hall. rewrite apply_rules_settled in E; [by injection E|].
    apply Forall_forall. intros r Hr. left. by apply Hall.
  - intros Hall. rewrite apply_rules_settled in E; [by injection E|].
    apply Forall_forall. intros r Hr. right. by apply Hall.
  - intros Hlen. apply apply_rules_settled.
    destruct (rules_of table stage_name) as [|r [|r' rules]];
      [done| |cbn in Hlen; lia].
    cbn [DependencyPreparer.apply_rules] in E.
    destruct (apply_rule_returns fs r) as (fs1 & E1 & _).
    rewrite E1 in E. injection E as <-.
    apply Forall_singleton. by apply apply_rule_settles with fs.
  - intros Hapart. apply apply_rules_settled.
    by apply apply_rules_settles with fs.
Qed.

End Facts.

(** The link to the mesh is made from the canonical place of the mesh, and
    no other stage has anything prepared. *)
Example prepare_links_the_mesh :
  DependencyPreparer.prepare (schism_rules "/parm" "atlgulf") "/work"
    "schism_obs" Scenario.mesh_at_source
  = Returned (<["/work/hgrid.gr3" := Symlink "/parm/coastal/atlgulf/hgrid.gr3"]>
                Scenario.mesh_at_source)
  ∧ DependencyPreparer.prepare (schism_rules "/parm" "atlgulf") "/work"
      "schism_plot" Scenario.mesh_at_source
    = Returned Scenario.mesh_at_source.
Proof. split; reflexivity. Qed.

(** A mesh under the parameter root itself, and not under its [parm]
    directory where the canonical copy belongs, is not linked. *)
Example prepare_ignores_other_places :
  DependencyPreparer.prepare (schism_rules "/parm_root/parm" "atlgulf") "/work"
    "schism_obs"
    {[ "/parm_root/coastal/atlgulf/hgrid.gr3" := RegularFile "wrong location" ]}
  = Returned
      {[ "/parm_root/coastal/atlgulf/hgrid.gr3" := RegularFile "wrong location" ]}.
Proof. reflexivity. Qed.

(** The mesh is in its canonical place and not in the working directory:
    preparing again after the first time changes nothing. With a mesh
    already in the working directory nothing is done. *)
Lemma prepare_is_idempotent_witness :
  (∃ fs',
     DependencyPreparer.prepare (schism_rules "/parm" "atlgulf") "/work"
       "schism_obs" Scenario.mesh_at_source = Returned fs'
     ∧ DependencyPreparer.prepare (schism_rules "/parm" "atlgulf") "/work"
         "schism_obs" fs' = Returned fs')
  ∧ DependencyPreparer.prepare (schism_rules "/parm" "atlgulf") "/work"
      "schism_obs" Scenario.mesh_in_work_dir
    = Returned Scenario.mesh_in_work_dir.
Proof.
  split.
  - destruct (prepare_is_idempotent (schism_rules "/parm" "atlgulf") "/work"
                "schism_obs" Scenario.mesh_at_source)
      as (fs' & E & _ & _ & _ & Hidem & _).
    exists fs'. split; [exact E|].
    apply Hidem. vm_compute. lia.
  - destruct (prepare_is_idempotent (schism_rules "/parm" "atlgulf") "/work"
                "schism_obs" Scenario.mesh_in_work_dir)
      as (fs' & E & _ & Hthere & _).
    rewrite E. f_equal. apply Hthere.
    intros r Hr. vm_compute in Hr. apply list_elem_of_singleton in Hr as ->.
    vm_compute. exact I.
Defined.

End PreparerFacts.

(* ===================================================================== *)
(** * Properties of the text built-ins *)
(* ===================================================================== *)

Module TextFacts.
Import Py.

Lemma append_cons (c : ascii) (a b : string) :
  String c a +:+ b = String c (a +:+ b).
Proof. reflexivity. Qed.

Lemma append_nil_r (a : string) : a +:+ "" = a.
Proof. induction a as [|c a IH]; [done|]. by rewrite append_cons, IH. Qed.

Lemma append_assoc (a b c : string) : (a +:+ b) +:+ c = a +:+ (b +:+ c).
Proof. induction a as [|x a IH]; [done|]. by rewrite !append_cons, IH. Qed.

Lemma length_append (a b : string) :
  String.length (a +:+ b) = (String.length a + String.length b)%nat.
Proof.
  induction a as [|c a IH]; [done|]. rewrite append_cons. cbn. by rewrite IH.
Qed.

Lemma append_inj_r (s1 s2 t : string) : s1 +:+ t = s2 +:+ t → s1 = s2.
Proof.
  revert s2. induction s1 as [|c s1 IH]; intros [|d s2] H.
  - done.
  - apply (f_equal String.length) in H.
    rewrite !length_append in H. cbn [String.length] in H. lia.
  - apply (f_equal String.length) in H.
    rewrite !length_append in H. cbn [String.length] in H. lia.
  - rewrite !append_cons in H. injection H as -> H. by rewrite (IH _ H).
Qed.

Lemma concat_cons (sep x y : string) (l : list string) :
  String.concat sep (x :: y :: l)
  = x +:+ (sep +:+ String.concat sep (y :: l)).
Proof. reflexivity. Qed.

Lemma after_prefix_app (p r : string) : after_prefix p (p +:+ r) = Some r.
Proof.
  induction p as [|a p IH]; simpl; [done|].
  by rewrite Ascii.eqb_refl.
Qed.

Lemma after_prefix_Some (p s r : string) :
  after_prefix p s = Some r → s = p +:+ r.
Proof.
  revert s; induction p as [|a p IH]; intros s; simpl.
  - by intros [= ->].
  - destruct s as [|b s]; [done|].
    destruct (Ascii.eqb_spec a b) as [->|]; [|done].
    intros H. by rewrite (IH _ H).
Qed.

Lemma prefix_app (p q : string) : String.prefix p (p +:+ q) = true.
Proof.
  induction p as [|a p IH]; [by destruct q|].
  rewrite append_cons. simpl. by destruct (ascii_dec a a).
Qed.

Lemma all_chars_app (p : ascii → bool) (a b : string) :
  all_chars p (a +:+ b) = all_chars p a && all_chars p b.
Proof.
  induction a as [|c a IH]; [done|]. rewrite append_cons. cbn [all_chars].
  by rewrite IH, andb_assoc.
Qed.

Lemma all_chars_impl (p q : ascii → bool) (s : string) :
  (∀ c, p c = true → q c = true) →
  all_chars p s = true → all_chars q s = true.
Proof.
  intros Hpq. induction s as [|c s IH]; [done|]. cbn [all_chars].
  intros [Hc Hs]%andb_true_iff. by rewrite (Hpq _ Hc), IH.
Qed.

(** ** Stripping *)

Lemma rstrip_idem (s : string) : rstrip (rstrip s) = rstrip s.
Proof.
  induction s as [|c s IH]; [done|]. cbn [rstrip].
  destruct (rstrip s) as [|d t] eqn:E.
  - destruct (isspace c) eqn:Hc; [done|]. cbn [rstrip]. by rewrite Hc.
  - cbn [rstrip]. cbn [rstrip] in IH. by rewrite IH.
Qed.

Lemma lstrip_head (s : string) :
  match lstrip s with
  | String c _ => isspace c = false
  | EmptyString => True
  end.
Proof.
  induction s as [|c s IH]; [done|]. cbn [lstrip].
  by destruct (isspace c) eqn:Hc.
Qed.

Lemma lstrip_rstrip (s : string) :
  match s with String c _ => isspace c = false | EmptyString => True end →
  lstrip (rstrip s) = rstrip s.
Proof.
  destruct s as [|c s]; [done|]. intros Hc. cbn [rstrip].
  destruct (rstrip s); rewrite ?Hc; cbn [lstrip]; by rewrite Hc.
Qed.

Lemma strip_idem (s : string) : strip (strip s) = strip s.
Proof.
  unfold strip. rewrite lstrip_rstrip by apply lstrip_head.
  apply rstrip_idem.
Qed.

Lemma all_chars_lstrip (p : ascii → bool) (s : string) :
  all_chars p s = true → all_chars p (lstrip s) = true.
Proof.
  induction s as [|c s IH]; [done|]. cbn [lstrip]. intros H.
  destruct (isspace c); [|done].
  cbn [all_chars] in H. apply andb_true_iff in H as [_ H]. by apply IH.
Qed.

Lemma all_chars_rstrip (p : ascii → bool) (s : string) :
  all_chars p s = true → all_chars p (rstrip s) = true.
Proof.
  induction s as [|c s IH]; [done|]. cbn [rstrip all_chars].
  intros [Hc Hs]%andb_true_iff. specialize (IH Hs).
  destruct (rstrip s).
  - destruct (isspace c); [done|]. cbn [all_chars]. by rewrite Hc.
  - cbn [all_chars] in *. by rewrite Hc, IH.
Qed.

Lemma all_chars_strip (p : ascii → bool) (s : string) :
  all_chars p s = true → all_chars p (strip s) = true.
Proof. intros H. by apply all_chars_rstrip, all_chars_lstrip. Qed.

Lemma rstrip_no_space (s : string) :
  all_chars (fun c => negb (isspace c)) s = true → rstrip s = s.
Proof.
  induction s as [|c s IH]; [done|]. cbn [all_chars rstrip].
  intros [Hc%negb_true_iff Hs]%andb_true_iff. rewrite (IH Hs).
  destruct s; by rewrite ?Hc.
Qed.

Lemma strip_no_space (s : string) :
  all_chars (fun c => negb (isspace c)) s = true → strip s = s.
Proof.
  intros H. unfold strip.
  assert (lstrip s = s) as ->; [|by apply rstrip_no_space].
  destruct s as [|c s]; [done|]. cbn [all_chars lstrip] in *.
  apply andb_true_iff in H as [Hc%negb_true_iff _]. by rewrite Hc.
Qed.

Lemma digit_not_space (c : ascii) : is_digit c = true → isspace c = false.
Proof.
  unfold is_digit, isspace. intros H.
  apply andb_true_iff in H as [H1%N.leb_le H2%N.leb_le].
  apply orb_false_iff. split; apply andb_false_iff.
  - right. apply N.leb_gt. lia.
  - right. apply N.leb_gt. lia.
Qed.

Lemma int_space_isspace (c : ascii) : int_space c = true → isspace c = true.
Proof.
  unfold int_space, isspace.
  intros [[H1%N.leb_le H2%N.leb_le]%andb_true_iff|H%N.eqb_eq]%orb_true_iff;
    apply orb_true_iff; [left|right]; apply andb_true_iff;
    split; apply N.leb_le; lia.
Qed.

(** A text without white space is the literal that [int] reads. *)
Lemma int_skip_no_space (s : string) :
  all_chars (fun c => negb (isspace c)) s = true →
  int_rskip (int_lskip s) = s.
Proof.
  intros H.
  assert (Hb : all_chars (fun c => negb (int_space c)) s = true).
  { eapply all_chars_impl; [|done]. intros c Hc. cbn beta in *.
    destruct (int_space c) eqn:E; [|done].
    by rewrite (int_space_isspace c E) in Hc. }
  clear H. assert (int_lskip s = s) as ->.
  { destruct s as [|c s]; [done|]. cbn [all_chars int_lskip] in *.
    apply andb_true_iff in Hb as [Hc%negb_true_iff _]. by rewrite Hc. }
  induction s as [|c s IH]; [done|]. cbn [all_chars int_rskip] in *.
  apply andb_true_iff in Hb as [Hc%negb_true_iff Hs]. rewrite (IH Hs).
  destruct s; by rewrite ?Hc.
Qed.

Lemma strip_digits (s : string) : all_chars is_digit s = true → strip s = s.
Proof.
  intros H. apply strip_no_space. eapply all_chars_impl; [|done].
  intros c Hc. by rewrite digit_not_space.
Qed.

Lemma rstrip_newline (t : string) : rstrip (t +:+ newline) = rstrip t.
Proof.
  induction t as [|c t IH]; [done|].
  rewrite append_cons. cbn [rstrip]. by rewrite IH.
Qed.

Lemma rstrip_cons_keep (c : ascii) (t : string) :
  isspace c = false → rstrip (String c t) = String c (rstrip t).
Proof. intros Hc. cbn [rstrip]. destruct (rstrip t); by rewrite ?Hc. Qed.

Lemma rstrip_app_keep (a t : string) (c : ascii) :
  isspace c = false →
  rstrip (a +:+ String c t) = a +:+ String c (rstrip t).
Proof.
  intros Hc. induction a as [|x a IH].
  - by apply rstrip_cons_keep.
  - rewrite !append_cons. cbn [rstrip]. rewrite IH.
    by destruct a.
Qed.

Lemma lstrip_digit (s : string) :
  s ≠ "" → all_chars is_digit s = true → ∀ t, lstrip (s +:+ t) = s +:+ t.
Proof.
  destruct s as [|c s]; [done|]. cbn [all_chars].
  intros _ [Hc _]%andb_true_iff t. rewrite append_cons. cbn [lstrip].
  by rewrite digit_not_space.
Qed.

(** ** Splitting *)

Lemma split_plain (sep : ascii) (f : string) :
  lacks sep f → split sep f = [f].
Proof.
  unfold lacks. induction f as [|c f IH]; [done|]. cbn [all_chars split].
  intros [Hc%negb_true_iff Hf]%andb_true_iff. by rewrite Hc, IH.
Qed.

Lemma split_field (sep : ascii) (f rest : string) :
  lacks sep f →
  split sep (f +:+ String sep rest) = f :: split sep rest.
Proof.
  unfold lacks. induction f as [|c f IH].
  - intros _. change ("" +:+ String sep rest) with (String sep rest).
    cbn [split]. by rewrite Ascii.eqb_refl.
  - cbn [all_chars]. intros [Hc%negb_true_iff Hf]%andb_true_iff.
    rewrite append_cons. cbn [split]. by rewrite Hc, IH.
Qed.

(** Splitting undoes joining, for fields without the separator. *)
Lemma split_concat (sep : ascii) (fields : list string) :
  Forall (lacks sep) fields → fields ≠ [] →
  split sep (String.concat (String sep "") fields) = fields.
Proof.
  induction 1 as [|f fields Hf _ IH]; [done|]. intros _.
  destruct fields as [|g fields]; [by apply split_plain|].
  rewrite concat_cons.
  change (String sep "" +:+ ?x) with (String sep x).
  rewrite split_field by done. f_equal. by apply IH.
Qed.

Lemma digits_lack (sep : ascii) (s : string) :
  is_digit sep = false → all_chars is_digit s = true → lacks sep s.
Proof.
  intros Hsep. apply all_chars_impl. intros c Hc.
  apply negb_true_iff. destruct (Ascii.eqb_spec c sep); [congruence|done].
Qed.

Lemma digits_not_contain (sub s : string) (c : ascii) :
  is_digit c = false → all_chars is_digit s = true →
  contains (String c sub) s = false.
Proof.
  intros Hc. induction s as [|d s IH]; [done|].
  cbn [all_chars contains String.prefix].
  intros [Hd Hs]%andb_true_iff. rewrite (IH Hs).
  destruct (ascii_dec c d); [congruence|done].
Qed.

Lemma splitlines_line (line rest : string) :
  no_linebreak line →
  splitlines (line +:+ (newline +:+ rest)) = line :: splitlines rest.
Proof.
  unfold no_linebreak. induction line as [|c line IH]; intros H.
  - change ("" +:+ (newline +:+ rest)) with (String "010" rest).
    cbn [splitlines]. by destruct rest.
  - cbn [all_chars] in H. apply andb_true_iff in H as [Hc Hl].
    rewrite append_cons. cbn [splitlines].
    apply negb_true_iff in Hc. rewrite Hc. by rewrite IH.
Qed.

(** The lines of a text written as lines, each ended by a newline. *)
Lemma splitlines_concat (lines : list string) :
  Forall no_linebreak lines →
  lines ≠ [] →
  splitlines (String.concat newline lines +:+ newline) = lines.
Proof.
  induction 1 as [|l lines Hl Hls IH]; [done|]. intros _.
  destruct lines as [|l' lines].
  - cbn [String.concat].
    rewrite <- (append_nil_r newline) at 1.
    by rewrite splitlines_line.
  - rewrite concat_cons, !append_assoc, splitlines_line by done.
    f_equal. by apply IH.
Qed.

Lemma splitlines_no_linebreak (s : string) :
  Forall no_linebreak (splitlines s).
Proof.
  assert (H : ∀ n s, (String.length s ≤ n)%nat →
                     Forall no_linebreak (splitlines s)).
  { clear s. induction n as [|n IH]; intros [|c s] Hn; cbn in Hn; try lia;
      [constructor..|].
    cbn [splitlines]. destruct (is_linebreak c) eqn:Hc.
    - constructor; [done|]. destruct s as [|c' s']; [constructor|].
      destruct (_ && _); apply IH; cbn in *; lia.
    - assert (Hs : Forall no_linebreak (splitlines s)) by (apply IH; lia).
      destruct (splitlines s) as [|line lines].
      + constructor; [|done]. unfold no_linebreak. cbn. by rewrite Hc.
      + apply Forall_cons in Hs as [Hl Hls]. constructor; [|done].
        unfold no_linebreak in *. cbn [all_chars]. by rewrite Hc, Hl. }
  by apply (H (String.length s)).
Qed.

(** ** Decimal numerals *)

Lemma pretty_N_char_digit (y : N) :
  (y < 10)%N →
  is_digit (pretty_N_char y) = true
  ∧ digit_value (pretty_N_char y) = Z.of_N y.
Proof.
  intros H.
  assert (y = 0 ∨ y = 1 ∨ y = 2 ∨ y = 3 ∨ y = 4 ∨ y = 5 ∨ y = 6 ∨ y = 7
          ∨ y = 8 ∨ y = 9)%N as Hy by lia.
  repeat (destruct Hy as [->|Hy]; [done|]). by subst.
Qed.

(** Reading the digits that [pretty] wrote in front of [s]. *)
Lemma int_digits_pretty_go (x : N) :
  (0 < x)%N →
  ∀ s : string, ∃ m : Z, ∀ (acc : Z) (prev : bool),
    int_digits (pretty_N_go x s) acc prev
    = int_digits s (acc * m + Z.of_N x) true.
Proof.
  induction (N.lt_wf_0 x) as [x _ IH]. intros Hx s.
  rewrite pretty_N_go_step by done.
  destruct (pretty_N_char_digit (x `mod` 10)%N) as [Hd Hv];
    [by apply N.mod_lt|].
  assert (x = 10 * (x `div` 10) + x `mod` 10)%N as Hdm
    by (by apply N.div_mod).
  destruct (decide (x `div` 10 = 0)%N) as [E|E].
  - rewrite E, pretty_N_go_0. exists 10. intros acc prev.
    cbn [int_digits]. rewrite Hd, Hv. f_equal.
    rewrite E in Hdm. revert Hdm. generalize (x `mod` 10)%N. lia.
  - assert (x `div` 10 < x)%N as Hlt by (apply N.div_lt; lia).
    assert (0 < x `div` 10)%N as Hpos by (by apply N.neq_0_lt_0).
    destruct (IH _ Hlt Hpos (String (pretty_N_char (x `mod` 10)) s))
      as [m Hm].
    exists (10 * m). intros acc prev. rewrite Hm.
    cbn [int_digits]. rewrite Hd, Hv. f_equal.
    revert Hdm. generalize (x `mod` 10)%N (x `div` 10)%N. lia.
Qed.

Lemma all_digits_pretty_go (x : N) (s : string) :
  all_chars is_digit s = true → all_chars is_digit (pretty_N_go x s) = true.
Proof.
  revert s. induction (N.lt_wf_0 x) as [x _ IH]. intros s Hs.
  destruct (decide (0 < x)%N) as [Hx|Hx].
  - rewrite pretty_N_go_step by done. apply IH; [by apply N.div_lt|].
    cbn [all_chars]. rewrite Hs.
    by destruct (pretty_N_char_digit (x `mod` 10)%N) as [-> _];
      [apply N.mod_lt|].
  - assert (x = 0%N) as -> by lia. by rewrite pretty_N_go_0.
Qed.

Lemma all_digits_pretty_N (x : N) : all_chars is_digit (pretty x) = true.
Proof.
  unfold pretty, pretty_N. case_decide; [done|]. by apply all_digits_pretty_go.
Qed.

Lemma int_digits_pretty_N (x : N) (prev : bool) :
  int_digits (pretty x) 0 prev = Some (Z.of_N x).
Proof.
  unfold pretty, pretty_N. case_decide as E; [by subst|].
  destruct (int_digits_pretty_go x ltac:(lia) "") as [m Hm].
  rewrite Hm. cbn [int_digits]. by f_equal.
Qed.

Lemma int_digit_string (s : string) :
  all_chars is_digit s = true → int s = int_digits s 0 false.
Proof.
  intros H. unfold int. rewrite int_skip_no_space.
  2: { eapply all_chars_impl; [|done]. intros c Hc. by rewrite digit_not_space. }
  destruct s as [|c s]; [done|]. cbn [all_chars] in H.
  apply andb_true_iff in H as [Hc _].
  destruct (decide (c = "+"%char)) as [->|]; [done|].
  destruct (decide (c = "-"%char)) as [->|]; [done|].
  destruct c as [[] [] [] [] [] [] [] []]; done.
Qed.

(** [int(str(z)) == z] *)
Lemma int_pretty (z : Z) : int (pretty z) = Some z.
Proof.
  destruct z as [|p|p].
  - done.
  - change (pretty (Z.pos p)) with (pretty (Npos p)).
    rewrite int_digit_string by apply all_digits_pretty_N.
    apply int_digits_pretty_N.
  - unfold pretty, pretty_Z.
    change (pretty p) with (pretty (Npos p)).
    pose proof (all_digits_pretty_N (Npos p)) as Hd.
    unfold int. rewrite int_skip_no_space.
    + change ("-" +:+ pretty (N.pos p)) with (String "-" (pretty (N.pos p))).
      cbn match. by rewrite int_digits_pretty_N.
    + change ("-" +:+ pretty (N.pos p)) with (String "-" (pretty (N.pos p))).
      cbn [all_chars]. rewrite andb_true_iff. split; [done|].
      eapply all_chars_impl; [|done]. intros c Hc. by rewrite digit_not_space.
Qed.

Lemma pretty_Z_lacks (sep : ascii) (z : Z) :
  is_digit sep = false → sep ≠ "-"%char → lacks sep (pretty z).
Proof.
  intros Hsep Hdash. destruct z as [|p|p].
  - by apply digits_lack.
  - apply digits_lack; [done|]. apply (all_digits_pretty_N (Npos p)).
  - unfold pretty, pretty_Z.
    change ("-" +:+ pretty p) with (String "-" (pretty (Npos p))).
    unfold lacks. cbn [all_chars]. apply andb_true_iff. split.
    + apply negb_true_iff. by destruct (Ascii.eqb_spec "-"%char sep).
    + apply digits_lack; [done|]. apply all_digits_pretty_N.
Qed.

Lemma pretty_Z_truthy (z : Z) : truthy (pretty z) = true.
Proof. pose proof (int_pretty z) as H. by destruct (pretty z). Qed.

(** [int(f"{n:03d}") == n] *)
Lemma int_format_03d (n : nat) : int (format_03d n) = Some (Z.of_nat n).
Proof.
  unfold format_03d. generalize (3 - String.length (pretty n))%nat. intros k.
  rewrite int_digit_string.
  - assert (H : ∀ prev, int_digits (zeros k (pretty n)) 0 prev
                        = Some (Z.of_nat n)).
    { induction k as [|k IH]; intros prev; cbn [zeros].
      - unfold pretty, pretty_nat. rewrite int_digits_pretty_N. f_equal. lia.
      - cbn [int_digits]. apply IH. }
    apply H.
  - induction k as [|k IH]; [apply (all_digits_pretty_N (N.of_nat n))|].
    cbn [zeros all_chars]. by rewrite IH.
Qed.

(** ** Rounding up *)

Lemma ceil_div_4 (n : nat) : (ceil_div n 4 = (n + 3) / 4)%nat.
Proof.
  unfold ceil_div.
  pose proof (Nat.div_mod_eq n 4). pose proof (Nat.mod_upper_bound n 4).
  pose proof (Nat.div_mod_eq (n + 3) 4).
  pose proof (Nat.mod_upper_bound (n + 3) 4).
  destruct (Nat.eqb_spec (n mod 4) 0); lia.
Qed.

Lemma ceil_div_4_bounds (n : nat) : (n ≤ 4 * ceil_div n 4 < n + 4)%nat.
Proof.
  rewrite ceil_div_4.
  pose proof (Nat.div_mod_eq (n + 3) 4).
  pose proof (Nat.mod_upper_bound (n + 3) 4). lia.
Qed.

End TextFacts.

(* ===================================================================== *)
(** * Properties of the submission of a job *)
(* ===================================================================== *)

Module SubmissionFacts.
Import Py SlurmManager TextFacts.

Lemma leading_digits_all (s : string) :
  all_chars is_digit (leading_digits s) = true.
Proof.
  induction s as [|c s IH]; simpl; [done|].
  destruct (is_digit c) eqn:E; simpl; [|done]. by rewrite E.
Qed.

Lemma leading_digits_app (d r : string) :
  all_chars is_digit d = true →
  leading_digits (d +:+ r) = d +:+ leading_digits r.
Proof.
  induction d as [|c d IH]; simpl; [done|].
  intros [Hc Hd]%andb_true_iff. rewrite Hc. by rewrite IH.
Qed.

Lemma leading_digits_prefix (s : string) :
  ∃ post, s = leading_digits s +:+ post ∧ leading_digits post = "".
Proof.
  induction s as [|c s IH]; simpl.
  - by exists "".
  - destruct IH as (post & E & Hp). destruct (is_digit c) eqn:Hc.
    + exists post. split; [|done]. by rewrite append_cons, <- E.
    + exists (String c s). simpl. by rewrite Hc.
Qed.

Lemma match_here_Some (s d : string) :
  match_here s = Some d →
  d ≠ "" ∧ all_chars is_digit d = true
  ∧ ∃ post, s = submitted +:+ (d +:+ post) ∧ leading_digits post = "".
Proof.
  unfold match_here.
  destruct (after_prefix submitted s) as [r|] eqn:E; [|done].
  apply after_prefix_Some in E.
  destruct (truthy (leading_digits r)) eqn:T; [|done].
  intros [= <-]. split; [by destruct (leading_digits r)|].
  split; [apply leading_digits_all|].
  destruct (leading_digits_prefix r) as (post & Er & Hp).
  exists post. split; [|done]. by rewrite <- Er.
Qed.

(** A match of the pattern is a non-empty run of digits, as long as it can
    be, that follows the literal somewhere in the text. *)
Lemma job_id_match_Some (s d : string) :
  job_id_match s = Some d →
  d ≠ "" ∧ all_chars is_digit d = true
  ∧ ∃ pre post, s = pre +:+ (submitted +:+ (d +:+ post))
                ∧ leading_digits post = "".
Proof.
  induction s as [|c s IH].
  - done.
  - cbn [job_id_match]. destruct (match_here (String c s)) as [d'|] eqn:E.
    + intros [= ->]. destruct (match_here_Some _ _ E) as (? & ? & post & ? & ?).
      repeat split; [done..|]. by exists "", post.
    + intros H. destruct (IH H) as (? & ? & pre & post & -> & ?).
      repeat split; [done..|]. by exists (String c pre), post.
Qed.

Lemma job_id_match_here (s d : string) :
  match_here s = Some d → job_id_match s = Some d.
Proof. intros H. destruct s; cbn [job_id_match]; by rewrite H. Qed.

Lemma match_here_digit (c : ascii) (post : string) :
  is_digit c = true → is_Some (match_here (submitted +:+ String c post)).
Proof.
  intros Hc. unfold match_here. rewrite after_prefix_app. simpl. rewrite Hc.
  simpl. by eexists.
Qed.

(** The pattern matches exactly the texts in which a digit follows the
    literal somewhere. *)
Lemma job_id_match_is_Some (s : string) :
  is_Some (job_id_match s)
  ↔ ∃ pre c post,
      s = pre +:+ (submitted +:+ String c post) ∧ is_digit c = true.
Proof.
  split.
  - intros [d H].
    destruct (job_id_match_Some _ _ H) as (Hd & Hall & pre & post & -> & _).
    destruct d as [|c d]; [done|]. simpl in Hall.
    apply andb_true_iff in Hall as [Hc _]. by exists pre, c, (d +:+ post).
  - intros (pre & c & post & -> & Hc).
    induction pre as [|x pre IH].
    + destruct (match_here_digit c post Hc) as [d E].
      exists d. by apply job_id_match_here.
    + rewrite append_cons. cbn [job_id_match].
      destruct (match_here _); [by eexists|]. apply IH.
Qed.

Lemma job_id_match_line (d rest : string) :
  d ≠ "" → all_chars is_digit d = true → leading_digits rest = "" →
  job_id_match (submitted +:+ (d +:+ rest)) = Some d.
Proof.
  intros Hd Hall Hr. apply job_id_match_here.
  unfold match_here. rewrite after_prefix_app, leading_digits_app, Hr by done.
  rewrite append_nil_r. by destruct d.
Qed.

(** What [submit_job] does once [sbatch] has run. *)
Lemma submit_job_ran (self : Manager) (run : Oracle) (script_path : string)
    (cp : CompletedProcess) :
  run ["sbatch"; script_path] = Ran cp →
  let intro := logged (monitor self) ("Submitting job: " +:+ script_path)
                 "info" ++ [EvRun ["sbatch"; script_path]] in
  submit_job self run script_path
  = if negb (returncode cp =? 0) then
      let error_msg :=
        "Failed to submit job: " +:+ default "" (stderr cp) in
      (Raised (RuntimeError error_msg),
       intro ++ logged (monitor self) error_msg "error")
    else match job_id_match (stdout cp) with
         | None =>
             (Raised (RuntimeError ("Could not parse job ID from: "
                                    +:+ stdout cp)), intro)
         | Some job_id =>
             (Returned job_id,
              intro ++ logged (monitor self)
                         ("Job submitted with ID: " +:+ job_id) "info")
         end.
Proof.
  intros Hrun intro. subst intro.
  unfold submit_job, subprocess_run, _log, emit, raise.
  rewrite Hrun. cbn [mbind M_bind].
  destruct (negb (returncode cp =? 0)); cbn [mbind M_bind];
    [by rewrite ?app_nil_r, <- ?app_assoc|].
  destruct (job_id_match (stdout cp)); cbn [mbind M_bind mret M_ret];
    by rewrite ?app_nil_r, <- ?app_assoc.
Qed.

Lemma submit_job_missing (self : Manager) (run : Oracle)
    (script_path : string) :
  run ["sbatch"; script_path] = NotFound →
  submit_job self run script_path
  = (Raised (FileNotFoundError "sbatch"),
     logged (monitor self) ("Submitting job: " +:+ script_path) "info"
     ++ [EvRun ["sbatch"; script_path]]).
Proof.
  intros Hrun. unfold submit_job, subprocess_run, _log, emit.
  rewrite Hrun. by cbn [mbind M_bind].
Qed.

Lemma submit_job_broke (self : Manager) (run : Oracle)
    (script_path : string) (e : Exn) :
  run ["sbatch"; script_path] = Broke e →
  submit_job self run script_path
  = (Raised e,
     logged (monitor self) ("Submitting job: " +:+ script_path) "info"
     ++ [EvRun ["sbatch"; script_path]]).
Proof.
  intros Hrun. unfold submit_job, subprocess_run, _log, emit.
  rewrite Hrun. by cbn [mbind M_bind].
Qed.

(** X1. An id that [submit_job] returns is a number that [sbatch], having
    exited with status 0, printed after the words "Submitted batch job ":
    a non-empty run of decimal digits, taken as long as it is. The call has
    launched [sbatch] once and nothing else, and has logged the submission
    and the id. *)
Theorem submitted_id_is_the_printed_number (self : Manager) (run : Oracle)
    (script_path job_id : string) (tr : Trace) :
  submit_job self run script_path = (Returned job_id, tr) →
  ∃ cp pre post,
    run ["sbatch"; script_path] = Ran cp
    ∧ returncode cp = 0
    ∧ stdout cp = pre +:+ (submitted +:+ (job_id +:+ post))
    ∧ job_id ≠ ""
    ∧ all_chars is_digit job_id = true
    ∧ leading_digits post = ""
    ∧ tr = logged (monitor self) ("Submitting job: " +:+ script_path) "info"
           ++ [EvRun ["sbatch"; script_path]]
           ++ logged (monitor self) ("Job submitted with ID: " +:+ job_id)
                "info".
Proof.
  destruct (run ["sbatch"; script_path]) as [cp| |e] eqn:Hrun.
  - rewrite (submit_job_ran _ _ _ _ Hrun). cbv zeta.
    destruct (Z.eqb_spec (returncode cp) 0) as [Hrc|]; [|done].
    cbn [negb]. destruct (job_id_match (stdout cp)) as [d|] eqn:E; [|done].
    intros [= -> <-].
    destruct (job_id_match_Some _ _ E) as (Hd & Hall & pre & post & Hs & Hp).
    exists cp, pre, post. by rewrite <- app_assoc.
  - by rewrite (submit_job_missing _ _ _ Hrun).
  - by rewrite (submit_job_broke _ _ _ _ Hrun).
Qed.

(** The number is found after a note of [sbatch] and before the name of the
    cluster. *)
Lemma submitted_id_is_the_printed_number_witness :
  ∃ cp pre post,
    Scenario.submitting ["sbatch"; "job.sh"] = Ran cp
    ∧ returncode cp = 0
    ∧ stdout cp = pre +:+ (submitted +:+ ("4711" +:+ post))
    ∧ "4711" ≠ ""
    ∧ all_chars is_digit "4711" = true
    ∧ leading_digits post = ""
    ∧ [EvLog "info" "Submitting job: job.sh"; EvRun ["sbatch"; "job.sh"];
       EvLog "info" "Job submitted with ID: 4711"]
      = logged true ("Submitting job: " +:+ "job.sh") "info"
        ++ [EvRun ["sbatch"; "job.sh"]]
        ++ logged true ("Job submitted with ID: " +:+ "4711") "info".
Proof.
  apply (submitted_id_is_the_printed_number {| monitor := true |}).
  reflexivity.
Defined.

(** X2. When [sbatch] can be started, [submit_job] returns an id exactly
    when [sbatch] exits with status 0 and its output has a decimal digit
    right after the words "Submitted batch job " somewhere. With status 0
    and no such place in the output, it raises a [RuntimeError] that quotes
    the output, having logged no error. *)
Theorem submit_job_returns_iff (self : Manager) (run : Oracle)
    (script_path : string) (cp : CompletedProcess) :
  run ["sbatch"; script_path] = Ran cp →
  ((∃ job_id tr, submit_job self run script_path = (Returned job_id, tr))
   ↔ returncode cp = 0
     ∧ ∃ pre c post,
         stdout cp = pre +:+ (submitted +:+ String c post)
         ∧ is_digit c = true)
  ∧ (returncode cp = 0 →
     (∀ pre c post, stdout cp = pre +:+ (submitted +:+ String c post) →
                    is_digit c = false) →
     submit_job self run script_path
     = (Raised (RuntimeError ("Could not parse job ID from: " +:+ stdout cp)),
        logged (monitor self) ("Submitting job: " +:+ script_path) "info"
        ++ [EvRun ["sbatch"; script_path]])).
Proof.
  intros Hrun. rewrite (submit_job_ran _ _ _ _ Hrun). cbv zeta.
  pose proof (job_id_match_is_Some (stdout cp)) as Hm.
  split; [split|].
  - intros (job_id & tr & H).
    destruct (Z.eqb_spec (returncode cp) 0) as [Hrc|]; [|done].
    cbn [negb] in H.
    destruct (job_id_match (stdout cp)) as [d|] eqn:E; [|done].
    split; [done|]. apply Hm. by eexists.
  - intros (Hrc & Hd). rewrite Hrc. cbn [Z.eqb negb].
    apply Hm in Hd as [d ->]. by eexists _, _.
  - intros Hrc Hno. rewrite Hrc. cbn [Z.eqb negb].
    destruct (job_id_match (stdout cp)) as [d|] eqn:E; [|done].
    destruct (proj1 Hm) as (pre & c & post & Hs & Hc); [by eexists|].
    by rewrite (Hno _ _ _ Hs) in Hc.
Qed.

(** [sbatch] succeeds and prints a line with the number of the job: the
    number is returned. Its output is without such a line: the error
    quotes the output. *)
Lemma submit_job_returns_iff_witness :
  (∃ job_id tr,
     submit_job {| monitor := false |} Scenario.submitting "job.sh"
     = (Returned job_id, tr))
  ∧ submit_job {| monitor := false |}
      (fun _ => Scenario.answered 0 "Submitted batch job pending") "job.sh"
    = (Raised (RuntimeError
                 "Could not parse job ID from: Submitted batch job pending"),
       [EvRun ["sbatch"; "job.sh"]]).
Proof.
  split.
  - apply (submit_job_returns_iff {| monitor := false |} Scenario.submitting
             "job.sh" _ eq_refl).
    split; [reflexivity|].
    exists ("sbatch: note" +:+ Scenario.newline), "4"%char,
      ("711 on cluster c1" +:+ Scenario.newline).
    split; reflexivity.
  - apply (submit_job_returns_iff {| monitor := false |}
             (fun _ => Scenario.answered 0 "Submitted batch job pending")
             "job.sh" _ eq_refl); [reflexivity|].
    intros pre c post H.
    destruct (is_digit c) eqn:Hc; [|done].
    assert (Hs : is_Some (job_id_match "Submitted batch job pending")).
    { apply job_id_match_is_Some. by exists pre, c, post. }
    by destruct Hs as [d Hd].
Defined.

(** X3. The line that [sbatch] prints for an accepted job is read back:
    when the output of a successful [sbatch] begins with
    "Submitted batch job ", a number and something that is not a digit,
    [submit_job] returns that number. *)
Theorem sbatch_line_round_trip (self : Manager) (run : Oracle)
    (script_path d rest : string) (err : option string) :
  d ≠ "" → all_chars is_digit d = true → leading_digits rest = "" →
  run ["sbatch"; script_path]
  = Ran {| returncode := 0; stdout := submitted +:+ (d +:+ rest);
           stderr := err |} →
  submit_job self run script_path
  = (Returned d,
     logged (monitor self) ("Submitting job: " +:+ script_path) "info"
     ++ [EvRun ["sbatch"; script_path]]
     ++ logged (monitor self) ("Job submitted with ID: " +:+ d) "info").
Proof.
  intros Hd Hall Hr Hrun. rewrite (submit_job_ran _ _ _ _ Hrun).
  cbn [returncode stdout Z.eqb negb]. rewrite job_id_match_line by done.
  by rewrite <- app_assoc.
Qed.

Lemma sbatch_line_round_trip_witness :
  submit_job {| monitor := false |}
    (fun _ => Scenario.answered 0
                ("Submitted batch job 4711" +:+ Scenario.newline)) "job.sh"
  = (Returned "4711", [EvRun ["sbatch"; "job.sh"]]).
Proof.
  apply (sbatch_line_round_trip {| monitor := false |} _ "job.sh" "4711"
           Scenario.newline (Some "")); reflexivity || discriminate.
Defined.

End SubmissionFacts.

(* ===================================================================== *)
(** * Properties of the log of a wait *)
(* ===================================================================== *)

Module WaitLogFacts.
Import SlurmManager TextFacts SlurmFacts.

Lemma state_logs_app (jid : string) (t1 t2 : Trace) :
  state_logs jid (t1 ++ t2) = state_logs jid t1 ++ state_logs jid t2.
Proof. apply omap_app. Qed.

Lemma state_logs_poll (run : Oracle) (jid : string) :
  state_logs jid (get_job_status run jid).2 = [].
Proof.
  destruct (run (sacct_argv jid)) as [r| |e] eqn:Hr.
  - destruct (authoritative (sacct_status jid r)) eqn:Ha.
    + by rewrite (get_job_status_authoritative run jid r Hr Ha).
    + destruct (run (squeue_argv jid)) as [q| |e] eqn:Hq'.
      * by rewrite (get_job_status_live run jid r q Hr Ha Hq').
      * by rewrite (get_job_status_squeue_missing run jid r Hr Ha Hq').
      * by rewrite (get_job_status_squeue_broke run jid r e Hr Ha Hq').
  - by rewrite (get_job_status_sacct_missing run jid Hr).
  - by rewrite (get_job_status_sacct_broke run jid e Hr).
Qed.

Lemma state_logs_state (jid : string) (m : bool) (st : JobState) :
  state_logs jid (logged m ("Job " +:+ jid +:+ " state: " +:+ value st) "info")
  = if m then [value st] else [].
Proof.
  destruct m; [|done]. cbn [logged state_logs omap list_omap String.eqb].
  replace ("Job " +:+ jid +:+ " state: " +:+ value st)
    with (("Job " +:+ jid +:+ " state: ") +:+ value st).
  - rewrite after_prefix_app. done.
  - by rewrite !append_assoc.
Qed.

Lemma state_logs_timeout (w : World) (jid : string) (timeout : option Z)
    (start : Qc) (k : nat) :
  state_logs jid (timeout_expired w timeout start k).2 = [].
Proof.
  unfold timeout_expired. destruct timeout as [t|]; [|done].
  by destruct (t =? 0).
Qed.

Lemma state_logs_warning (jid : string) (m : bool) :
  state_logs jid (logged m ("Timeout waiting for job " +:+ jid) "warning")
  = [].
Proof. by destruct m. Qed.

Lemma state_logs_waiting (jid : string) (m : bool) :
  state_logs jid
    (logged m ("Waiting for job " +:+ jid +:+ " to complete...") "info")
  = [].
Proof. by destruct m. Qed.

Lemma log_if (b m : bool) (msg level : string) :
  (if b then _log m msg level else mret ())
  = (Returned (), if b then logged m msg level else []).
Proof. by destruct b. Qed.

Lemma wait_loop_logs (self : Manager) (w : World) (jid : string) (pi : Z)
    (timeout : option Z) (statuses : nat → JobStatus) (n : nat) :
  ∀ (k fuel : nat) (last : option JobState),
    (∀ i, (i ≤ n)%nat →
          (get_job_status (commands w (k + i)) jid).1
          = Returned (statuses (k + i)%nat)) →
    (∀ i, (i < n)%nat →
          is_terminal (state (statuses (k + i)%nat)) = false
          ∧ ¬ expired_at w timeout (k + i)) →
    (0 ≤ pi ∨ n = 0%nat) →
    (is_terminal (state (statuses (k + n)%nat)) = true
     ∨ expired_at w timeout (k + n)) →
    (n < fuel)%nat →
    state_logs jid
      (wait_loop self w jid pi timeout (clock w 0%nat) fuel k last).2
    = if monitor self
      then value <$> changes last
                       ((fun i => state (statuses i)) <$> seq k (S n))
      else [].
Proof.
  induction n as [|n IH]; intros k fuel last Hpoll Hrun Hpi Hend Hfuel;
    (destruct fuel as [|fuel]; [lia|]);
    pose proof (state_logs_poll (commands w k) jid) as Hp;
    pose proof (Hpoll 0%nat ltac:(lia)) as H0; rewrite Nat.add_0_r in H0;
    destruct (get_job_status (commands w k) jid) as [o tr] eqn:E;
    cbn [fst snd] in H0, Hp; subst o;
    pose proof (state_logs_timeout w jid timeout (clock w 0%nat) k) as Hlx;
    destruct (timeout_expired_spec w jid timeout k) as (b & tx & Ex & Hb & _);
    rewrite Ex in Hlx; cbn [snd] in Hlx;
    cbn [wait_loop]; rewrite (bind_Returned _ _ _ _ E); cbv beta;
    rewrite log_if; cbn [mbind M_bind];
    cbn [seq fmap list_fmap changes].
  - rewrite Nat.add_0_r in Hend.
    destruct (is_terminal (state (statuses k))) eqn:Ht.
    + cbn [mret M_ret snd]. rewrite !state_logs_app, Hp, app_nil_r.
      destruct (bool_decide _); cbn [app];
        [rewrite state_logs_state|]; by destruct (monitor self).
    + destruct Hend as [|Hend]; [done|]. apply Hb in Hend as ->.
      rewrite Ex. unfold _log, emit. cbn [mbind M_bind mret M_ret snd].
      rewrite !state_logs_app, Hp, Hlx, state_logs_warning, !app_nil_r.
      destruct (bool_decide _); cbn [app];
        [rewrite state_logs_state|]; by destruct (monitor self).
  - destruct (Hrun 0%nat ltac:(lia)) as [Ht Hx]. rewrite Nat.add_0_r in Ht, Hx.
    destruct Hpi as [Hpi|]; [|done].
    destruct b; [by destruct Hx; apply Hb|].
    assert (Es : time_sleep pi = (Returned (), [EvSleep pi])).
    { unfold time_sleep. by destruct (Z.ltb_spec pi 0); [lia|]. }
    rewrite Ht, Ex. cbn [mbind M_bind]. rewrite Es. cbn [mbind M_bind].
    set (last' := if bool_decide (Some (state (statuses k)) ≠ last)
                  then Some (state (statuses k)) else last).
    specialize (IH (S k) fuel last').
    destruct (wait_loop self w jid pi timeout (clock w 0%nat) fuel (S k) last')
      as [r trr] eqn:El.
    cbn [snd] in IH |- *.
    rewrite !state_logs_app, Hp, Hlx, IH.
    + subst last'. cbn [state_logs omap list_omap app].
      destruct (bool_decide _); cbn [app];
        [rewrite state_logs_state|]; by destruct (monitor self).
    + intros i Hi. replace (S k + i)%nat with (k + S i)%nat by lia.
      apply Hpoll. lia.
    + intros i Hi. replace (S k + i)%nat with (k + S i)%nat by lia.
      apply Hrun. lia.
    + by left.
    + by replace (S k + n)%nat with (k + S n)%nat by lia.
    + lia.
Qed.

(** X15. With a monitor, [wait_for_job] logs the state of the job once for
    each change: the states logged are, in order, the state of the first
    poll and then the state of every poll that differs from the state of
    the poll before it. A state that lasts over several polls is logged
    once. Without a monitor nothing is logged. *)
Theorem state_changes_are_logged_once (self : Manager) (w : World)
    (jid : string) (poll_interval : Z) (timeout : option Z)
    (statuses : nat → JobStatus) (n fuel : nat) :
  (∀ k, (k ≤ n)%nat →
        (get_job_status (commands w k) jid).1 = Returned (statuses k)) →
  (∀ k, (k < n)%nat →
        is_terminal (state (statuses k)) = false ∧ ¬ expired_at w timeout k) →
  (0 ≤ poll_interval ∨ n = 0%nat) →
  (is_terminal (state (statuses n)) = true ∨ expired_at w timeout n) →
  (n < fuel)%nat →
  state_logs jid (wait_for_job self w jid poll_interval timeout fuel).2
  = if monitor self
    then value <$> changes None
                     ((fun k => state (statuses k)) <$> seq 0 (S n))
    else [].
Proof.
  intros Hpoll Hrun Hpi Hend Hfuel. unfold wait_for_job, _log, emit, time_time.
  cbn [mbind M_bind].
  pose proof (wait_loop_logs self w jid poll_interval timeout statuses n
                0%nat fuel None) as H.
  destruct (wait_loop self w jid poll_interval timeout (clock w 0%nat) fuel
              0%nat None) as [r tr] eqn:El.
  cbn [snd] in H |- *.
  rewrite !state_logs_app, state_logs_waiting, H by done. done.
Qed.

(** The job is seen running twice and then completed: the log has the two
    states, each once. *)
Lemma state_changes_are_logged_once_witness :
  state_logs "123"
    (wait_for_job {| monitor := true |} Scenario.two_polls_then_done "123"
       30 None 5).2
  = ["RUNNING"; "COMPLETED"].
Proof.
  refine (state_changes_are_logged_once
            {| monitor := true |} Scenario.two_polls_then_done "123" 30 None
            (fun k => if (k <? 2)%nat then Scenario.running_123
                      else Scenario.completed_123)
            2 5 _ _ _ _ _).
  - intros [|[|[|k]]] Hk; [reflexivity | reflexivity | reflexivity | lia].
  - intros [|[|k]] Hk; [| | lia];
      (split; [reflexivity | intros (t & Ht & _); discriminate Ht]).
  - left. lia.
  - left. reflexivity.
  - lia.
Defined.

End WaitLogFacts.

(* ===================================================================== *)
(** * Properties of the reading of the accounting lines *)
(* ===================================================================== *)

Module AccountingFacts.
Import Py SlurmManager TextFacts.

(** X4. An accounting line is read back field by field. When the first
    line of the answer is the job id (a number), the name, the state, the
    nodes, the exit code followed by a colon and the signal, the elapsed
    time and the reason, joined by vertical bars that the fields do not
    contain, the status holds the id, the name, the parsed state, the
    nodes, the exit code as an integer, the elapsed time and the reason,
    whatever lines follow. *)
Theorem accounting_line_round_trip
    (jid name st nodes sig elapsed reason : string) (rc : Z)
    (rest : list string) :
  all_chars is_digit jid = true →
  Forall (lacks "|") [name; st; nodes; sig; elapsed; reason] →
  sacct_scan jid
    (String.concat "|"
       [jid; name; st; nodes; pretty rc +:+ ":" +:+ sig; elapsed; reason]
     :: rest)
  = Some {| job_id := jid; state := _parse_state st; name := name;
            node_list := nodes; exit_code := Some rc;
            elapsed_time := elapsed; reason := reason |}.
Proof.
  intros Hjid Hf.
  apply Forall_cons in Hf as [Hname Hf]. apply Forall_cons in Hf as [Hst Hf].
  apply Forall_cons in Hf as [Hnodes Hf]. apply Forall_cons in Hf as [Hsig Hf].
  apply Forall_cons in Hf as [Hel Hf]. apply Forall_cons in Hf as [Hre _].
  cbn [sacct_scan]. rewrite split_concat; [|repeat constructor; try done|done].
  - cbn [hd]. rewrite String.eqb_refl. cbn [orb].
    rewrite !digits_not_contain by done. cbn [orb].
    unfold field, state_field, exit_code_field. cbn [lookup list_lookup].
    assert (Ht : truthy (pretty rc +:+ ":" +:+ sig) = true).
    { pose proof (pretty_Z_truthy rc). by destruct (pretty rc). }
    rewrite Ht.
    change (pretty rc +:+ ":" +:+ sig) with (pretty rc +:+ String ":" sig).
    rewrite split_field by (by apply pretty_Z_lacks). cbn [hd].
    by rewrite int_pretty.
  - by apply digits_lack.
  - unfold lacks. rewrite all_chars_app. apply andb_true_iff. split.
    + by apply pretty_Z_lacks.
    + done.
Qed.

(** The line of a job killed by signal 9 after it exited with status 137,
    followed by the line of its batch step. *)
Lemma accounting_line_round_trip_witness :
  sacct_scan "4711"
    [String.concat "|"
       ["4711"; "schism"; "FAILED"; "n[1-2]"; pretty 137 +:+ ":" +:+ "9";
        "00:10:00"; "NonZeroExitCode"];
     "4711.batch|batch|FAILED|n1|137:9|00:10:00|"]
  = Some {| job_id := "4711"; state := _parse_state "FAILED";
            name := "schism"; node_list := "n[1-2]"; exit_code := Some 137;
            elapsed_time := "00:10:00"; reason := "NonZeroExitCode" |}.
Proof.
  apply (accounting_line_round_trip "4711" "schism" "FAILED" "n[1-2]" "9"
           "00:10:00" "NonZeroExitCode" 137).
  - reflexivity.
  - repeat constructor.
Defined.

(** X5. The status that the accounting lines give belongs to the job asked
    for: its id is the first field of one of the lines, and is the id of
    the job or the id of the job followed by a dot and more; it is never
    the id of a [.batch] or [.extern] step. *)
Theorem accounting_status_is_of_the_job (jid : string) (lines : list string)
    (st : JobStatus) :
  sacct_scan jid lines = Some st →
  (job_id st = jid ∨ startswith (job_id st) (jid +:+ ".") = true)
  ∧ contains ".batch" (job_id st) = false
  ∧ contains ".extern" (job_id st) = false
  ∧ ∃ line, line ∈ lines ∧ job_id st = hd "" (split "|" line).
Proof.
  induction lines as [|line lines IH]; [done|]. cbn [sacct_scan].
  assert (Hrest : sacct_scan jid lines = Some st →
            (job_id st = jid ∨ startswith (job_id st) (jid +:+ ".") = true)
            ∧ contains ".batch" (job_id st) = false
            ∧ contains ".extern" (job_id st) = false
            ∧ ∃ l, l ∈ line :: lines ∧ job_id st = hd "" (split "|" l)).
  { intros H. destruct (IH H) as (? & ? & ? & l & ? & ?).
    repeat split; [done..|]. exists l. split; [by right|done]. }
  set (p0 := hd "" (split "|" line)).
  destruct (String.eqb p0 jid || startswith p0 (jid +:+ ".")) eqn:Hm; [|done].
  destruct (contains ".batch" p0 || contains ".extern" p0) eqn:Hc; [done|].
  apply orb_false_iff in Hc as [Hb He]. intros [= <-]. cbn [job_id].
  repeat split; [|done..|exists line; split; [by left|done]].
  apply orb_true_iff in Hm as [Hm%String.eqb_eq|Hm]; [by left|by right].
Qed.

(** Asked for job 123, the lines of its batch step and of job 1234 are
    passed over and the line of its step 0 is taken. *)
Lemma accounting_status_is_of_the_job_witness :
  sacct_scan "123" Scenario.accounting_of_a_step = Some Scenario.step_123
  ∧ (job_id Scenario.step_123 = "123"
     ∨ startswith (job_id Scenario.step_123) ("123" +:+ ".") = true)
  ∧ contains ".batch" (job_id Scenario.step_123) = false
  ∧ contains ".extern" (job_id Scenario.step_123) = false
  ∧ ∃ line, line ∈ Scenario.accounting_of_a_step
            ∧ job_id Scenario.step_123 = hd "" (split "|" line).
Proof.
  split; [reflexivity|].
  apply (accounting_status_is_of_the_job "123" Scenario.accounting_of_a_step
           Scenario.step_123).
  reflexivity.
Defined.

(** X16. For a job that the accounting source does not have as finished,
    the line of the live queue is what a poll returns: when [squeue] exits
    with status 0 and prints the job id (a number), the name, the state,
    the nodes and the reason, joined by vertical bars that the fields do
    not contain, [get_job_status] returns these fields with the parsed
    state, the reason without the white space that ends it, no exit code
    and no elapsed time, after the accounting query and the queue query. *)
Theorem live_queue_line_is_returned (run : Oracle)
    (jid name st nodes reason : string) (r q : CompletedProcess) :
  jid ≠ "" →
  all_chars is_digit jid = true →
  Forall (lacks "|") [name; st; nodes; reason] →
  run (sacct_argv jid) = Ran r →
  authoritative (sacct_status jid r) = false →
  run (squeue_argv jid) = Ran q →
  returncode q = 0 →
  stdout q = String.concat "|" [jid; name; st; nodes; reason] +:+ newline →
  get_job_status run jid
  = (Returned {| job_id := jid; state := _parse_state st; name := name;
                 node_list := nodes; exit_code := None; elapsed_time := "";
                 reason := rstrip reason |},
     [EvRun (sacct_argv jid); EvRun (squeue_argv jid)]).
Proof.
  intros Hne Hjid Hf Hr Ha Hq Hrc Hout.
  apply Forall_cons in Hf as [Hname Hf]. apply Forall_cons in Hf as [Hst Hf].
  apply Forall_cons in Hf as [Hnodes Hf]. apply Forall_cons in Hf as [Hre _].
  rewrite (SlurmFacts.get_job_status_live run jid r q Hr Ha Hq).
  assert (Hshape : ∀ x,
            String.concat "|" [jid; name; st; nodes; x]
            = String.concat "|" [jid; name; st; nodes] +:+ String "|" x).
  { intros x. rewrite !concat_cons. cbn [String.concat].
    by rewrite !append_assoc. }
  assert (Hstrip : strip (stdout q)
                   = String.concat "|" [jid; name; st; nodes; rstrip reason]).
  { rewrite Hout, !Hshape. unfold strip.
    set (A := String.concat "|" [jid; name; st; nodes]).
    assert (HA : ∀ x, lstrip (A +:+ x) = A +:+ x).
    { intros x. subst A. rewrite concat_cons, append_assoc.
      by apply lstrip_digit. }
    rewrite append_assoc, HA, append_cons.
    rewrite rstrip_app_keep by done. by rewrite rstrip_newline. }
  assert (Hrep : reports q = true).
  { unfold reports. rewrite Hrc, Hstrip, Hshape. cbn [Z.eqb andb].
    rewrite concat_cons. by destruct jid. }
  rewrite Hrep. unfold squeue_status. rewrite Hstrip.
  rewrite split_concat; [done| |done].
  repeat constructor; try done.
  - by apply digits_lack.
  - unfold lacks in *. by apply all_chars_rstrip.
Qed.

(** The accounting source and the live queue both have job 123 as running:
    the status is the line of the queue. *)
Lemma live_queue_line_is_returned_witness :
  get_job_status Scenario.running "123"
  = (Returned Scenario.running_123,
     [EvRun (sacct_argv "123"); EvRun (squeue_argv "123")]).
Proof.
  apply (live_queue_line_is_returned Scenario.running "123" "job" "RUNNING"
           "n1" "None"
           (mkCompleted 0 ("123|job|RUNNING|n1|0:0|00:00:30|None"
                           +:+ Scenario.newline) (Some ""))
           (mkCompleted 0 ("123|job|RUNNING|n1|None" +:+ Scenario.newline)
              (Some ""))).
  - discriminate.
  - reflexivity.
  - repeat constructor.
  - reflexivity.
  - reflexivity.
  - reflexivity.
  - reflexivity.
  - reflexivity.
Defined.

End AccountingFacts.

(* ===================================================================== *)
(** * Properties of the environment of the container *)
(* ===================================================================== *)

Module EnvironmentFacts.
Import Py WorkflowStage TextFacts.

Lemma export_item_lookup (key value : string) (acc : gmap string string)
    (name : string) :
  export_item key value acc !! name
  = if exported key && bool_decide (name = "SINGULARITYENV_" +:+ key)
    then Some value else acc !! name.
Proof.
  unfold export_item, exported.
  destruct (bool_decide (key ∈ singularity_protected)); [done|].
  destruct (isalnum _); cbn [negb andb]; [|done].
  case_bool_decide as E.
  - subst. by rewrite lookup_insert_eq.
  - by rewrite lookup_insert_ne.
Qed.

Lemma prefixed_inj (k1 k2 : string) :
  "SINGULARITYENV_" +:+ k1 = "SINGULARITYENV_" +:+ k2 → k1 = k2.
Proof.
  intros H. apply (f_equal (after_prefix "SINGULARITYENV_")) in H.
  rewrite !after_prefix_app in H. by injection H.
Qed.

Lemma prefixed_name (name key : string) :
  name = "SINGULARITYENV_" +:+ key →
  after_prefix "SINGULARITYENV_" name = Some key.
Proof. intros ->. apply after_prefix_app. Qed.

(** What the loop leaves under each name, whatever the order in which it
    visits the items: the value of the exported variable that the name
    prefixes, and otherwise what was there. *)
Lemma fold_export_lookup (base env : gmap string string) (name : string) :
  map_fold export_item base env !! name
  = match after_prefix "SINGULARITYENV_" name with
    | Some key =>
        if exported key then
          match env !! key with Some v => Some v | None => base !! name end
        else base !! name
    | None => base !! name
    end.
Proof.
  induction env as [|key value env Hkey Hfold IH] using map_first_key_ind.
  - rewrite map_fold_empty. destruct (after_prefix _ _) as [k|]; [|done].
    rewrite lookup_empty. by destruct (exported k).
  - rewrite map_fold_insert_first_key by done.
    rewrite export_item_lookup, IH.
    destruct (after_prefix "SINGULARITYENV_" name) as [k|] eqn:E.
    + apply after_prefix_Some in E. subst name.
      destruct (decide (k = key)) as [->|Hne].
      * rewrite lookup_insert_eq. rewrite bool_decide_true by done.
        by destruct (exported key).
      * rewrite lookup_insert_ne by done.
        rewrite bool_decide_false by (by intros ?%prefixed_inj).
        by rewrite andb_false_r.
    + case_bool_decide as Ek; [|by rewrite andb_false_r].
      subst name. by rewrite after_prefix_app in E.
Qed.

(** X6. Every variable of the environment that is not protected and whose
    name is made of letters, digits and underscores (not of underscores
    alone) reaches the container: the environment of the container process
    holds its value under the name prefixed with [SINGULARITYENV_],
    whatever was under that name before. *)
Theorem valid_variable_is_exported (env : gmap string string)
    (key value : string) :
  env !! key = Some value →
  key ∉ singularity_protected →
  isalnum (replace "_" "" key) = true →
  singularity_env env !! ("SINGULARITYENV_" +:+ key) = Some value.
Proof.
  intros Hk Hp Hv. unfold singularity_env.
  rewrite fold_export_lookup, after_prefix_app.
  unfold exported. rewrite bool_decide_false, Hv by done. cbn [negb andb].
  by rewrite Hk.
Qed.

Lemma valid_variable_is_exported_witness :
  singularity_env Scenario.host_env !! "SINGULARITYENV_COASTAL_DOMAIN"
  = Some "hawaii".
Proof.
  apply (valid_variable_is_exported Scenario.host_env "COASTAL_DOMAIN"
           "hawaii").
  - reflexivity.
  - apply (bool_decide_unpack (_ ∉ _)). vm_compute. exact I.
  - reflexivity.
Defined.

(** X7. Nothing else changes: a name keeps what the environment had under
    it (its value, or no value) unless it is the prefixed name of a
    variable of the environment that is neither protected nor badly named.
    So every variable of the host is still there, and a protected variable
    such as [PATH], or a name such as that of a shell function, is not
    handed on under a prefixed name. *)
Theorem other_variables_are_kept (env : gmap string string) (name : string) :
  (∀ key, name = "SINGULARITYENV_" +:+ key →
          key ∈ singularity_protected
          ∨ isalnum (replace "_" "" key) = false
          ∨ env !! key = None) →
  singularity_env env !! name = env !! name.
Proof.
  intros H. unfold singularity_env. rewrite fold_export_lookup.
  destruct (after_prefix "SINGULARITYENV_" name) as [key|] eqn:E; [|done].
  apply after_prefix_Some in E.
  unfold exported.
  destruct (H key E) as [Hp|[Hv| ->]].
  - by rewrite bool_decide_true.
  - by rewrite Hv, andb_false_r.
  - by destruct (_ && _).
Qed.

(** The prefixed path of the host is kept as it is although [PATH] is set,
    [PATH] itself is kept, and the shell function gets no prefixed copy. *)
Lemma other_variables_are_kept_witness :
  singularity_env Scenario.host_env !! "SINGULARITYENV_PATH" = Some "/opt/bin"
  ∧ singularity_env Scenario.host_env !! "PATH" = Some "/usr/bin"
  ∧ singularity_env Scenario.host_env !! "SINGULARITYENV_BASH_FUNC_ml%%"
    = None.
Proof.
  split; [|split].
  - apply (other_variables_are_kept Scenario.host_env "SINGULARITYENV_PATH").
    intros key [= <-]%prefixed_name. left.
    apply (bool_decide_unpack (_ ∈ _)). vm_compute. exact I.
  - apply (other_variables_are_kept Scenario.host_env "PATH").
    intros key [=]%prefixed_name.
  - apply (other_variables_are_kept Scenario.host_env
             "SINGULARITYENV_BASH_FUNC_ml%%").
    intros key [= <-]%prefixed_name. right. left. reflexivity.
Defined.

End EnvironmentFacts.

(* ===================================================================== *)
(** * Properties of the station files *)
(* ===================================================================== *)

Module StationFacts.
Import Py Schism TextFacts.

Lemma plain_lines_kept (lines : list string) :
  Forall plain_id lines →
  strip <$> filter (fun line => Is_true (truthy (strip line))) lines = lines.
Proof.
  induction 1 as [|x l (Hx & Hs & _) _ IH]; [done|].
  rewrite filter_cons_True by (rewrite Hs; by destruct x).
  by rewrite fmap_cons, Hs, IH.
Qed.

Lemma splitlines_written (station_ids : list string) :
  Forall no_linebreak station_ids →
  splitlines (String.concat newline station_ids +:+ newline)
  = if decide (station_ids = []) then [""] else station_ids.
Proof.
  intros H. destruct station_ids as [|id ids]; [done|].
  by rewrite splitlines_concat.
Qed.

(** X8. The companion file of the station ids is read back as it was
    written: for ids that are not blank, have no white space around them
    and no line break in them, reading the file that
    [_write_station_names] wrote gives the same ids in the same order,
    whatever the file held before; no id gives an empty list. *)
Theorem station_ids_round_trip (files : Files) (base_dir : string)
    (station_ids : list string) :
  Forall plain_id station_ids →
  _read_station_noaa_ids (_write_station_names files base_dir station_ids).1
    base_dir
  = Some station_ids.
Proof.
  intros H. unfold _read_station_noaa_ids, _write_station_names. cbn [fst].
  rewrite lookup_insert_eq. cbn [mbind option_bind]. f_equal.
  rewrite splitlines_written
    by (eapply Forall_impl; [done|]; by intros ? (?&?&?)).
  destruct station_ids as [|id ids]; [done|].
  by apply plain_lines_kept.
Qed.

Lemma station_ids_round_trip_witness :
  _read_station_noaa_ids
    (_write_station_names ∅ "/work" ["8518750"; "8516945"]).1 "/work"
  = Some ["8518750"; "8516945"].
Proof.
  apply station_ids_round_trip.
  repeat constructor; done.
Defined.

(** X9. Whatever the companion file holds, the ids read from it are plain:
    none is blank, none has white space around it, none has a line break
    in it. The ids read are thus ids that are written back unchanged. *)
Theorem read_station_ids_are_plain (files : Files) (base_dir : string)
    (station_ids : list string) :
  _read_station_noaa_ids files base_dir = Some station_ids →
  Forall plain_id station_ids.
Proof.
  unfold _read_station_noaa_ids.
  destruct (files !! joinpath base_dir "station_noaa_ids.txt") as [text|];
    [|done].
  cbn [mbind option_bind]. intros [= <-].
  apply Forall_fmap, Forall_forall. intros line [Ht Hin]%list_elem_of_filter.
  pose proof (splitlines_no_linebreak text) as Hall.
  rewrite Forall_forall in Hall. specialize (Hall _ Hin).
  split; [|split].
  - cbn. intros E. by rewrite E in Ht.
  - apply strip_idem.
  - by apply all_chars_strip.
Qed.

(** A file written by hand, with padded ids and a blank line. *)
Lemma read_station_ids_are_plain_witness :
  _read_station_noaa_ids Scenario.padded_ids "/work"
  = Some ["8518750"; "8516945"]
  ∧ Forall plain_id ["8518750"; "8516945"].
Proof.
  split; [reflexivity|].
  apply (read_station_ids_are_plain Scenario.padded_ids "/work").
  reflexivity.
Defined.

End StationFacts.

(* ===================================================================== *)
(** * Properties of the comparison figures *)
(* ===================================================================== *)

Module PlotFacts.
Import Py Schism.SchismPlotStage TextFacts.

Lemma slice_batch (station_ids : list string) (j : nat) :
  slice station_ids (j * 4) (Nat.min (j * 4 + 4) (length station_ids))
  = take 4 (drop (j * 4) station_ids).
Proof.
  unfold slice.
  destruct (Nat.le_gt_cases (j * 4 + 4) (length station_ids)).
  - rewrite Nat.min_l by lia. f_equal. lia.
  - rewrite Nat.min_r by lia.
    rewrite !take_ge; [done| |]; rewrite length_drop; lia.
Qed.

Lemma mapM_column (n_columns : nat) (ps : list Panel) :
  Forall (fun p => (col_idx p < n_columns)%nat) ps →
  mapM (column n_columns) ps = Some ps.
Proof.
  intros H. apply mapM_Some, Forall_Forall2_diag.
  eapply Forall_impl; [done|]. intros p Hp. cbn beta in Hp. unfold column.
  destruct (Nat.ltb_spec (col_idx p) n_columns); [done|lia].
Qed.

Lemma batch_columns (station_ids : list string) (j : nat) :
  Forall (fun p => (col_idx p < length station_ids)%nat)
    (batch station_ids j).
Proof.
  apply Forall_forall. intros p Hp. unfold batch in Hp.
  apply list_elem_of_lookup in Hp as [i Hi].
  rewrite list_lookup_imap in Hi.
  destruct (take 4 (drop (j * 4) station_ids) !! i) as [s|] eqn:E; [|done].
  injection Hi as <-. cbn.
  apply lookup_lt_Some in E as Hlt. rewrite length_take, length_drop in Hlt.
  lia.
Qed.

Lemma figure_saved (n_columns : nat) (station_ids : list string)
    (figs_dir : string) (j : nat) :
  (length station_ids ≤ n_columns)%nat →
  figure n_columns station_ids figs_dir j
  = Some (saved station_ids figs_dir j).
Proof.
  intros Hn. unfold figure, _STATIONS_PER_FIGURE. rewrite slice_batch.
  fold (batch station_ids j). rewrite mapM_column.
  - cbn [mbind option_bind]. unfold saved, batch, file_of.
    by rewrite length_imap.
  - eapply Forall_impl; [apply batch_columns|]. cbn. lia.
Qed.

Lemma plot_figures_saved (n_columns : nat) (station_ids : list string)
    (figs_dir : string) :
  (length station_ids ≤ n_columns)%nat →
  _plot_figures n_columns station_ids figs_dir
  = Some (saved station_ids figs_dir
            <$> seq 0 (ceil_div (length station_ids) 4)).
Proof.
  intros Hn. unfold _plot_figures, _STATIONS_PER_FIGURE.
  apply mapM_Some, Forall2_fmap_r, Forall_Forall2_diag, Forall_forall.
  intros j _. by apply figure_saved.
Qed.

Lemma panels_saved (station_ids : list string) (figs_dir : string)
    (l : list nat) :
  panels <$> (saved station_ids figs_dir <$> l) = batch station_ids <$> l.
Proof. by rewrite <- list_fmap_compose. Qed.

(** The panels of the first [m] figures are the first [4 m] stations. *)
Lemma batches_take (station_ids : list string) (m : nat) :
  mjoin (batch station_ids <$> seq 0 m)
  = imap (fun k sid => mkPanel (k mod 4) sid k) (take (4 * m) station_ids).
Proof.
  induction m as [|m IH]; [done|].
  rewrite seq_S, fmap_app, join_app, IH. cbn [fmap list_fmap mjoin list_join].
  rewrite app_nil_r.
  replace (4 * S m)%nat with (4 * m + 4)%nat by lia.
  rewrite <- take_take_drop, imap_app. f_equal.
  unfold batch. replace (0 + m)%nat with m by done.
  replace (m * 4)%nat with (4 * m)%nat by lia.
  apply imap_ext. intros i sid Hi. cbn beta.
  apply lookup_lt_Some in Hi as Hlt. rewrite length_take, length_drop in Hlt.
  rewrite length_take, Nat.min_l by lia.
  f_equal. symmetry.
  replace (4 * m + i)%nat with (i + m * 4)%nat by lia.
  rewrite Nat.Div0.mod_add. apply Nat.mod_small. lia.
Qed.

Lemma batches_all (station_ids : list string) :
  mjoin (batch station_ids <$> seq 0 (ceil_div (length station_ids) 4))
  = imap (fun k sid => mkPanel (k mod 4) sid k) station_ids.
Proof.
  rewrite batches_take, take_ge; [done|].
  pose proof (ceil_div_4_bounds (length station_ids)). lia.
Qed.

Lemma batch_length (station_ids : list string) (j : nat) :
  (j < ceil_div (length station_ids) 4)%nat →
  (1 ≤ length (batch station_ids j) ≤ 4)%nat
  ∧ (S j < ceil_div (length station_ids) 4 →
     length (batch station_ids j) = 4)%nat.
Proof.
  intros Hj. unfold batch. rewrite length_imap, length_take, length_drop.
  pose proof (ceil_div_4_bounds (length station_ids)). lia.
Qed.

Lemma sid_imap (l : list string) :
  sid <$> imap (fun k sid => mkPanel (k mod 4) sid k) l = l.
Proof.
  rewrite fmap_imap. rewrite <- (list_fmap_id l) at 2. by rewrite <- imap_const.
Qed.

Lemma file_of_inj (figs_dir : string) (j j' : nat) :
  file_of figs_dir j = file_of figs_dir j' → j = j'.
Proof.
  unfold file_of, joinpath.
  intros H. do 3 apply (inj (String.app _)) in H.
  apply append_inj_r in H.
  apply (f_equal int) in H. rewrite !int_format_03d in H.
  injection H. lia.
Qed.

Lemma figure_file (n_columns : nat) (station_ids : list string)
    (figs_dir : string) (j : nat) (fig : Figure) :
  figure n_columns station_ids figs_dir j = Some fig →
  fig_path fig = file_of figs_dir j.
Proof.
  unfold figure. destruct (mapM _ _); [|done]. by intros [= <-].
Qed.

Lemma plot_figures_lookup (n_columns : nat) (station_ids : list string)
    (figs_dir : string) (figures : list Figure) (j : nat) (fig : Figure) :
  _plot_figures n_columns station_ids figs_dir = Some figures →
  figures !! j = Some fig →
  figure n_columns station_ids figs_dir j = Some fig.
Proof.
  unfold _plot_figures. intros H%mapM_Some Hj.
  destruct (Forall2_lookup_r _ _ _ _ _ H Hj) as (j' & Hj' & Hfig).
  by apply lookup_seq in Hj' as [-> _].
Qed.

(** X10. When the simulated elevations have a column for every station,
    [_plot_figures] draws every station exactly once: the panels of its
    figures, taken in order, are the stations in the order of the list,
    station [k] on axis [k mod 4] with column [k]. There are as many
    figures as a quarter of the stations, rounded up; every figure has one
    to four panels, every figure but the last has four, and the axes that a
    figure does not use are removed. *)
Theorem every_station_is_plotted_once (n_columns : nat)
    (station_ids : list string) (figs_dir : string) :
  (length station_ids ≤ n_columns)%nat →
  ∃ figures,
    _plot_figures n_columns station_ids figs_dir = Some figures
    ∧ mjoin (panels <$> figures)
      = imap (fun k sid => mkPanel (k mod 4) sid k) station_ids
    ∧ length figures = ceil_div (length station_ids) 4
    ∧ (∀ j fig, figures !! j = Some fig →
         (1 ≤ length (panels fig) ≤ 4)%nat
         ∧ (S j < length figures → length (panels fig) = 4)%nat
         ∧ removed_axes fig
           = seq (length (panels fig)) (4 - length (panels fig))).
Proof.
  intros Hn. eexists. split; [by apply plot_figures_saved|].
  split; [|split].
  - rewrite panels_saved. apply batches_all.
  - by rewrite length_fmap, length_seq.
  - intros j fig Hj. rewrite length_fmap, length_seq.
    rewrite list_lookup_fmap in Hj.
    destruct (seq 0 (ceil_div (length station_ids) 4) !! j) as [j'|] eqn:E;
      [|done].
    injection Hj as <-. apply lookup_seq in E as [-> Hlt]. cbn.
    destruct (batch_length station_ids j Hlt) as [H1 H2]. done.
Qed.

(** Five stations with five columns: a figure of four panels and a figure
    of one. *)
Lemma every_station_is_plotted_once_witness :
  ∃ figures,
    _plot_figures 5 Scenario.five_stations "/work/figs" = Some figures
    ∧ mjoin (panels <$> figures)
      = imap (fun k sid => mkPanel (k mod 4) sid k) Scenario.five_stations
    ∧ length figures = ceil_div (length Scenario.five_stations) 4
    ∧ (∀ j fig, figures !! j = Some fig →
         (1 ≤ length (panels fig) ≤ 4)%nat
         ∧ (S j < length figures → length (panels fig) = 4)%nat
         ∧ removed_axes fig
           = seq (length (panels fig)) (4 - length (panels fig))).
Proof.
  apply (every_station_is_plotted_once 5 Scenario.five_stations "/work/figs").
  cbn. lia.
Defined.

(** X11. The reconciliation in [run] makes the plotting safe: whatever the
    number of columns of [staout_1] and the number of station ids, the ids
    handed to [_plot_figures] are the first ids, as many as there are
    columns at most, the elevations handed to it have one column for each
    of them, and [_plot_figures] then meets no missing column and draws
    exactly these ids. A warning is logged exactly when the two numbers
    differ, and nothing is launched. *)
Theorem reconciled_stations_have_columns (monitor : bool) (n_columns : nat)
    (station_ids : list string) (figs_dir : string) :
  ∃ n ids tr,
    reconcile monitor n_columns station_ids = (Returned (n, ids), tr)
    ∧ ids = take n_columns station_ids
    ∧ n = length ids
    ∧ (n ≤ n_columns)%nat
    ∧ tr = (if bool_decide (n_columns = length station_ids) then []
            else logged monitor
                   ("Station count mismatch: staout_1 has "
                    +:+ pretty n_columns +:+ " columns but "
                    +:+ pretty (length station_ids) +:+ " station IDs")
                   "warning")
    ∧ ∃ figures,
        _plot_figures n ids figs_dir = Some figures
        ∧ sid <$> mjoin (panels <$> figures) = ids.
Proof.
  unfold reconcile. case_bool_decide as E.
  - assert (Hlen : length (take (Nat.min n_columns (length station_ids))
                             station_ids)
                   = Nat.min n_columns (length station_ids))
      by (rewrite length_take; lia).
    unfold _log, emit. cbn [mbind M_bind mret M_ret].
    eexists _, _, _. split; [reflexivity|].
    split; [|split; [|split; [|split]]].
    + destruct (Nat.le_gt_cases n_columns (length station_ids)).
      * by rewrite Nat.min_l.
      * rewrite Nat.min_r by lia. by rewrite !take_ge by lia.
    + rewrite Hlen. lia.
    + lia.
    + rewrite bool_decide_false by done. by rewrite app_nil_r.
    + eexists. split; [apply plot_figures_saved; rewrite Hlen; lia|].
      by rewrite panels_saved, batches_all, sid_imap.
  - eexists _, _, _. split; [reflexivity|].
    split; [|split; [|split; [|split]]].
    + by rewrite take_ge by lia.
    + done.
    + done.
    + by rewrite bool_decide_true.
    + eexists. split; [apply plot_figures_saved; lia|].
      by rewrite panels_saved, batches_all, sid_imap.
Qed.

(** X12. The figures go to files of their own: the file of the figure at
    place [j] is [stations_comparison_] followed by [j + 1] in three digits
    at least and [.png], in the directory of the figures, and no two
    figures of a call share a file. *)
Theorem figures_have_distinct_files (n_columns : nat)
    (station_ids : list string) (figs_dir : string) (figures : list Figure) :
  _plot_figures n_columns station_ids figs_dir = Some figures →
  NoDup (fig_path <$> figures)
  ∧ ∀ j fig, figures !! j = Some fig →
      fig_path fig
      = joinpath figs_dir
          ("stations_comparison_" +:+ format_03d (j + 1) +:+ ".png").
Proof.
  intros H. split.
  - apply NoDup_alt. intros i j p Hi Hj.
    rewrite list_lookup_fmap in Hi, Hj.
    destruct (figures !! i) as [fi|] eqn:Ei; [|done].
    destruct (figures !! j) as [fj|] eqn:Ej; [|done].
    injection Hi as Hi. injection Hj as Hj.
    apply (plot_figures_lookup _ _ _ _ _ _ H), figure_file in Ei, Ej.
    apply (file_of_inj figs_dir). congruence.
  - intros j fig Hj.
    by apply (plot_figures_lookup _ _ _ _ _ _ H), figure_file in Hj.
Qed.

(** The two figures of five stations are saved as numbers 001 and 002. *)
Lemma figures_have_distinct_files_witness :
  _plot_figures 5 Scenario.five_stations "/work/figs"
  = Some Scenario.two_figures
  ∧ NoDup (fig_path <$> Scenario.two_figures)
  ∧ ∀ j fig, Scenario.two_figures !! j = Some fig →
      fig_path fig
      = joinpath "/work/figs"
          ("stations_comparison_" +:+ format_03d (j + 1) +:+ ".png").
Proof.
  split; [vm_compute; reflexivity|].
  apply (figures_have_distinct_files 5 Scenario.five_stations "/work/figs"
           Scenario.two_figures).
  vm_compute. reflexivity.
Defined.

End PlotFacts.

(* ===================================================================== *)
(** * Properties of the run stage of the rasterized model *)
(* ===================================================================== *)

Module SfincsFacts.
Import Py SfincsStageBase TextFacts.

Lemma launches_app (t1 t2 : Trace) :
  launches (t1 ++ t2) = launches t1 ++ launches t2.
Proof. apply omap_app. Qed.

Lemma launches_logged (m : bool) (msg level : string) :
  launches (logged m msg level) = [].
Proof. by destruct m. Qed.

Lemma succeeds_Ran (run : Oracle) (argv : list string)
    (cp : CompletedProcess) :
  run argv = Ran cp → succeeds run argv → returncode cp = 0.
Proof. intros H (cp' & H' & ?). congruence. Qed.

Lemma succeeds_NotFound (run : Oracle) (argv : list string) :
  run argv = NotFound → ¬ succeeds run argv.
Proof. intros H (cp' & H' & ?). congruence. Qed.

Lemma succeeds_Broke (run : Oracle) (argv : list string) (e : Exn) :
  run argv = Broke e → ¬ succeeds run argv.
Proof. intros H (cp' & H' & ?). congruence. Qed.

Section Facts.

Context {Any : Type} (str : string → Any).
Implicit Types (config : SfincsConfig) (run : Oracle).

Lemma pull_existing config monitor run exists_ :
  exists_ (_resolve_sif_path config) = true →
  pull_singularity_image config monitor run exists_ None
  = (Returned (_resolve_sif_path config),
     logged monitor ("SIF already exists: " +:+ _resolve_sif_path config)
       "info").
Proof.
  intros H. unfold pull_singularity_image. cbn [default]. rewrite H.
  unfold _log, emit. cbn [mbind M_bind mret M_ret]. by rewrite app_nil_r.
Qed.

Lemma pull_missing config monitor run exists_ :
  exists_ (_resolve_sif_path config) = false →
  let sif := _resolve_sif_path config in
  let intro :=
    logged monitor
      ("Pulling Singularity image: " +:+ "docker://" +:+ SFINCS_DOCKER_IMAGE
       +:+ ":" +:+ container_docker_tag config +:+ " -> " +:+ sif) "info"
    ++ [EvRun (pull_cmd config sif)] in
  pull_singularity_image config monitor run exists_ None
  = match run (pull_cmd config sif) with
    | NotFound => (Raised (FileNotFoundError "singularity"), intro)
    | Broke e => (Raised e, intro)
    | Ran cp =>
        if returncode cp =? 0 then (Returned sif, intro)
        else (Raised (RuntimeError ("singularity pull failed: "
                                    +:+ default "" (stderr cp))),
              intro ++ logged monitor
                ("singularity pull failed: "
                 +:+ last_chars 2000 (default "" (stderr cp))) "error")
    end.
Proof.
  intros H sif intro. subst sif intro.
  unfold pull_singularity_image. cbn [default]. rewrite H.
  unfold _log, emit, subprocess_run, raise, pull_cmd.
  destruct (run _) as [cp| |e]; cbn [mbind M_bind hd]; [|done|done].
  destruct (returncode cp =? 0); cbn [negb mbind M_bind mret M_ret];
    by rewrite ?app_nil_r, <- ?app_assoc.
Qed.

Lemma sfincs_command_outcome monitor run (sif root : string) :
  let cmd := ["singularity"; "run"; "-B" +:+ root +:+ ":/data"; sif] in
  let intro := logged monitor ("Running: " +:+ String.concat " " cmd) "info"
               ++ [EvRun cmd] in
  run_singularity_command monitor run sif root
  = match run cmd with
    | NotFound => (Raised (FileNotFoundError "singularity"), intro)
    | Broke e => (Raised e, intro)
    | Ran cp =>
        let tr := intro ++ [EvWrite (root +:+ "/sfincs_log.txt")
                              (stdout cp +:+ default "" (stderr cp))] in
        if returncode cp =? 0 then
          (Returned {| returncode := returncode cp; stdout := "";
                       stderr := Some "" |}, tr)
        else
          (Raised (RuntimeError
                     (if returncode cp =? 127
                      then "singularity not found. Make sure it is installed and on PATH."
                      else "SFINCS run failed with return code "
                           +:+ pretty (returncode cp))), tr)
    end.
Proof.
  intros cmd intro. subst cmd intro.
  unfold run_singularity_command, subprocess_run, _log, emit, raise.
  cbn [mbind M_bind].
  destruct (run _) as [cp| |e]; cbn [mbind M_bind hd]; [|done|done].
  destruct (Z.eqb_spec (returncode cp) 127) as [E|E].
  - rewrite E. cbn [Z.eqb mbind M_bind]. by rewrite ?app_nil_r, <- ?app_assoc.
  - destruct (returncode cp =? 0); cbn [negb mbind M_bind mret M_ret];
      by rewrite ?app_nil_r, <- ?app_assoc.
Qed.

(** X13. The run stage of the rasterized model completes exactly when an
    image is there or its pull succeeds, and the run of the model in the
    image succeeds. It then returns the context with the run status set to
    completed, having launched the pull only when the image was missing,
    and the model after it. *)
Theorem sfincs_run_completes_iff config monitor run exists_
    (context : gmap string Any) :
  let sif := _resolve_sif_path config in
  ((∃ context' tr,
      SfincsRunStage.run Any str config monitor run exists_ context
      = (Returned context', tr))
   ↔ (exists_ sif = true ∨ succeeds run (pull_cmd config sif))
     ∧ succeeds run (run_cmd config sif))
  ∧ ∀ context' tr,
      SfincsRunStage.run Any str config monitor run exists_ context
      = (Returned context', tr) →
      context' = <["run_status" := str "completed"]> context
      ∧ launches tr
        = (if exists_ sif then [] else [pull_cmd config sif])
          ++ [run_cmd config sif].
Proof.
  intros sif. unfold SfincsRunStage.run.
  destruct (exists_ sif) eqn:Hex.
  - rewrite (pull_existing config monitor run exists_ Hex).
    cbn [mbind M_bind]. rewrite sfincs_command_outcome. fold sif.
    fold (run_cmd config sif).
    destruct (run (run_cmd config sif)) as [cp| |e] eqn:Hrun.
    + cbv zeta. destruct (Z.eqb_spec (returncode cp) 0) as [Hrc|Hrc].
      * cbn [mbind M_bind mret M_ret _log emit]. split.
        -- split; [intros _|by eexists _, _].
           split; [by left|by exists cp].
        -- intros context' tr [= <- <-]. split; [done|].
           rewrite !launches_app, !launches_logged. done.
      * split; [|done]. split; [by intros (? & ? & ?)|].
        intros (_ & ?%(succeeds_Ran _ _ _ Hrun)). done.
    + split; [|done]. split; [by intros (? & ? & ?)|].
      by intros (_ & ?%(succeeds_NotFound _ _ Hrun)).
    + split; [|done]. split; [by intros (? & ? & ?)|].
      by intros (_ & ?%(succeeds_Broke _ _ _ Hrun)).
  - pose proof (pull_missing config monitor run exists_ Hex) as Hp.
    cbv zeta in Hp. fold sif in Hp. rewrite Hp. clear Hp.
    destruct (run (pull_cmd config sif)) as [cp| |e] eqn:Hpull.
    + destruct (Z.eqb_spec (returncode cp) 0) as [Hrc|Hrc].
      * cbn [mbind M_bind]. rewrite sfincs_command_outcome.
        fold (run_cmd config sif).
        destruct (run (run_cmd config sif)) as [cp'| |e] eqn:Hrun.
        -- cbv zeta. destruct (Z.eqb_spec (returncode cp') 0) as [Hrc'|Hrc'].
           ++ cbn [mbind M_bind mret M_ret _log emit]. split.
              ** split; [intros _|by eexists _, _].
                 split; [right; by exists cp|by exists cp'].
              ** intros context' tr [= <- <-]. split; [done|].
                 rewrite !launches_app, !launches_logged. done.
           ++ split; [|done]. split; [by intros (? & ? & ?)|].
              intros (_ & ?%(succeeds_Ran _ _ _ Hrun)). done.
        -- split; [|done]. split; [by intros (? & ? & ?)|].
           by intros (_ & ?%(succeeds_NotFound _ _ Hrun)).
        -- split; [|done]. split; [by intros (? & ? & ?)|].
           by intros (_ & ?%(succeeds_Broke _ _ _ Hrun)).
      * cbn [mbind M_bind]. split; [|done]. split; [by intros (? & ? & ?)|].
        intros ([|?%(succeeds_Ran _ _ _ Hpull)] & _); done.
    + cbn [mbind M_bind]. split; [|done]. split; [by intros (? & ? & ?)|].
      intros ([|?%(succeeds_NotFound _ _ Hpull)] & _); done.
    + cbn [mbind M_bind]. split; [|done]. split; [by intros (? & ? & ?)|].
      intros ([|?%(succeeds_Broke _ _ _ Hpull)] & _); done.
Qed.

(** X14. When the image is missing and its pull exits with a non-zero
    status, the run stage raises the [RuntimeError] of the pull, which
    carries the error stream of the pull in full, and the model is not
    run: the pull is the only command launched. The log has the last 2000
    characters of the stream. *)
Theorem failed_pull_stops_the_run config monitor run exists_
    (context : gmap string Any) (cp : CompletedProcess) :
  let sif := _resolve_sif_path config in
  exists_ sif = false →
  run (pull_cmd config sif) = Ran cp →
  returncode cp ≠ 0 →
  ∃ tr,
    SfincsRunStage.run Any str config monitor run exists_ context
    = (Raised (RuntimeError ("singularity pull failed: "
                             +:+ default "" (stderr cp))),
       tr ++ logged monitor
               ("singularity pull failed: "
                +:+ last_chars 2000 (default "" (stderr cp))) "error")
    ∧ launches tr = [pull_cmd config sif].
Proof.
  intros sif Hex Hpull Hrc. unfold SfincsRunStage.run.
  pose proof (pull_missing config monitor run exists_ Hex) as Hp.
  cbv zeta in Hp. fold sif in Hp. rewrite Hp, Hpull. clear Hp.
  destruct (Z.eqb_spec (returncode cp) 0) as [|_]; [done|].
  cbn [mbind M_bind]. eexists. split; [done|].
  by rewrite !launches_app, !launches_logged.
Qed.

End Facts.

(** The registry refuses the image: the stage fails with the message of
    the pull, and the model is not run. *)
Lemma failed_pull_stops_the_run_witness :
  ∃ tr,
    SfincsRunStage.run string id Scenario.sfincs_config true
      Scenario.failing_pull (fun _ => false) ∅
    = (Raised (RuntimeError
                 "singularity pull failed: FATAL: unable to pull image"),
       tr ++ logged true
               ("singularity pull failed: "
                +:+ last_chars 2000 "FATAL: unable to pull image") "error")
    ∧ launches tr
      = [["singularity"; "pull"; "/model/sfincs-cpu_latest.sif";
          "docker://deltares/sfincs-cpu:latest"]].
Proof.
  apply (failed_pull_stops_the_run id Scenario.sfincs_config true
           Scenario.failing_pull (fun _ => false) ∅
           {| returncode := 255; stdout := "";
              stderr := Some "FATAL: unable to pull image" |}).
  - reflexivity.
  - reflexivity.
  - discriminate.
Defined.

End SfincsFacts.

(* ===================================================================== *)
(** * Properties of the reading of the mesh file *)
(* ===================================================================== *)

Module HgridFacts.
Import Py Schism TextFacts.

Lemma readline_line (l rest : string) :
  lacks "010" l → readline (l +:+ newline +:+ rest) = (l +:+ newline, rest).
Proof.
  unfold lacks. induction l as [|c l IH]; [done|]. cbn [all_chars].
  intros [Hc%negb_true_iff Hl]%andb_true_iff.
  rewrite !append_cons. cbn [readline]. by rewrite Hc, IH.
Qed.

Lemma unlines_cons (l : string) (ls : list string) (rest : string) :
  unlines (l :: ls) +:+ rest = l +:+ newline +:+ (unlines ls +:+ rest).
Proof. cbn [unlines foldr]. by rewrite !append_assoc. Qed.

Lemma unlines_app (a b : list string) (rest : string) :
  unlines (a ++ b) +:+ rest = unlines a +:+ (unlines b +:+ rest).
Proof.
  induction a as [|l a IH]; [done|].
  rewrite <- app_comm_cons, !unlines_cons. by rewrite IH.
Qed.

Lemma skip_unlines (ls : list string) (rest : string) :
  Forall (lacks "010") ls → skip (length ls) (unlines ls +:+ rest) = rest.
Proof.
  induction 1 as [|l ls Hl _ IH]; [done|].
  rewrite unlines_cons. cbn [length skip]. by rewrite readline_line.
Qed.

Lemma split_never_nil (sep : ascii) (s : string) : split sep s ≠ [].
Proof.
  induction s as [|c s IH]; [done|]. cbn [split].
  destruct (Ascii.eqb c sep); [done|]. by destruct (split sep s).
Qed.

Lemma hd_split_app (sep : ascii) (a b : string) :
  lacks sep a →
  hd "" (split sep (a +:+ b)) = a +:+ hd "" (split sep b).
Proof.
  unfold lacks. induction a as [|c a IH]; [done|]. cbn [all_chars].
  intros [Hc%negb_true_iff Ha]%andb_true_iff.
  rewrite !append_cons. cbn [split]. rewrite Hc.
  pose proof (split_never_nil sep (a +:+ b)) as Hne.
  specialize (IH Ha). destruct (split sep (a +:+ b)) as [|h t]; [done|].
  cbn [hd] in *. by rewrite IH.
Qed.

Lemma rstrip_space (t : string) (c : ascii) :
  isspace c = true → rstrip (t +:+ String c "") = rstrip t.
Proof.
  intros Hc. induction t as [|x t IH].
  - change ("" +:+ String c "") with (String c ""). cbn [rstrip].
    by rewrite Hc.
  - rewrite append_cons. cbn [rstrip]. by rewrite IH.
Qed.

Lemma split_whitespace_cons (x : ascii) (r : string) :
  isspace x = false →
  match r with String y _ => isspace y = false | EmptyString => False end →
  split_whitespace (String x r)
  = match split_whitespace r with
    | w :: ws => String x w :: ws
    | [] => [String x ""]
    end.
Proof.
  intros Hx Hr. remember r as R eqn:HR in |- * at 1.
  cbn [split_whitespace]. rewrite Hx. subst R.
  destruct r as [|y r]; [done|]. by rewrite Hr.
Qed.

Lemma words_token (t rest : string) (c : ascii) :
  t ≠ "" → all_chars (fun x => negb (isspace x)) t = true →
  isspace c = true →
  split_whitespace (t +:+ String c rest) = t :: split_whitespace rest.
Proof.
  intros Hne Ht Hc. induction t as [|x t IH]; [done|].
  cbn [all_chars] in Ht. apply andb_true_iff in Ht as [Hx%negb_true_iff Ht].
  destruct t as [|y t].
  - change (String x "" +:+ String c rest) with (String x (String c rest)).
    cbn [split_whitespace]. by rewrite Hx, Hc.
  - assert (Hy : isspace y = false).
    { cbn [all_chars] in Ht. by apply andb_true_iff in Ht as [?%negb_true_iff _]. }
    rewrite append_cons, split_whitespace_cons, IH; done.
Qed.

Lemma pretty_Z_no_space (z : Z) :
  all_chars (fun x => negb (isspace x)) (pretty z) = true.
Proof.
  assert (Hd : ∀ x : N, all_chars (fun x => negb (isspace x)) (pretty x) = true).
  { intros x. eapply all_chars_impl; [|apply all_digits_pretty_N].
    intros c Hc. by rewrite digit_not_space. }
  destruct z as [|p|p]; [done|apply (Hd (Npos p))|].
  unfold pretty, pretty_Z.
  change ("-" +:+ pretty p) with (String "-" (pretty (Npos p))).
  cbn [all_chars]. by rewrite Hd.
Qed.

Lemma int_pretty_nat (n : nat) : int (pretty n) = Some (Z.of_nat n).
Proof.
  unfold pretty, pretty_nat.
  rewrite int_digit_string by apply all_digits_pretty_N.
  rewrite int_digits_pretty_N. f_equal. lia.
Qed.

Lemma count_count_line (n : nat) (comment rest : string) :
  count (count_line n comment +:+ rest) = Some (Z.of_nat n).
Proof.
  unfold count, count_line.
  pose proof (all_digits_pretty_N (N.of_nat n)) as Hd.
  change (pretty (N.of_nat n)) with (pretty n) in Hd.
  replace ((pretty n +:+ " = " +:+ comment) +:+ rest)
    with ((pretty n +:+ " = ") +:+ (comment +:+ rest))
    by (by rewrite !append_assoc).
  rewrite hd_split_app.
  - replace ((pretty n +:+ " = ") +:+ hd "" (split "!" (comment +:+ rest)))
      with ((pretty n +:+ " ") +:+ String "=" (" " +:+ hd "" (split "!" (comment +:+ rest))))
      by (by rewrite !append_assoc).
    rewrite split_field.
    + cbn [hd]. unfold strip.
      assert (lstrip (pretty n +:+ " ") = pretty n +:+ " ") as ->.
      { destruct (pretty n) as [|c d] eqn:E.
        - pose proof (int_pretty_nat n) as H. by rewrite E in H.
        - cbn [all_chars] in Hd. apply andb_true_iff in Hd as [Hc _].
          rewrite append_cons. cbn [lstrip]. by rewrite digit_not_space. }
      rewrite rstrip_space by done.
      rewrite rstrip_no_space.
      * apply int_pretty_nat.
      * eapply all_chars_impl; [|done]. intros c Hc. by rewrite digit_not_space.
    + unfold lacks. rewrite all_chars_app. apply andb_true_iff. split; [|done].
      by apply digits_lack.
  - unfold lacks. rewrite all_chars_app. apply andb_true_iff. split; [|done].
    by apply digits_lack.
Qed.

Lemma pretty_Z_lacks_newline (z : Z) : lacks "010" (pretty z).
Proof. by apply pretty_Z_lacks. Qed.

Lemma pretty_Z_nonempty (z : Z) : pretty z ≠ "".
Proof. pose proof (pretty_Z_truthy z) as H. by destruct (pretty z). Qed.

Lemma words_number (z : Z) :
  split_whitespace (pretty z +:+ newline) = [pretty z].
Proof.
  change (pretty z +:+ newline) with (pretty z +:+ String "010" "").
  rewrite words_token;
    [done|apply pretty_Z_nonempty|apply pretty_Z_no_space|done].
Qed.

Lemma nodes_lines (vs : list Z) (rest : string) :
  nodes (length vs) (unlines (pretty <$> vs) +:+ rest) = Some (vs, rest).
Proof.
  induction vs as [|v vs IH]; [done|].
  rewrite fmap_cons, unlines_cons. cbn [length nodes].
  rewrite readline_line by apply pretty_Z_lacks_newline.
  rewrite words_number. cbn [lookup list_lookup mbind option_bind].
  rewrite int_pretty. cbn [mbind option_bind]. by rewrite IH.
Qed.

Lemma count_line_lacks (n : nat) (comment : string) :
  lacks "010" comment → lacks "010" (count_line n comment).
Proof.
  intros Hc. unfold count_line, lacks. rewrite !all_chars_app.
  pose proof (all_digits_pretty_N (N.of_nat n)) as Hd.
  apply (digits_lack "010") in Hd; [|done].
  unfold lacks in Hd, Hc. change (pretty (N.of_nat n)) with (pretty n) in Hd.
  by rewrite Hd, Hc.
Qed.

Lemma boundaries_lines (bnds : list (list Z * string)) (rest : string) :
  Forall (fun b => lacks "010" b.2) bnds →
  boundaries (length bnds) (unlines (bnds ≫= boundary_lines) +:+ rest)
  = Some (fst <$> bnds).
Proof.
  induction 1 as [|[vs comment] bnds Hc _ IH]; [done|].
  cbn [mbind list_bind boundary_lines fst snd app] in *.
  rewrite unlines_cons, unlines_app.
  cbn [length boundaries].
  rewrite readline_line by (by apply count_line_lacks).
  rewrite count_count_line. cbn [mbind option_bind].
  rewrite Nat2Z.id, nodes_lines. cbn [mbind option_bind].
  by rewrite IH.
Qed.

(** X17. The header of a mesh file is read back: after a description
    line, a line with the number of elements, a blank and the number of
    nodes gives these two numbers, in this order, whatever follows. *)
Theorem mesh_header_is_read_back (desc rest : string) (n_elements n_nodes : Z) :
  lacks "010" desc →
  _read_hgrid_header
    (desc +:+ newline
     +:+ pretty n_elements +:+ " " +:+ pretty n_nodes +:+ newline +:+ rest)
  = Some (n_elements, n_nodes).
Proof.
  intros Hd. unfold _read_hgrid_header.
  rewrite readline_line by done.
  replace (pretty n_elements +:+ " " +:+ pretty n_nodes +:+ newline +:+ rest)
    with ((pretty n_elements +:+ " " +:+ pretty n_nodes) +:+ newline +:+ rest)
    by (by rewrite !append_assoc).
  rewrite readline_line.
  - rewrite !append_assoc.
    change (" " +:+ ?x) with (String " " x).
    rewrite words_token;
      [|apply pretty_Z_nonempty|apply pretty_Z_no_space|done].
    rewrite words_number. cbn [lookup list_lookup mbind option_bind].
    by rewrite !int_pretty.
  - unfold lacks. rewrite !all_chars_app.
    pose proof (pretty_Z_lacks_newline n_elements) as H1.
    pose proof (pretty_Z_lacks_newline n_nodes) as H2.
    unfold lacks in H1, H2. by rewrite H1, H2.
Qed.

(** X18. The open boundaries of a mesh file are read back. Let the file
    have a description line, the header with the numbers of elements and of
    nodes, one line for each node and each element, the number of open
    boundaries, a line with their total number of nodes, and for each open
    boundary the number of its nodes and one line for each node, every
    number being followed by a comment after an equals sign. Then the
    header gives the numbers of elements and nodes, and with them
    [_read_open_boundary_nodes] gives the nodes of the open boundaries, in
    order; the lines of the nodes and elements, the total and the comments
    are passed over, and what follows the open boundaries is not read. *)
Theorem open_boundaries_are_read_back (desc total comment rest : string)
    (node_lines element_lines : list string)
    (bnds : list (list Z * string)) :
  lacks "010" desc → lacks "010" total → lacks "010" comment →
  Forall (lacks "010") node_lines →
  Forall (lacks "010") element_lines →
  Forall (fun b => lacks "010" b.2) bnds →
  let n_elements := Z.of_nat (length element_lines) in
  let n_nodes := Z.of_nat (length node_lines) in
  let hgrid :=
    unlines ([desc; pretty n_elements +:+ " " +:+ pretty n_nodes]
             ++ node_lines ++ element_lines
             ++ [count_line (length bnds) comment; total]
             ++ (bnds ≫= boundary_lines)) +:+ rest in
  _read_hgrid_header hgrid = Some (n_elements, n_nodes)
  ∧ _read_open_boundary_nodes hgrid n_nodes n_elements = Some (fst <$> bnds).
Proof.
  intros Hd Ht Hc Hn He Hb n_elements n_nodes hgrid. subst hgrid. split.
  - rewrite <- app_comm_cons, unlines_cons. cbn [app].
    rewrite unlines_cons.
    rewrite <- !append_assoc. rewrite !append_assoc.
    by apply mesh_header_is_read_back.
  - unfold _read_open_boundary_nodes.
    assert (Hh : lacks "010" (pretty n_elements +:+ " " +:+ pretty n_nodes)).
    { unfold lacks. rewrite !all_chars_app.
      pose proof (pretty_Z_lacks_newline n_elements) as H1.
      pose proof (pretty_Z_lacks_newline n_nodes) as H2.
      unfold lacks in H1, H2. by rewrite H1, H2. }
    rewrite (unlines_app [_; _]).
    rewrite (skip_unlines [_; _]) by (by repeat constructor).
    rewrite unlines_app. subst n_nodes n_elements. rewrite !Nat2Z.id.
    rewrite skip_unlines by done.
    rewrite unlines_app, skip_unlines by done.
    rewrite (unlines_app [_; _]), !unlines_cons.
    rewrite readline_line by (by apply count_line_lacks).
    rewrite count_count_line. cbn [mbind option_bind].
    rewrite readline_line by done. cbn [snd].
    change (unlines [] +:+ ?x) with x.
    rewrite Nat2Z.id. by apply boundaries_lines.
Qed.
(** A header of 3 elements and 4 nodes. *)
Lemma mesh_header_is_read_back_witness :
  _read_hgrid_header
    ("mesh" +:+ newline +:+ pretty 3 +:+ " " +:+ pretty 4 +:+ newline
     +:+ "1 0.0 0.0 1.0")
  = Some (3, 4).
Proof.
  apply (mesh_header_is_read_back "mesh" "1 0.0 0.0 1.0" 3 4).
  reflexivity.
Defined.

(** The two open boundaries of the small mesh. *)
Lemma open_boundaries_are_read_back_witness :
  _read_hgrid_header small_mesh = Some (1, 2)
  ∧ _read_open_boundary_nodes small_mesh 2 1 = Some [[1; 2]; [2]].
Proof.
  apply (open_boundaries_are_read_back "mesh"
           "3 = Total number of open boundary nodes"
           "Number of open boundaries" "0 = Number of land boundaries"
           ["1 0.0 0.0 1.0"; "2 1.0 0.0 1.0"] ["1 3 1 2 2"]
           [([1; 2], "Number of nodes for open boundary 1");
            ([2], "Number of nodes for open boundary 2")]);
    repeat constructor.
Defined.

End HgridFacts.

(* ===================================================================== *)
(** * Properties of the writing of the station file *)
(* ===================================================================== *)

Module StationInFacts.
Import Py Schism TextFacts.

Lemma digits_no_linebreak (s : string) :
  all_chars is_digit s = true → no_linebreak s.
Proof.
  apply all_chars_impl. intros c Hc. apply negb_true_iff.
  unfold is_digit in Hc. unfold is_linebreak.
  apply andb_true_iff in Hc as [H1%N.leb_le H2%N.leb_le].
  apply orb_false_iff. split; apply andb_false_iff.
  - right. apply N.leb_gt. lia.
  - right. apply N.leb_gt. lia.
Qed.

Lemma pretty_nat_no_linebreak (n : nat) : no_linebreak (pretty n).
Proof. apply digits_no_linebreak, (all_digits_pretty_N (N.of_nat n)). Qed.

Section Facts.

Context {float : Type} (float_str : float → string).
Hypothesis float_str_line : ∀ x, no_linebreak (float_str x).

Lemma station_line_no_linebreak (i : nat) (lon lat : float) :
  no_linebreak (station_line float float_str i lon lat).
Proof.
  unfold station_line, no_linebreak. rewrite !all_chars_app.
  pose proof (pretty_nat_no_linebreak i) as Hi.
  pose proof (float_str_line lon) as H1. pose proof (float_str_line lat) as H2.
  unfold no_linebreak in *. by rewrite Hi, H1, H2.
Qed.

(** X19. The station file that [_write_station_in] writes is laid out line
    by line, when no number is printed with a line break: its first line is
    the output flags, its second line the number of longitudes, and then
    comes one line for each pair of a longitude and a latitude, numbered
    from 1, in order. The number announced is the number of longitudes; the
    stations listed are as many as the shorter of the two lists has. *)
Theorem station_in_count_and_lines (files : Files) (base_dir : string)
    (lons lats : list float) :
  let (files', path) := _write_station_in float float_str files base_dir lons lats in
  path = joinpath base_dir "station.in"
  ∧ ∃ text stations,
      files' !! path = Some text
      ∧ splitlines text
        = "1 0 0 0 0 0 0 0 0" :: pretty (length lons) :: stations
      ∧ length stations = Nat.min (length lons) (length lats)
      ∧ (∀ k lon lat, lons !! k = Some lon → lats !! k = Some lat →
           stations !! k
           = Some (pretty (k + 1)%nat +:+ " " +:+ float_str lon +:+ " "
                   +:+ float_str lat +:+ " 0.0")).
Proof.
  unfold _write_station_in. split; [done|].
  eexists _, _. split; [by rewrite lookup_insert_eq|].
  split; [|split].
  - rewrite splitlines_concat; [reflexivity| |done].
    repeat constructor; [apply pretty_nat_no_linebreak|].
    apply Forall_forall. intros line Hl.
    apply list_elem_of_lookup in Hl as [k Hk].
    rewrite list_lookup_imap in Hk.
    destruct (zip lons lats !! k) as [[lon lat]|]; [|done].
    injection Hk as <-. apply station_line_no_linebreak.
  - by rewrite length_imap, length_zip.
  - intros k lon lat Hlon Hlat. rewrite list_lookup_imap.
    rewrite (proj2 (lookup_zip_with_Some pair lons lats k (lon, lat)));
      [done|]. by exists lon, lat.
Qed.

End Facts.

(** Two longitudes and one latitude: two stations are announced and one is
    listed. *)
Lemma station_in_count_and_lines_witness :
  let (files', path) :=
    _write_station_in bool Scenario.coordinate ∅ "/work" [true; true]
      [false] in
  path = joinpath "/work" "station.in"
  ∧ ∃ text stations,
      files' !! path = Some text
      ∧ splitlines text = "1 0 0 0 0 0 0 0 0" :: pretty 2%nat :: stations
      ∧ length stations = Nat.min 2 1
      ∧ (∀ k lon lat, [true; true] !! k = Some lon → [false] !! k = Some lat →
           stations !! k
           = Some (pretty (k + 1)%nat +:+ " " +:+ Scenario.coordinate lon
                   +:+ " " +:+ Scenario.coordinate lat +:+ " 0.0")).
Proof.
  apply (station_in_count_and_lines Scenario.coordinate).
  intros []; reflexivity.
Defined.

End StationInFacts.
